(** * ipp-usb: the per-device lifecycle controller and the IPP attribute
      decoder, embedded from [device.go] and [ipp.go].

    The Go code is modelled as it is written.  A Go function that may
    panic returns in the [Go.Res] monad; a Go slice keeps the difference
    between [nil] and an empty, allocated slice; a [map[string]T] is a
    [gmap string T]; the calls [device.go] makes on its collaborators
    (transport, listener, proxy, publisher, state store) are recorded as
    events in a trace.  Diagnostic logging ([log_debug], [log_dump],
    [Logger.Debug], [Logger.Error], [LogMessage.Flush] and the deferred
    [LogMessage.Commit]) changes neither a returned value nor a resource
    and is left out of the model. *)

From Stdlib Require Import ZArith String Ascii List.
From stdpp Require Import base option list gmap strings.

Local Open Scope string_scope.
Local Open Scope list_scope.
Local Open Scope Z_scope.

(* ===================================================================== *)
(** ** Go run-time notions used by the two source files                   *)
(* ===================================================================== *)

Module Go.

(** The run-time panics the modelled code can raise. *)
Inductive panic : Set :=
| IndexOutOfRange      (* s[i] with i outside 0 .. len(s)-1 *)
| TypeAssertion        (* v.(T) on a value whose dynamic type is not T *)
| NilDereference.      (* method call through a nil pointer *)

(** Outcome of a Go call: a value, or a panic that unwinds the caller. *)
Inductive Res (A : Type) : Type :=
| Ret (a : A)
| Panic (p : panic).
Arguments Ret {A} a.
Arguments Panic {A} p.

Definition bind {A B} (m : Res A) (f : A -> Res B) : Res B :=
  match m with
  | Ret a => f a
  | Panic p => Panic p
  end.

(** A slice value: [None] is the nil slice, [Some l] an allocated slice
    with elements [l] ([Some []] is empty but not nil). *)
Definition slice (A : Type) : Type := option (list A).

Definition elems {A} (s : slice A) : list A :=
  match s with
  | None => []
  | Some l => l
  end.

(** [len(s)] *)
Definition len {A} (s : slice A) : nat := length (elems s).

(** [append(s, x)]: the result is never nil. *)
Definition append {A} (s : slice A) (x : A) : slice A := Some (elems s ++ [x]).

(** [make([]T, n)] filled with the zero value [z]: never nil, also for n = 0. *)
Definition make {A} (z : A) (n : nat) : slice A := Some (repeat z n).

(** [s[i]] with the bounds check of the run time. *)
Definition index {A} (l : list A) (i : nat) : Res A :=
  match l !! i with
  | Some x => Ret x
  | None => Panic IndexOutOfRange
  end.

(** [s[i] = x] on an allocated slice, with the bounds check. *)
Definition store {A} (l : list A) (i : nat) (x : A) : Res (list A) :=
  if decide (i < length l)%nat then Ret (<[i := x]> l) else Panic IndexOutOfRange.

(** A [for] loop over a list threading a state, stopped by a panic. *)
Fixpoint foldM {A S} (body : S -> A -> Res S) (s : S) (l : list A) : Res S :=
  match l with
  | [] => Ret s
  | x :: l' => bind (body s x) (fun s' => foldM body s' l')
  end.

End Go.

Import Go.

#[global] Instance Res_ret : MRet Res := @Ret.
#[global] Instance Res_bind : MBind Res := fun A B f m => Go.bind m f.

(* ===================================================================== *)
(** ** The functions of Go's package [strings] that ipp.go calls          *)
(* ===================================================================== *)

Module strings.

(** [strings.HasPrefix(s, prefix)] *)
Fixpoint HasPrefix (s prefix : string) : bool :=
  match prefix with
  | EmptyString => true
  | String p prefix' =>
      match s with
      | EmptyString => false
      | String c s' => if Ascii.eqb c p then HasPrefix s' prefix' else false
      end
  end.

Fixpoint drop (n : nat) (s : string) : string :=
  match n, s with
  | S n', String _ s' => drop n' s'
  | _, _ => s
  end.

(** [strings.TrimPrefix(s, prefix)] *)
Definition TrimPrefix (s prefix : string) : string :=
  if HasPrefix s prefix then drop (String.length prefix) s else s.

(** [strings.Join(elems, sep)] *)
Fixpoint Join (elems : list string) (sep : string) : string :=
  match elems with
  | [] => ""
  | [x] => x
  | x :: rest => x +:+ sep +:+ Join rest sep
  end.

(** The splitting loop behind [Split] and [SplitN], for the one-byte
    separators the source uses: cut [s] at the first [cuts] occurrences
    of [sep].  The result is the first piece and the pieces after it; it
    is never empty. *)
Fixpoint genSplit (sep : ascii) (cuts : nat) (s : string) : string * list string :=
  match s with
  | EmptyString => (EmptyString, [])
  | String c s' =>
      match cuts with
      | O => (s, [])
      | S cuts' =>
          if Ascii.eqb c sep
          then let '(h, t) := genSplit sep cuts' s' in (EmptyString, h :: t)
          else let '(h, t) := genSplit sep cuts s' in (String c h, t)
      end
  end.

(** [strings.Split(s, sep)]: all the pieces. *)
Definition Split (s : string) (sep : ascii) : list string :=
  let '(h, t) := genSplit sep (String.length s) s in h :: t.

(** [strings.SplitN(s, sep, n)]: at most n pieces, the last one the
    unsplit remainder; n = 0 gives nil and n < 0 all the pieces. *)
Definition SplitN (s : string) (sep : ascii) (n : Z) : list string :=
  if n =? 0 then []
  else if n <? 0 then Split s sep
  else let '(h, t) := genSplit sep (Z.to_nat (n - 1)) s in h :: t.

End strings.

(* ===================================================================== *)
(** ** The part of the library github.com/alexpevzner/goipp that is used  *)
(* ===================================================================== *)

Module goipp.

Definition Tag : Set := Z.

(** [goipp.Type]: the kind of a value. *)
Inductive Type_ : Set :=
| TypeInvalid | TypeVoid | TypeInteger | TypeBoolean | TypeString
| TypeDateTime | TypeResolution | TypeRange | TypeTextWithLang
| TypeBinary | TypeCollection.

(** [goipp.Value]: the dynamically typed attribute value, with
    [goipp.Attribute] (a name and its tagged values); a collection is a
    list of attributes. *)
Inductive Value : Set :=
| Void
| Integer (n : Z)
| Boolean (b : bool)
| String (s : string)
| Time (t : Z)
| Resolution (Xres Yres Units : Z)
| Range (Lower Upper : Z)
| TextWithLang (Lang Text : string)
| Binary (data : string)
| Collection (attrs : list Attribute)
with Attribute : Set :=
| MakeAttr (Name : string) (Values : list (Tag * Value)).

(** [goipp.Values]: [[]struct{ T Tag; V Value }] *)
Abbreviation Values := (list (Tag * Value)).

Definition Name (a : Attribute) : string := let 'MakeAttr n _ := a in n.
Definition Values_of (a : Attribute) : Values := let 'MakeAttr _ vs := a in vs.

(** The zero [Attribute] of a [var] declaration. *)
Definition zeroAttribute : Attribute := MakeAttr EmptyString [].

(** [Value.Type()] *)
Definition TypeOf (v : Value) : Type_ :=
  match v with
  | Void => TypeVoid
  | Integer _ => TypeInteger
  | Boolean _ => TypeBoolean
  | String _ => TypeString
  | Time _ => TypeDateTime
  | Resolution _ _ _ => TypeResolution
  | Range _ _ => TypeRange
  | TextWithLang _ _ => TypeTextWithLang
  | Binary _ => TypeBinary
  | Collection _ => TypeCollection
  end.

(** The attribute groups of [goipp.Message] that the code touches. *)
Record Message : Set := { Operation : list Attribute; Printer : list Attribute }.

(** The type assertions [v.(goipp.String)], [v.(goipp.Boolean)] and
    [v.(goipp.Collection)]: they panic on any other dynamic type. *)
Definition as_String (v : Value) : Res string :=
  match v with String s => Ret s | _ => Panic TypeAssertion end.
Definition as_Boolean (v : Value) : Res bool :=
  match v with Boolean b => Ret b | _ => Panic TypeAssertion end.
Definition as_Collection (v : Value) : Res (list Attribute) :=
  match v with Collection c => Ret c | _ => Panic TypeAssertion end.

End goipp.

#[global] Instance goipp_Type_eq_dec : EqDecision goipp.Type_.
Proof. solve_decision. Defined.


(** Go's [error] values, by their message; [None] is the nil error. *)
Definition error : Set := string.

(* ===================================================================== *)
(** ** The part of net/http and io/ioutil that ipp.go calls               *)
(* ===================================================================== *)

Module http.

(** [http.Response]: its [Body] is given by what [ioutil.ReadAll] reads
    from it, the bytes and the read error. *)
Record Response : Set := { Body : list Byte.byte * option error }.

(** [http.Client], by the outcome of its [Post] method on a URL, a
    content type and a request body. *)
Record Client : Type :=
  { Post : string -> string -> list Byte.byte -> option Response * option error }.

End http.

(* ===================================================================== *)
(** ** ipp.go                                                             *)
(* ===================================================================== *)

Module ipp.

(** [type ippAttrs map[string]goipp.Values] *)
Abbreviation ippAttrs := (gmap string goipp.Values).

(** One item of a TXT record and the service descriptor [DnsSdInfo]
    (the field [Type] is spelled [Type_]). *)
Record DnsSdTxtItem : Set := { Key : string; Value : string }.
Record DnsSdInfo : Set := { Type_ : string; Txt : list DnsSdTxtItem }.

(** The zero [DnsSdInfo] of a named result that was never assigned. *)
Definition zeroDnsSdInfo : DnsSdInfo := {| Type_ := ""; Txt := [] |}.

(** Modelled from the spec: [Txt.Add] is defined in dnssd.go, which is not
    among the sources.  The capability record is "an ordered sequence of
    (key, value) pairs" into which a rule writes its key: [Add] appends
    the pair at the end. *)
Definition Txt_Add (txt : list DnsSdTxtItem) (key value : string) : list DnsSdTxtItem :=
  txt ++ [{| Key := key; Value := value |}].

(** Modelled from the spec: [Txt.AddNotEmpty] is defined in dnssd.go, which
    is not among the sources.  A field derived from an absent or empty
    value is "omitted ... not written as empty": the pair is appended
    only when the value is not empty, and the result tells whether it was
    (the source tests it for the URF fallback). *)
Definition Txt_AddNotEmpty (txt : list DnsSdTxtItem) (key value : string)
  : list DnsSdTxtItem * bool :=
  if String.eqb value "" then (txt, false) else (Txt_Add txt key value, true).

(** [newIppDecoder]: the loop runs from the last attribute of
    [msg.Printer] down to the first and overwrites. *)
Definition newIppDecoder (msg : goipp.Message) : ippAttrs :=
  fold_left (fun attrs attr => <[goipp.Name attr := goipp.Values_of attr]> attrs)
            (rev (goipp.Printer msg)) ∅.

(** [getAttr]: [names] is the variadic argument.  [ok && v[0].V.Type() == t]
    evaluates [v[0]] only for a name that is in the map. *)
Fixpoint getAttr (attrs : ippAttrs) (t : goipp.Type_) (names : list string)
  : Res (slice goipp.Value) :=
  match names with
  | [] => Ret None
  | name :: names' =>
      match attrs !! name with
      | None => getAttr attrs t names'
      | Some v =>
          v0 ← Go.index v 0;
          if decide (goipp.TypeOf v0.2 = t)
          then Ret (fold_left (fun vals vi => Go.append vals vi.2) v None)
          else getAttr attrs t names'
      end
  end.

(** The body of the loop of [getStrings]:
    [strs[i] = string(vals[i].(goipp.String))]. *)
Definition getStrings_fill (strs : slice string) (iv : nat * goipp.Value)
  : Res (slice string) :=
  let '(i, v) := iv in
  s ← goipp.as_String v;
  l ← Go.store (Go.elems strs) i s;
  Ret (Some l).

(** [getStrings]: the result slice is made with [make], also when [vals]
    is nil, and then filled index by index. *)
Definition getStrings (attrs : ippAttrs) (names : list string) : Res (slice string) :=
  vals ← getAttr attrs goipp.TypeString names;
  let strs := Go.make "" (Go.len vals) in
  foldM getStrings_fill strs (imap pair (Go.elems vals)).

(** [strSingle] *)
Definition strSingle (attrs : ippAttrs) (names : list string) : Res string :=
  strs ← getStrings attrs names;
  match strs with
  | None => Ret ""
  | Some l => Go.index l 0
  end.

(** [strJoined] *)
Definition strJoined (attrs : ippAttrs) (names : list string) : Res string :=
  strs ← getStrings attrs names;
  Ret (strings.Join (Go.elems strs) ",").

(** [strBrackets] *)
Definition strBrackets (attrs : ippAttrs) (names : list string) : Res string :=
  s ← strSingle attrs names;
  Ret (if String.eqb s "" then s else "(" +:+ s +:+ ")").

(** [getBool] *)
Definition getBool (attrs : ippAttrs) (names : list string) : Res string :=
  vals ← getAttr attrs goipp.TypeBoolean names;
  match vals with
  | None => Ret ""
  | Some l =>
      v0 ← Go.index l 0;
      b ← goipp.as_Boolean v0;
      Ret (if b : bool then "T" else "F")
  end.

(** The body of the loop of [getDuplex]. *)
Definition getDuplex_value (flags : bool * bool) (v : goipp.Value) : Res (bool * bool) :=
  let '(one, two) := flags in
  s ← goipp.as_String v;
  if strings.HasPrefix s "one" then Ret (true, two)
  else if strings.HasPrefix s "two" then Ret (one, true)
  else Ret (one, two).

(** [getDuplex] *)
Definition getDuplex (attrs : ippAttrs) : Res string :=
  vals ← getAttr attrs goipp.TypeString ["sides-supported"];
  '(one, two) ← foldM getDuplex_value (false, false) (Go.elems vals);
  Ret (if two : bool then "T" else if one : bool then "F" else "").

Definition legal_a4_x : Z := 21600.
Definition legal_a4_y : Z := 35400.
Definition tabloid_a3_x : Z := 27900.
Definition tabloid_a3_y : Z := 43200.
Definition isoC_a2_x : Z := 43200.
Definition isoC_a2_y : Z := 55900.

(** The inner loop of [getPaperMax]: it runs over the collection from its
    last member down to the first and keeps, for each of the two names,
    the member seen last; a name that does not occur leaves the zero
    [Attribute]. *)
Definition getPaperMax_dims (attrs : list goipp.Attribute)
  : goipp.Attribute * goipp.Attribute :=
  fold_left (fun '(x_dim_attr, y_dim_attr) a =>
               if String.eqb (goipp.Name a) "x-dimension" then (a, y_dim_attr)
               else if String.eqb (goipp.Name a) "y-dimension" then (x_dim_attr, a)
               else (x_dim_attr, y_dim_attr))
            (rev attrs) (goipp.zeroAttribute, goipp.zeroAttribute).

(** The update of [x_dim_max] (and, by the same text, of [y_dim_max]):
    a type switch on the first value of the dimension attribute. *)
Definition getPaperMax_update (dim_attr : goipp.Attribute) (dim_max : Z) : Z :=
  match goipp.Values_of dim_attr with
  | [] => dim_max
  | (_, v) :: _ =>
      match v with
      | goipp.Integer dim => if dim >? dim_max then dim else dim_max
      | goipp.Range _ Upper => if Upper >? dim_max then Upper else dim_max
      | _ => dim_max
      end
  end.

(** The final [switch] of [getPaperMax]. *)
Definition getPaperMax_classify (x_dim_max y_dim_max : Z) : string :=
  if (x_dim_max >? isoC_a2_x) && (y_dim_max >? isoC_a2_y) then ">isoC-A2"
  else if (x_dim_max >=? isoC_a2_x) && (y_dim_max >=? isoC_a2_y) then "isoC-A2"
  else if (x_dim_max >=? tabloid_a3_x) && (y_dim_max >=? tabloid_a3_y) then "tabloid-A3"
  else if (x_dim_max >=? legal_a4_x) && (y_dim_max >=? legal_a4_y) then "legal-A4"
  else "<legal-A4".

(** The body of the loop of [getPaperMax] over the values of the
    attribute: one collection, and the two maxima so far. *)
Definition getPaperMax_entry (dim_max : Z * Z) (collection : goipp.Value)
  : Res (Z * Z) :=
  let '(x_dim_max, y_dim_max) := dim_max in
  attrs ← goipp.as_Collection collection;
  let '(x_dim_attr, y_dim_attr) := getPaperMax_dims attrs in
  Ret (getPaperMax_update x_dim_attr x_dim_max,
       getPaperMax_update y_dim_attr y_dim_max).

(** [getPaperMax] *)
Definition getPaperMax (attrs : ippAttrs) : Res string :=
  vals ← getAttr attrs goipp.TypeCollection ["media-size-supported"];
  match vals with
  | None => Ret ""
  | Some vals =>
      '(x_dim_max, y_dim_max) ← foldM getPaperMax_entry (0, 0) vals;
      if (x_dim_max =? 0) || (y_dim_max =? 0) then Ret ""
      else Ret (getPaperMax_classify x_dim_max y_dim_max)
  end.

(** The device-ID loop of [Decode] (lines 121-127): every piece of the
    [;]-split string is cut in at most two at [:], and a piece that gave
    two parts is stored in the map [devid]. *)
Definition Decode_devid_loop (pieces : list string) (devid : gmap string string)
  : gmap string string :=
  fold_left (fun devid id =>
               let keyval := strings.SplitN id ":" 2 in
               match keyval with
               | [k; v] => <[k := v]> devid
               | _ => devid
               end)
            pieces devid.

Definition Decode_devid (id : string) : gmap string string :=
  Decode_devid_loop (strings.Split id ";") ∅.

(** [devid[key]]: a key that is not in the map reads as the empty string. *)
Definition devid_get (devid : gmap string string) (key : string) : string :=
  default "" (devid !! key).

(** [Decode] *)
Definition Decode (attrs : ippAttrs) : Res (string * DnsSdInfo) :=
  dnssd_name ← strSingle attrs
    ["printer-dns-sd-name"; "printer-info"; "printer-make-and-model"];
  id ← strSingle attrs ["printer-device-id"];
  let devid := Decode_devid id in
  let txt := Txt_Add [] "air" "none" in
  s ← strSingle attrs ["mopria-certified"];
  let txt := (Txt_AddNotEmpty txt "mopria-certified" s).1 in
  let txt := Txt_Add txt "rp" "ipp/print" in
  let txt := Txt_Add txt "priority" "50" in
  s ← strJoined attrs ["printer-kind"];
  let txt := (Txt_AddNotEmpty txt "kind" s).1 in
  s ← getPaperMax attrs;
  let txt := (Txt_AddNotEmpty txt "PaperMax" s).1 in
  s ← strJoined attrs ["urf-supported"];
  let '(txt, added) := Txt_AddNotEmpty txt "URF" s in
  let txt := if added : bool then txt
             else (Txt_AddNotEmpty txt "URF" (devid_get devid "URF")).1 in
  s ← strSingle attrs ["printer-uuid"];
  let txt := (Txt_AddNotEmpty txt "UUID" (strings.TrimPrefix s "urn:uuid:")).1 in
  s ← getBool attrs ["color-supported"];
  let txt := (Txt_AddNotEmpty txt "Color" s).1 in
  s ← getDuplex attrs;
  let txt := (Txt_AddNotEmpty txt "Duplex" s).1 in
  s ← strSingle attrs ["printer-location"];
  let txt := Txt_Add txt "note" s in
  let txt := Txt_Add txt "qtotal" "1" in
  let txt := (Txt_AddNotEmpty txt "usb_MDL" (devid_get devid "MDL")).1 in
  let txt := (Txt_AddNotEmpty txt "usb_MFG" (devid_get devid "MFG")).1 in
  let txt := (Txt_AddNotEmpty txt "usb_CMD" (devid_get devid "CMD")).1 in
  s ← strSingle attrs ["printer-make-and-model"];
  let txt := (Txt_AddNotEmpty txt "ty" s).1 in
  s ← strBrackets attrs ["printer-make-and-model"];
  let txt := (Txt_AddNotEmpty txt "product" s).1 in
  s ← strJoined attrs ["document-format-supported"];
  let txt := (Txt_AddNotEmpty txt "pdl" s).1 in
  let txt := Txt_Add txt "txtvers" "1" in
  Ret (dnssd_name, {| Type_ := "_ipp._tcp"; Txt := txt |}).

Section IppService.

(** The codec of the goipp library: [Message.EncodeBytes] (its error is
    dropped by the source) and [Message.DecodeBytes], which fills the
    message from the bytes or reports an error. *)
Variable EncodeBytes : goipp.Message -> list Byte.byte.
Variable DecodeBytes : goipp.Message -> list Byte.byte -> goipp.Message * option error.

Definition TagKeyword : goipp.Tag := 68.
Definition TagURI : goipp.Tag := 69.
Definition TagCharset : goipp.Tag := 71.
Definition TagLanguage : goipp.Tag := 72.
Definition ContentType : string := "application/ipp".

(** The query of [IppService]: the URI it posts to and the
    Get-Printer-Attributes request built by [goipp.NewRequest] and the four
    [msg.Operation.Add] calls. *)
Definition IppService_uri : string := "http://localhost/ipp/print".
Definition IppService_msg : goipp.Message :=
  {| goipp.Operation :=
       [ goipp.MakeAttr "attributes-charset" [(TagCharset, goipp.String "utf-8")];
         goipp.MakeAttr "attributes-natural-language" [(TagLanguage, goipp.String "en-US")];
         goipp.MakeAttr "printer-uri" [(TagURI, goipp.String IppService_uri)];
         goipp.MakeAttr "requested-attributes" [(TagKeyword, goipp.String "all")] ];
     goipp.Printer := [] |}.

(** [IppService]; the named results [dnssd_name], [info] and [err] are
    returned as a triple. *)
Definition IppService (c : http.Client) : Res (string * DnsSdInfo * option error) :=
  let uri := IppService_uri in
  let msg := IppService_msg in
  let req := EncodeBytes msg in
  let '(resp, err) := http.Post c uri ContentType req in
  match err with
  | Some _ => Ret ("", zeroDnsSdInfo, err)
  | None =>
      match resp with
      | None => Panic NilDereference
      | Some resp =>
          let '(respData, err) := http.Body resp in
          match err with
          | Some _ => Ret ("", zeroDnsSdInfo, err)
          | None =>
              let '(msg, err) := DecodeBytes msg respData in
              match err with
              | Some _ => Ret ("", zeroDnsSdInfo, None)   (* err = nil; return *)
              | None =>
                  let attrs := newIppDecoder msg in
                  '(dnssd_name, info) ← Decode attrs;
                  Ret (dnssd_name, info, None)
              end
          end
      end
  end.

End IppService.

End ipp.

(* ===================================================================== *)
(** ** device.go                                                          *)
(* ===================================================================== *)

Module device.

(** *** The types device.go takes from the rest of the program

    They are declared in files that are not among the sources; each one
    is given by what device.go reads from it or passes to it.  A value
    reached through a Go pointer or interface is an [option]: [None] is
    nil. *)

Definition Logger : Set := nat.
Definition Listener : Set := nat.
Definition Context : Set := nat.
Definition UsbAddr : Set := (Z * Z)%type.

Record UsbDeviceDesc : Set := { desc_UsbAddr : UsbAddr }.

(** [UsbDeviceInfo], by the results of its methods [Ident()], [Comment()]
    and [DNSSdName()]. *)
Module UsbDeviceInfo.
Record t : Set := { Ident : string; Comment : string; DNSSdName : string }.
End UsbDeviceInfo.

(** [UsbTransport], by an identity and the results of its methods
    [UsbDeviceInfo()] and [Log()]. *)
Record UsbTransport : Set :=
  { ut_id : nat; ut_info : UsbDeviceInfo.t; ut_log : Logger }.

(** [DevState]: the persistent state. *)
Module DevState.
Record t : Set := { DNSSdName : string; DNSSdOverride : string; HTTPPort : Z }.
Definition set_DNSSdName (v : string) (s : t) : t :=
  {| DNSSdName := v; DNSSdOverride := DNSSdOverride s; HTTPPort := HTTPPort s |}.
Definition set_DNSSdOverride (v : string) (s : t) : t :=
  {| DNSSdName := DNSSdName s; DNSSdOverride := v; HTTPPort := HTTPPort s |}.
End DevState.

(** [http.Client{Transport: ...}] *)
Record HTTPClient : Set := { Transport : option UsbTransport }.

(** [HTTPProxy], by the arguments [NewHTTPProxy] was given. *)
Record HTTPProxy : Set :=
  { proxy_log : option Logger;
    proxy_listener : option Listener;
    proxy_transport : option UsbTransport }.

(** The TXT record and the service descriptor (the field [Type] is
    spelled [Type_]), and the advertisement set [DNSSdServices]. *)
Record DNSSdTxtItem : Set := { Key : string; Value : string }.
Record DNSSdSvcInfo : Set :=
  { Type_ : string; Port : Z; Txt : list DNSSdTxtItem }.
Abbreviation DNSSdServices := (list DNSSdSvcInfo).

(** [DNSSdPublisher], by the arguments [NewDNSSdPublisher] was given. *)
Record DNSSdPublisher : Set :=
  { pub_log : option Logger;
    pub_state : option DevState.t;
    pub_services : DNSSdServices }.

(** [IppPrinterInfo], the result of the print query. *)
Module IppPrinterInfo.
Record t : Set := { DNSSdName : string; IppSvcIndex : Z }.
End IppPrinterInfo.

(** [type Device struct] *)
Module Device.
Record t : Set :=
  { UsbAddr : UsbAddr;
    State : option DevState.t;
    HTTPClient : option HTTPClient;
    HTTPProxy : option HTTPProxy;
    UsbTransport : option UsbTransport;
    DNSSdPublisher : option DNSSdPublisher;
    Log : option Logger }.

Definition set_State (v : option DevState.t) (d : t) : t :=
  {| UsbAddr := UsbAddr d; State := v; HTTPClient := HTTPClient d;
     HTTPProxy := HTTPProxy d; UsbTransport := UsbTransport d;
     DNSSdPublisher := DNSSdPublisher d; Log := Log d |}.
Definition set_HTTPClient v (d : t) : t :=
  {| UsbAddr := UsbAddr d; State := State d; HTTPClient := v;
     HTTPProxy := HTTPProxy d; UsbTransport := UsbTransport d;
     DNSSdPublisher := DNSSdPublisher d; Log := Log d |}.
Definition set_HTTPProxy v (d : t) : t :=
  {| UsbAddr := UsbAddr d; State := State d; HTTPClient := HTTPClient d;
     HTTPProxy := v; UsbTransport := UsbTransport d;
     DNSSdPublisher := DNSSdPublisher d; Log := Log d |}.
Definition set_UsbTransport v (d : t) : t :=
  {| UsbAddr := UsbAddr d; State := State d; HTTPClient := HTTPClient d;
     HTTPProxy := HTTPProxy d; UsbTransport := v;
     DNSSdPublisher := DNSSdPublisher d; Log := Log d |}.
Definition set_DNSSdPublisher v (d : t) : t :=
  {| UsbAddr := UsbAddr d; State := State d; HTTPClient := HTTPClient d;
     HTTPProxy := HTTPProxy d; UsbTransport := UsbTransport d;
     DNSSdPublisher := v; Log := Log d |}.
Definition set_Log v (d : t) : t :=
  {| UsbAddr := UsbAddr d; State := State d; HTTPClient := HTTPClient d;
     HTTPProxy := HTTPProxy d; UsbTransport := UsbTransport d;
     DNSSdPublisher := DNSSdPublisher d; Log := v |}.
End Device.

(** *** Resources, events and the monad of device.go *)

(** What a Device holds and has to give back. *)
Inductive Resource : Set :=
| RTransport (t : UsbTransport)
| RListener (l : Listener)
| RProxy (p : HTTPProxy)
| RPublisher (p : DNSSdPublisher).

(** The calls on the collaborators that the trace records. *)
Inductive Event : Set :=
| Acquire (r : Resource)
    (* NewUsbTransport, HTTPListen or NewHTTPProxy returned r; Publish of r succeeded *)
| Release (r : Resource)
    (* UsbTransport.Close, Listener.Close, HTTPProxy.Close; DNSSdPublisher.Unpublish *)
| ShutdownTransport (t : UsbTransport) (ctx : Context)
    (* UsbTransport.Shutdown(ctx) *)
| Save (s : DevState.t).
    (* DevState.Save *)

(** A run of device.go code: its outcome and the events up to the return
    or the panic. *)
Record Run (A : Type) : Type := MkRun { result : Res A; trace : list Event }.
Arguments MkRun {A} result trace.
Arguments result {A} r.
Arguments trace {A} r.

Definition emit (e : Event) : Run unit := MkRun (Ret tt) [e].
Definition panic {A} (p : Go.panic) : Run A := MkRun (Panic p) [].

(** [prepend tr r]: the run [r], after the events [tr]. *)
Definition prepend {A} (tr : list Event) (r : Run A) : Run A :=
  MkRun (result r) (tr ++ trace r).

#[global] Instance Run_ret : MRet Run := fun A a => MkRun (Ret a) [].
#[global] Instance Run_bind : MBind Run := fun A B f m =>
  match result m with
  | Ret a => prepend (trace m) (f a)
  | Panic p => MkRun (Panic p) (trace m)
  end.

(** [x != nil] *)
Definition notNil {A} (x : option A) : bool :=
  match x with Some _ => true | None => false end.

(** The collaborators: what each call of device.go returns.  A Go call
    with results [(T, error)] returns the pair; [HTTPListen], [IppService]
    and [EsclService] also return the object they were given a pointer to
    (the state, the advertisement set), as they leave it. *)
Record Env : Type :=
  { NewUsbTransport : UsbDeviceDesc -> option UsbTransport * option error;
    LoadDevState : string -> string -> DevState.t;
    HTTPListen : DevState.t -> option Listener * option error * DevState.t;
    IppService : DNSSdServices -> Z -> UsbDeviceInfo.t -> option HTTPClient ->
                 option IppPrinterInfo.t * option error * DNSSdServices;
    EsclService : DNSSdServices -> Z -> UsbDeviceInfo.t -> option IppPrinterInfo.t ->
                  option HTTPClient -> option error * DNSSdServices;
    Publish : DNSSdPublisher -> option error;
    TransportShutdown : UsbTransport -> Context -> option error;
    Conf_DNSSdEnable : bool }.

(** Method calls through a pointer: a nil receiver panics. *)
Definition deref {A} (x : option A) : Run A :=
  match x with
  | Some a => mret a
  | None => panic NilDereference
  end.

Definition UsbTransport_Close (t : option UsbTransport) : Run unit :=
  t ← deref t; emit (Release (RTransport t)).
Definition UsbTransport_Shutdown (E : Env) (t : option UsbTransport) (ctx : Context)
  : Run (option error) :=
  t ← deref t; _ ← emit (ShutdownTransport t ctx); mret (TransportShutdown E t ctx).
Definition Listener_Close (l : option Listener) : Run unit :=
  l ← deref l; emit (Release (RListener l)).
Definition HTTPProxy_Close (p : option HTTPProxy) : Run unit :=
  p ← deref p; emit (Release (RProxy p)).
Definition DNSSdPublisher_Unpublish (p : option DNSSdPublisher) : Run unit :=
  p ← deref p; emit (Release (RPublisher p)).
Definition DNSSdPublisher_Publish (E : Env) (p : option DNSSdPublisher)
  : Run (option error) :=
  p ← deref p;
  let err := Publish E p in
  _ ← (if notNil err then mret tt else emit (Acquire (RPublisher p)));
  mret err.
Definition DevState_Save (s : option DevState.t) : Run unit :=
  s ← deref s; emit (Save s).

(** A call that returned the resource [r], or nil. *)
Definition acquired (r : option Resource) : Run unit :=
  match r with
  | Some r => emit (Acquire r)
  | None => mret tt
  end.

(** Modelled from the spec: [DNSSdTxtRecord.Add] is defined in dnssd.go,
    which is not among the sources.  The capability record is "an ordered
    sequence of (key, value) pairs": [Add] appends the pair at the end. *)
Definition Txt_Add (svc : DNSSdSvcInfo) (key value : string) : DNSSdSvcInfo :=
  {| Type_ := Type_ svc; Port := Port svc;
     Txt := Txt svc ++ [{| Key := key; Value := value |}] |}.

(** Modelled from the spec: [DNSSdServices.Add] is defined in dnssd.go,
    which is not among the sources.  The advertisement set is an "ordered
    sequence of ServiceDescriptor" to which the web descriptor is
    appended: [Add] appends the descriptor at the end. *)
Definition DNSSdServices_Add (services : DNSSdServices) (svc : DNSSdSvcInfo)
  : DNSSdServices :=
  services ++ [svc].

(** *** NewDevice *)

(** The code at the label [ERROR] (lines 142-155). *)
Definition NewDevice_ERROR (dev : Device.t) (listener : option Listener)
  (err : option error) : Run (option Device.t * option error) :=
  _ ← (if notNil (Device.HTTPProxy dev)
       then HTTPProxy_Close (Device.HTTPProxy dev) else mret tt);
  _ ← (if notNil (Device.UsbTransport dev)
       then UsbTransport_Close (Device.UsbTransport dev) else mret tt);
  _ ← (if notNil listener then Listener_Close listener else mret tt);
  mret (None, err).

(** The update of the IPP service for scanner presence (lines 111-118):
    [&dnssdServices[ippinfo.IppSvcIndex]] is taken, with its bounds check,
    before [err] is looked at, and [Txt.Add] writes through that pointer. *)
Definition NewDevice_scan (ippinfo : option IppPrinterInfo.t) (err : option error)
  (dnssdServices : DNSSdServices) : Run DNSSdServices :=
  match ippinfo with
  | None => mret dnssdServices
  | Some ippinfo =>
      let i := IppPrinterInfo.IppSvcIndex ippinfo in
      if (0 <=? i) && (i <? Z.of_nat (length dnssdServices))
      then
        let flag := if notNil err then "F" else "T" in
        mret (alter (fun ippSvc => Txt_Add ippSvc "Scan" flag) (Z.to_nat i) dnssdServices)
      else panic IndexOutOfRange
  end.

(** The end of [NewDevice] (lines 120-140): the web service is added to
    the advertisement set and, when DNS-SD is enabled, the set is
    published. *)
Definition NewDevice_publish (E : Env) (dev : Device.t) (listener : option Listener)
  (dnssdServices : DNSSdServices) : Run (option Device.t * option error) :=
  (* Advertise Web service. Assume it always exists *)
  state ← deref (Device.State dev);
  let dnssdServices :=
    DNSSdServices_Add dnssdServices
      {| Type_ := "_http._tcp"; Port := DevState.HTTPPort state; Txt := [] |} in
  (* Start DNS-SD publisher *)
  if Conf_DNSSdEnable E
  then
    let dev := Device.set_DNSSdPublisher
                 (Some {| pub_log := Device.Log dev; pub_state := Device.State dev;
                          pub_services := dnssdServices |}) dev in
    err ← DNSSdPublisher_Publish E (Device.DNSSdPublisher dev);
    if notNil err then NewDevice_ERROR dev listener err
    else mret (Some dev, None)
  else mret (Some dev, None).

(** [NewDevice]; a [goto ERROR] is a call of [NewDevice_ERROR]. *)
Definition NewDevice (E : Env) (desc : UsbDeviceDesc)
  : Run (option Device.t * option error) :=
  let dev :=
    {| Device.UsbAddr := desc_UsbAddr desc; Device.State := None;
       Device.HTTPClient := None; Device.HTTPProxy := None;
       Device.UsbTransport := None; Device.DNSSdPublisher := None;
       Device.Log := None |} in
  let listener : option Listener := None in
  let dnssdServices : DNSSdServices := [] in
  (* Create USB transport *)
  let '(t, err) := NewUsbTransport E desc in
  _ ← acquired (RTransport <$> t);
  let dev := Device.set_UsbTransport t dev in
  if notNil err then NewDevice_ERROR dev listener err else
  (* Obtain device's logger *)
  t ← deref (Device.UsbTransport dev);
  let info := ut_info t in
  let dev := Device.set_Log (Some (ut_log t)) dev in
  (* Load persistent state *)
  let dev := Device.set_State
               (Some (LoadDevState E (UsbDeviceInfo.Ident info)
                                     (UsbDeviceInfo.Comment info))) dev in
  (* Create HTTP client for local queries *)
  let dev := Device.set_HTTPClient
               (Some {| Transport := Device.UsbTransport dev |}) dev in
  (* Create net.Listener *)
  state ← deref (Device.State dev);
  let '(listener, err, state) := HTTPListen E state in
  _ ← acquired (RListener <$> listener);
  let dev := Device.set_State (Some state) dev in
  if notNil err then NewDevice_ERROR dev listener err else
  (* Create HTTP server *)
  let proxy := {| proxy_log := Device.Log dev; proxy_listener := listener;
                  proxy_transport := Device.UsbTransport dev |} in
  _ ← acquired (Some (RProxy proxy));
  let dev := Device.set_HTTPProxy (Some proxy) dev in
  (* Obtain DNS-SD info for IPP *)
  let '(ippinfo, err, dnssdServices) :=
    IppService E dnssdServices (DevState.HTTPPort state) info (Device.HTTPClient dev) in
  (* Obtain DNS-SD name *)
  let dnssdName :=
    match ippinfo with
    | Some ippinfo => IppPrinterInfo.DNSSdName ippinfo
    | None => UsbDeviceInfo.DNSSdName info
    end in
  (* Update device state, if name changed *)
  state ← (if negb (String.eqb dnssdName (DevState.DNSSdName state))
           then
             let state := DevState.set_DNSSdName dnssdName state in
             let state := DevState.set_DNSSdOverride dnssdName state in
             _ ← DevState_Save (Some state);
             mret state
           else mret state);
  let dev := Device.set_State (Some state) dev in
  (* Obtain DNS-SD info for eSCL *)
  let '(err, dnssdServices) :=
    EsclService E dnssdServices (DevState.HTTPPort state) info ippinfo
                (Device.HTTPClient dev) in
  (* Update IPP service advertising for scanner presence *)
  dnssdServices ← NewDevice_scan ippinfo err dnssdServices;
  NewDevice_publish E dev listener dnssdServices.

(** *** Shutdown and Close

    Both have a pointer receiver: the Device as they leave it is part of
    the result. *)

Definition Shutdown (E : Env) (dev : Device.t) (ctx : Context)
  : Run (Device.t * option error) :=
  dev ← (if notNil (Device.DNSSdPublisher dev)
         then _ ← DNSSdPublisher_Unpublish (Device.DNSSdPublisher dev);
              mret (Device.set_DNSSdPublisher None dev)
         else mret dev);
  dev ← (if notNil (Device.HTTPProxy dev)
         then _ ← HTTPProxy_Close (Device.HTTPProxy dev);
              mret (Device.set_HTTPProxy None dev)
         else mret dev);
  if notNil (Device.UsbTransport dev)
  then err ← UsbTransport_Shutdown E (Device.UsbTransport dev) ctx;
       mret (dev, err)
  else mret (dev, None).

Definition Close (dev : Device.t) : Run Device.t :=
  dev ← (if notNil (Device.DNSSdPublisher dev)
         then _ ← DNSSdPublisher_Unpublish (Device.DNSSdPublisher dev);
              mret (Device.set_DNSSdPublisher None dev)
         else mret dev);
  dev ← (if notNil (Device.HTTPProxy dev)
         then _ ← HTTPProxy_Close (Device.HTTPProxy dev);
              mret (Device.set_HTTPProxy None dev)
         else mret dev);
  dev ← (if notNil (Device.UsbTransport dev)
         then _ ← UsbTransport_Close (Device.UsbTransport dev);
              mret (Device.set_UsbTransport None dev)
         else mret dev);
  mret dev.

End device.

(* ===================================================================== *)
(** ** What the specification says, for comparison with the code          *)
(* ===================================================================== *)

Module Spec.

(** [contains c s]: the byte [c] occurs in [s]. *)
Fixpoint contains (c : ascii) (s : string) : bool :=
  match s with
  | EmptyString => false
  | String a s' => Ascii.eqb a c || contains c s'
  end.

(** The segment with key [k] and value [v]. *)
Definition key_value (k v : string) : string := k +:+ ":" +:+ v.

(** The first attribute of a raw sequence that has the name [name]. *)
Definition first_occurrence (name : string) (raw : list goipp.Attribute)
  : option goipp.Attribute :=
  find (fun a => String.eqb (goipp.Name a) name) raw.

(** *** Paper size *)

(** The dimension an entry of "media-size-supported" gives under [name]:
    its member of that name, with the first value read as an integer or
    as the upper bound of a range. *)
Definition dimension (name : string) (entry : list goipp.Attribute) : option Z :=
  match first_occurrence name entry with
  | Some a =>
      match goipp.Values_of a with
      | (_, goipp.Integer n) :: _ => Some n
      | (_, goipp.Range _ upper) :: _ => Some upper
      | _ => None
      end
  | None => None
  end.

(** The maximum of a dimension over all entries; it is tracked from zero,
    so that it is zero when no entry gives the dimension. *)
Definition max_dimension (name : string) (entries : list (list goipp.Attribute)) : Z :=
  foldr Z.max 0 (omap (dimension name) entries).

(** The entry a value of the attribute stands for. *)
Definition collection_of (v : goipp.Value) : option (list goipp.Attribute) :=
  match v with
  | goipp.Collection c => Some c
  | _ => None
  end.

(** The entries of the collection-typed attribute "media-size-supported";
    [None] when the attribute is absent or not collection-typed. *)
Definition media_sizes (attrs : gmap string goipp.Values)
  : option (list (list goipp.Attribute)) :=
  match attrs !! "media-size-supported" with
  | Some ((_, goipp.Collection c) :: rest) =>
      Some (c :: omap (fun tv => collection_of tv.2) rest)
  | _ => None
  end.

(** The rows of the classification table, in the order they are checked. *)
Definition PaperMax_rows : list ((Z -> Z -> bool) * string) :=
  [ (fun x y => (43200 <? x) && (55900 <? y), ">isoC-A2");
    (fun x y => (43200 <=? x) && (55900 <=? y), "isoC-A2");
    (fun x y => (27900 <=? x) && (43200 <=? y), "tabloid-A3");
    (fun x y => (21600 <=? x) && (35400 <=? y), "legal-A4") ].

Definition PaperMax_row (x y : Z) : string :=
  match find (fun row => row.1 x y) PaperMax_rows with
  | Some row => row.2
  | None => "<legal-A4"
  end.

(** The PaperMax value of a store; the empty string stands for the
    omitted field. *)
Definition PaperMax (attrs : gmap string goipp.Values) : string :=
  match media_sizes attrs with
  | None => ""
  | Some entries =>
      let x := max_dimension "x-dimension" entries in
      let y := max_dimension "y-dimension" entries in
      if (x =? 0) || (y =? 0) then "" else PaperMax_row x y
  end.

(** *** Typing of a store *)

(** The values of an attribute are homogeneously typed: there is a first
    value and every value has its type. *)
Definition homogeneous (vs : goipp.Values) : bool :=
  match vs with
  | [] => false
  | (_, v0) :: rest =>
      forallb (fun tv => bool_decide (goipp.TypeOf tv.2 = goipp.TypeOf v0)) rest
  end.

Definition store_homogeneous (attrs : gmap string goipp.Values) : Prop :=
  map_Forall (fun _ vs => homogeneous vs = true) attrs.

(** The three name attributes, in the order they are tried. *)
Definition name_attributes : list string :=
  ["printer-dns-sd-name"; "printer-info"; "printer-make-and-model"].

(** The first of [names] that is present in the store with a first value
    of type [t]. *)
Definition first_typed (attrs : gmap string goipp.Values) (t : goipp.Type_)
  (names : list string) : option string :=
  find (fun n => match attrs !! n with
                 | Some ((_, v0) :: _) => bool_decide (goipp.TypeOf v0 = t)
                 | _ => false
                 end) names.

(** The strings among the values of an attribute. *)
Definition strings_of (vs : goipp.Values) : list string :=
  omap (fun tv => match tv.2 with
                  | goipp.String s => Some s
                  | _ => None
                  end) vs.

(** The values of the first of [names] that is present with a first value
    of type [t]. *)
Definition typed_values (attrs : gmap string goipp.Values) (t : goipp.Type_)
  (names : list string) : option goipp.Values :=
  n ← first_typed attrs t names; attrs !! n.

(** The string a store gives for [names]: the first value of the first of
    them that is present with string values. *)
Definition single_string (attrs : gmap string goipp.Values) (names : list string)
  : option string :=
  vs ← typed_values attrs goipp.TypeString names; head (strings_of vs).

(** [names] gives a string. *)
Definition present (attrs : gmap string goipp.Values) (names : list string) : bool :=
  match single_string attrs names with
  | Some _ => true
  | None => false
  end.

(** The attributes [Decode] reads with [strSingle]. *)
Definition single_attributes : list (list string) :=
  [ name_attributes; ["printer-device-id"]; ["mopria-certified"];
    ["printer-uuid"]; ["printer-location"]; ["printer-make-and-model"] ].

(** *** Name resolution *)

(** The first of [names] that is present in the store, with any value. *)
Definition first_present (attrs : gmap string goipp.Values) (names : list string)
  : option string :=
  find (fun n => bool_decide (is_Some (attrs !! n))) names.

(** The sentence on name resolution as the specification has it: the
    resolved name is the value of the first attribute present, whatever
    its value, and the empty string when none is present. *)
Definition name_resolution_as_stated (attrs : gmap string goipp.Values) : Prop :=
  exists name,
    ipp.strSingle attrs name_attributes = Ret name /\
    match first_present attrs name_attributes with
    | Some n => exists tag rest, attrs !! n = Some ((tag, goipp.String name) :: rest)
    | None => name = ""
    end.

(** *** The capability record *)

(** A field that is written only when its value is not empty. *)
Definition field (key value : string) : list ipp.DnsSdTxtItem :=
  if String.eqb value "" then [] else [{| ipp.Key := key; ipp.Value := value |}].

(** The record of the print descriptor, key by key in the order of the
    derivation table, from the values the attributes gave: an empty value
    leaves its field out, except for the note. *)
Definition TxtRecord (devid : gmap string string)
  (mopria kind paper urf uuid color duplex location model product pdl : string)
  : list ipp.DnsSdTxtItem :=
  [{| ipp.Key := "air"; ipp.Value := "none" |}] ++
  field "mopria-certified" mopria ++
  [{| ipp.Key := "rp"; ipp.Value := "ipp/print" |};
   {| ipp.Key := "priority"; ipp.Value := "50" |}] ++
  field "kind" kind ++
  field "PaperMax" paper ++
  field "URF" (if String.eqb urf "" then ipp.devid_get devid "URF" else urf) ++
  field "UUID" (strings.TrimPrefix uuid "urn:uuid:") ++
  field "Color" color ++
  field "Duplex" duplex ++
  [{| ipp.Key := "note"; ipp.Value := location |};
   {| ipp.Key := "qtotal"; ipp.Value := "1" |}] ++
  field "usb_MDL" (ipp.devid_get devid "MDL") ++
  field "usb_MFG" (ipp.devid_get devid "MFG") ++
  field "usb_CMD" (ipp.devid_get devid "CMD") ++
  field "ty" model ++
  field "product" product ++
  field "pdl" pdl ++
  [{| ipp.Key := "txtvers"; ipp.Value := "1" |}].

(** The values a record holds under a key. *)
Definition txt_values (key : string) (txt : list ipp.DnsSdTxtItem) : list string :=
  omap (fun item => if String.eqb (ipp.Key item) key then Some (ipp.Value item) else None)
       txt.

End Spec.

(** What the specification says about the Device, in terms of the trace. *)
Module DeviceSpec.

Import device.

(** The resources a trace acquired and the ones it released, in order,
    and the states it saved. *)
Definition acquired (tr : list Event) : list Resource :=
  omap (fun e => match e with Acquire r => Some r | _ => None end) tr.
Definition released (tr : list Event) : list Resource :=
  omap (fun e => match e with Release r => Some r | _ => None end) tr.
Definition saved (tr : list Event) : list DevState.t :=
  omap (fun e => match e with Save s => Some s | _ => None end) tr.

Definition is_transport (r : Resource) : bool :=
  match r with RTransport _ => true | _ => false end.
Definition is_listener (r : Resource) : bool :=
  match r with RListener _ => true | _ => false end.
Definition is_proxy (r : Resource) : bool :=
  match r with RProxy _ => true | _ => false end.

(** Unwinding as the specification states it: what was acquired is
    released in the reverse order. *)
Definition unwinds_in_reverse_order (tr : list Event) : Prop :=
  released tr = rev (acquired tr).

(** Unwinding in the fixed order proxy, transport, listener. *)
Definition unwind_order (acq : list Resource) : list Resource :=
  List.filter is_proxy acq ++ List.filter is_transport acq ++
  List.filter is_listener acq.

(** The events of a call that returned the resource [r], or nil, and of
    its release. *)
Definition acquire_events (r : option Resource) : list Event :=
  match r with Some r => [Acquire r] | None => [] end.
Definition release_events (r : option Resource) : list Event :=
  match r with Some r => [Release r] | None => [] end.

(** The advertised name: the one of the print query when it gave a
    result, else the fallback name of the device. *)
Definition resolved_name (ippinfo : option IppPrinterInfo.t) (info : UsbDeviceInfo.t)
  : string :=
  match ippinfo with
  | Some ippinfo => IppPrinterInfo.DNSSdName ippinfo
  | None => UsbDeviceInfo.DNSSdName info
  end.

(** The state written back for a new name. *)
Definition renamed (name : string) (s : DevState.t) : DevState.t :=
  {| DevState.DNSSdName := name; DevState.DNSSdOverride := name;
     DevState.HTTPPort := DevState.HTTPPort s |}.

(** The state after the name was resolved: written back with the new
    name when it differs from the stored one, else as it was. *)
Definition state_after (ippinfo : option IppPrinterInfo.t) (info : UsbDeviceInfo.t)
  (s : DevState.t) : DevState.t :=
  if String.eqb (resolved_name ippinfo info) (DevState.DNSSdName s)
  then s
  else renamed (resolved_name ippinfo info) s.

(** The events of [NewDevice] up to the scan query, with the transport
    [t] and the listener [l] acquired: the proxy is made, and the state is
    saved if the name changed. *)
Definition prefix_events (t : UsbTransport) (l : option Listener)
  (ippinfo : option IppPrinterInfo.t) (s : DevState.t) : list Event :=
  [Acquire (RTransport t)] ++ acquire_events (RListener <$> l) ++
  [Acquire (RProxy {| proxy_log := Some (ut_log t); proxy_listener := l;
                      proxy_transport := Some t |})] ++
  (if String.eqb (resolved_name ippinfo (ut_info t)) (DevState.DNSSdName s)
   then []
   else [Save (renamed (resolved_name ippinfo (ut_info t)) s)]).

(** The scan-presence flag for the outcome of the scan query. *)
Definition scan_flag (err : option error) : string :=
  match err with None => "T" | Some _ => "F" end.

(** A descriptor with the pair (key, value) at the end of its record. *)
Definition with_txt (svc : DNSSdSvcInfo) (key value : string) : DNSSdSvcInfo :=
  {| Type_ := Type_ svc; Port := Port svc;
     Txt := Txt svc ++ [{| Key := key; Value := value |}] |}.

(** The web descriptor that is always added. *)
Definition web_svc (s : DevState.t) : DNSSdSvcInfo :=
  {| Type_ := "_http._tcp"; Port := DevState.HTTPPort s; Txt := [] |}.

(** The Device as [NewDevice] has assembled it before it publishes. *)
Definition assembled (desc : UsbDeviceDesc) (t : UsbTransport) (l : option Listener)
  (s : DevState.t) : Device.t :=
  {| Device.UsbAddr := desc_UsbAddr desc;
     Device.State := Some s;
     Device.HTTPClient := Some {| Transport := Some t |};
     Device.HTTPProxy :=
       Some {| proxy_log := Some (ut_log t); proxy_listener := l;
               proxy_transport := Some t |};
     Device.UsbTransport := Some t;
     Device.DNSSdPublisher := None;
     Device.Log := Some (ut_log t) |}.

(** The publisher made for an assembled Device and an advertisement set. *)
Definition publisher (dev : Device.t) (services : DNSSdServices) : DNSSdPublisher :=
  {| pub_log := Device.Log dev; pub_state := Device.State dev;
     pub_services := services |}.

(** The Device after [Close]: the three references are nil. *)
Definition closed (dev : Device.t) : Device.t :=
  {| Device.UsbAddr := Device.UsbAddr dev; Device.State := Device.State dev;
     Device.HTTPClient := Device.HTTPClient dev; Device.HTTPProxy := None;
     Device.UsbTransport := None; Device.DNSSdPublisher := None;
     Device.Log := Device.Log dev |}.

(** The Device after [Shutdown]: the publisher and the proxy references
    are nil, the transport reference is as it was. *)
Definition shut_down (dev : Device.t) : Device.t :=
  {| Device.UsbAddr := Device.UsbAddr dev; Device.State := Device.State dev;
     Device.HTTPClient := Device.HTTPClient dev; Device.HTTPProxy := None;
     Device.UsbTransport := Device.UsbTransport dev; Device.DNSSdPublisher := None;
     Device.Log := Device.Log dev |}.

(** The events of [Shutdown] on the transport, when it is live. *)
Definition shutdown_events (t : option UsbTransport) (ctx : Context) : list Event :=
  match t with Some t => [ShutdownTransport t ctx] | None => [] end.

(** The Device holds [r] through a live reference. *)
Definition holds (dev : Device.t) (r : Resource) : Prop :=
  match r with
  | RTransport t => Device.UsbTransport dev = Some t
  | RProxy p => Device.HTTPProxy dev = Some p
  | RPublisher p => Device.DNSSdPublisher dev = Some p
  | RListener _ => False
  end.

(** The event gives [r] back: it is closed, unpublished or shut down. *)
Definition gives_back (e : Event) (r : Resource) : Prop :=
  match e with
  | Release r' => r' = r
  | ShutdownTransport t _ => r = RTransport t
  | _ => False
  end.

(** After the run, no reference is left to a resource it gave back. *)
Definition clears_what_it_releases {A} (run : Run A) (after : A -> Device.t) : Prop :=
  forall a r e,
    result run = Ret a -> In e (trace run) -> gives_back e r -> ~ holds (after a) r.

(** The run gives nothing back. *)
Definition releases_nothing {A} (run : Run A) : Prop :=
  forall e r, In e (trace run) -> ~ gives_back e r.

(** Idempotence as the specification states it: Shutdown and Close each
    clear the reference of whatever they release, so that a second call,
    of either, finds nothing to release. *)
Definition idempotent_as_stated (E : Env) : Prop :=
  forall (dev : Device.t) (ctx : Context),
    clears_what_it_releases (Shutdown E dev ctx) fst /\
    clears_what_it_releases (Close dev) id /\
    (forall dev' err, result (Shutdown E dev ctx) = Ret (dev', err) ->
                      releases_nothing (Shutdown E dev' ctx) /\
                      releases_nothing (Close dev')) /\
    (forall dev', result (Close dev) = Ret dev' -> releases_nothing (Close dev')).

End DeviceSpec.

(* ===================================================================== *)
(** ** Concrete inputs                                                    *)
(* ===================================================================== *)

Module Inputs.

(** The raw sequence [(A,"1"), (A,"2")]. *)
Definition raw_duplicate : goipp.Message :=
  {| goipp.Operation := [];
     goipp.Printer := [ goipp.MakeAttr "A" [(68, goipp.String "1")];
                        goipp.MakeAttr "A" [(68, goipp.String "2")] ] |}.

(** A store with one media size of x by y hundredths of a millimetre. *)
Definition store_media (x y : Z) : gmap string goipp.Values :=
  {[ "media-size-supported" :=
       [(52, goipp.Collection
               [ goipp.MakeAttr "x-dimension" [(33, goipp.Integer x)];
                 goipp.MakeAttr "y-dimension" [(33, goipp.Integer y)] ])] ]}.

(** A store in which the preferred name is present with an integer value
    and the info name with a string. *)
Definition store_integer_name : gmap string goipp.Values :=
  {[ "printer-dns-sd-name" := [(33, goipp.Integer 7)];
     "printer-info" := [(65, goipp.String "X")] ]}.

(** A store that holds "printer-make-and-model" = "Acme X1" and nothing
    else. *)
Definition store_only_model : gmap string goipp.Values :=
  {[ "printer-make-and-model" := [(65, goipp.String "Acme X1")] ]}.

(** A store in which "sides-supported" starts with a keyword and goes on
    with an integer. *)
Definition store_mixed_sides : gmap string goipp.Values :=
  {[ "sides-supported" := [(68, goipp.String "one-sided"); (33, goipp.Integer 1)] ]}.

(** A store with every attribute that [Decode] reads with [strSingle]. *)
Definition store_printer : gmap string goipp.Values :=
  list_to_map
    [ ("printer-dns-sd-name", [(66, goipp.String "Acme X1 (USB)")]);
      ("printer-info", [(65, goipp.String "Acme")]);
      ("printer-make-and-model", [(65, goipp.String "Acme X1")]);
      ("printer-device-id", [(65, goipp.String "MFG:Acme;MDL:X1;CMD:PCL,URF;URF:W8,DM1")]);
      ("mopria-certified", [(65, goipp.String "1.3")]);
      ("printer-uuid", [(69, goipp.String "urn:uuid:01234567-89ab-cdef-0123-456789abcdef")]);
      ("printer-location", [(65, goipp.String "")]);
      ("color-supported", [(34, goipp.Boolean true)]);
      ("sides-supported", [(68, goipp.String "one-sided");
                           (68, goipp.String "two-sided-long-edge")]);
      ("document-format-supported", [(73, goipp.String "application/pdf");
                                     (73, goipp.String "image/urf")]);
      ("media-size-supported",
       [(52, goipp.Collection
               [ goipp.MakeAttr "x-dimension" [(33, goipp.Integer 21000)];
                 goipp.MakeAttr "y-dimension" [(33, goipp.Integer 29700)] ]);
        (52, goipp.Collection
               [ goipp.MakeAttr "x-dimension" [(33, goipp.Integer 21590)];
                 goipp.MakeAttr "y-dimension" [(51, goipp.Range 27940 35560)] ])]) ].

(** The same store without "mopria-certified". *)
Definition store_printer_not_certified : gmap string goipp.Values :=
  delete "mopria-certified" store_printer.

End Inputs.

Module DeviceInputs.

Import device.

Definition desc0 : UsbDeviceDesc := {| desc_UsbAddr := (1, 4) |}.

Definition info0 : UsbDeviceInfo.t :=
  {| UsbDeviceInfo.Ident := "04a9-1234-SN0001";
     UsbDeviceInfo.Comment := "Acme X1";
     UsbDeviceInfo.DNSSdName := "Acme X1" |}.

Definition transport0 : UsbTransport :=
  {| ut_id := 1; ut_info := info0; ut_log := 1%nat |}.

Definition listener0 : Listener := 7%nat.

(** The stored state: the name is the fallback name of the device. *)
Definition state0 : DevState.t :=
  {| DevState.DNSSdName := "Acme X1"; DevState.DNSSdOverride := "";
     DevState.HTTPPort := 60000 |}.

Definition ipp_svc : DNSSdSvcInfo :=
  {| Type_ := "_ipp._tcp"; Port := 60000;
     Txt := [ {| Key := "air"; Value := "none" |};
              {| Key := "rp"; Value := "ipp/print" |} ] |}.

Definition escl_svc : DNSSdSvcInfo :=
  {| Type_ := "_uscan._tcp"; Port := 60000;
     Txt := [ {| Key := "rs"; Value := "eSCL" |} ] |}.

(** The result of a print query that succeeded, under the name [name]:
    its descriptor is added at the end of the set and its index recorded. *)
Definition ipp_ok (name : string) (services : DNSSdServices)
  : option IppPrinterInfo.t * option error * DNSSdServices :=
  (Some {| IppPrinterInfo.DNSSdName := name;
           IppPrinterInfo.IppSvcIndex := Z.of_nat (length services) |},
   None, services ++ [ipp_svc]).

(** An environment: the transport and the state are the ones above; the
    listener, the print query, the scan query and the publisher succeed or
    fail as the arguments tell. *)
Definition env (listen_err : option error) (ipp_name : option string)
  (escl_err publish_err : option error) : Env :=
  {| NewUsbTransport := fun _ => (Some transport0, None);
     LoadDevState := fun _ _ => state0;
     HTTPListen := fun s =>
       match listen_err with
       | Some e => (None, Some e, s)
       | None => (Some listener0, None, s)
       end;
     IppService := fun services _ _ _ =>
       match ipp_name with
       | Some name => ipp_ok name services
       | None => (None, Some "IPP: no response", services)
       end;
     EsclService := fun services _ _ _ _ =>
       match escl_err with
       | Some e => (Some e, services)
       | None => (None, services ++ [escl_svc])
       end;
     Publish := fun _ => publish_err;
     TransportShutdown := fun _ _ => None;
     Conf_DNSSdEnable := true |}.

(** An environment in which the transport cannot be acquired. *)
Definition env_no_transport : Env :=
  {| NewUsbTransport := fun _ => (None, Some "USB: device busy");
     LoadDevState := fun _ _ => state0;
     HTTPListen := fun s => (Some listener0, None, s);
     IppService := fun services _ _ _ => ipp_ok "Acme X1" services;
     EsclService := fun services _ _ _ _ => (None, services ++ [escl_svc]);
     Publish := fun _ => None;
     TransportShutdown := fun _ _ => None;
     Conf_DNSSdEnable := true |}.

Definition proxy0 : HTTPProxy :=
  {| proxy_log := Some 1%nat; proxy_listener := Some listener0;
     proxy_transport := Some transport0 |}.

Definition publisher0 : DNSSdPublisher :=
  {| pub_log := Some 1%nat; pub_state := Some state0; pub_services := [ipp_svc] |}.

(** A running Device: every reference is live. *)
Definition dev_running : Device.t :=
  {| Device.UsbAddr := (1, 4); Device.State := Some state0;
     Device.HTTPClient := Some {| Transport := Some transport0 |};
     Device.HTTPProxy := Some proxy0;
     Device.UsbTransport := Some transport0;
     Device.DNSSdPublisher := Some publisher0;
     Device.Log := Some 1%nat |}.

(** A client whose exchange succeeds, and a codec that cannot decode what
    came back. *)
Definition client_ok : http.Client :=
  {| http.Post := fun _ _ _ => (Some {| http.Body := ([], None) |}, None) |}.
Definition encode (msg : goipp.Message) : list Byte.byte := [].
Definition decode_fails (msg : goipp.Message) (data : list Byte.byte)
  : goipp.Message * option error :=
  (msg, Some "Message truncated").

End DeviceInputs.

(* ===================================================================== *)
(** ** Notions for the behaviour of the code on any store and any run     *)
(* ===================================================================== *)

Module Derived.

(** The value is a string. *)
Definition is_string (v : goipp.Value) : bool :=
  match v with
  | goipp.String _ => true
  | _ => false
  end.

(** The name at which the scan of [getAttr] stops: it is in the store
    with no value at all, or with a first value of type [t]. *)
Definition stops (attrs : gmap string goipp.Values) (t : goipp.Type_) (n : string)
  : bool :=
  match attrs !! n with
  | Some [] => true
  | Some ((_, v0) :: _) => bool_decide (goipp.TypeOf v0 = t)
  | None => false
  end.

(** None of [names] is in the store with an empty list of values. *)
Definition nonempty_values (attrs : gmap string goipp.Values) (names : list string)
  : Prop :=
  forall n, In n names -> attrs !! n <> Some [].

(** The text of the first boolean of [names]. *)
Definition bool_text (attrs : gmap string goipp.Values) (names : list string) : string :=
  match Spec.typed_values attrs goipp.TypeBoolean names with
  | Some ((_, goipp.Boolean true) :: _) => "T"
  | Some ((_, goipp.Boolean false) :: _) => "F"
  | _ => ""
  end.

(** The duplex flag of a list of "sides-supported" keywords: "T" when one
    of them starts with "two", else "F" when one starts with "one". *)
Definition Duplex (sides : list string) : string :=
  if existsb (fun s => strings.HasPrefix s "two") sides then "T"
  else if existsb (fun s => strings.HasPrefix s "one") sides then "F"
  else "".

(** The paper classes from the smallest to the largest; the empty string,
    for a size that is not known, comes first. *)
Definition PaperMax_rank (label : string) : nat :=
  if String.eqb label "<legal-A4" then 1
  else if String.eqb label "legal-A4" then 2
  else if String.eqb label "tabloid-A3" then 3
  else if String.eqb label "isoC-A2" then 4
  else if String.eqb label ">isoC-A2" then 5
  else 0.

(** The keys of the record of [Decode], in the order of its calls of
    [Add] and [AddNotEmpty]. *)
Definition TxtKeys : list string :=
  [ "air"; "mopria-certified"; "rp"; "priority"; "kind"; "PaperMax"; "URF"; "UUID";
    "Color"; "Duplex"; "note"; "qtotal"; "usb_MDL"; "usb_MFG"; "usb_CMD"; "ty";
    "product"; "pdl"; "txtvers" ].

(** The keys that [Decode] writes with [Add], and their values when these
    are hardcoded. *)
Definition TxtConstants : list (string * string) :=
  [ ("air", "none"); ("rp", "ipp/print"); ("priority", "50"); ("qtotal", "1");
    ("txtvers", "1") ].

(** The names of the attributes [Decode] looks up. *)
Definition read_attributes : list string :=
  [ "printer-dns-sd-name"; "printer-info"; "printer-make-and-model";
    "printer-device-id"; "mopria-certified"; "printer-kind"; "media-size-supported";
    "urf-supported"; "printer-uuid"; "color-supported"; "sides-supported";
    "printer-location"; "document-format-supported" ].

(** The device identifier written from a list of keys and values. *)
Definition device_id (pairs : list (string * string)) : string :=
  strings.Join (map (fun kv => Spec.key_value kv.1 kv.2) pairs) ";".

(** A key and a value that can be written into a device identifier and
    read back: the key holds neither a colon nor a semicolon, the value no
    semicolon. *)
Definition writable (kv : string * string) : bool :=
  negb (Spec.contains ":" kv.1) && negb (Spec.contains ";" kv.1) &&
  negb (Spec.contains ";" kv.2).

(** The keys of a record. *)
Definition keys (txt : list ipp.DnsSdTxtItem) : list string := map ipp.Key txt.

(** A resource that [Close] and [Shutdown] give back: all but the
    listener, which the Device holds no reference to. *)
Definition owned (r : device.Resource) : bool := negb (DeviceSpec.is_listener r).

(** The transports a trace asked to shut down. *)
Definition shut (tr : list device.Event) : list device.UsbTransport :=
  omap (fun e => match e with device.ShutdownTransport t _ => Some t | _ => None end) tr.

End Derived.

Module MoreInputs.

(** A store in which "color-supported" has no value at all. *)
Definition store_no_values : gmap string goipp.Values :=
  {[ "color-supported" := [] ]}.

(** A store in which "media-size-supported" has no value at all. *)
Definition store_no_media : gmap string goipp.Values :=
  {[ "media-size-supported" := [] ]}.

(** A store in which "printer-kind" is a list of two keywords. *)
Definition store_kind : gmap string goipp.Values :=
  {[ "printer-kind" := [(68, goipp.String "document"); (68, goipp.String "photo")] ]}.

(** A store in which "color-supported" starts with a boolean and goes on
    with an integer. *)
Definition store_color : gmap string goipp.Values :=
  {[ "color-supported" := [(34, goipp.Boolean true); (33, goipp.Integer 0)] ]}.

(** A wide and short size and a narrow and long one. *)
Definition media_wide : list goipp.Attribute :=
  [ goipp.MakeAttr "x-dimension" [(33, goipp.Integer 50000)];
    goipp.MakeAttr "y-dimension" [(33, goipp.Integer 100)] ].
Definition media_long : list goipp.Attribute :=
  [ goipp.MakeAttr "x-dimension" [(33, goipp.Integer 100)];
    goipp.MakeAttr "y-dimension" [(33, goipp.Integer 60000)] ].

(** Keys and values of a device identifier. *)
Definition pairs : list (string * string) :=
  [ ("MFG", "Acme"); ("MDL", "X1"); ("CMD", "PCL,URF"); ("MFG", "Acme Inc.") ].

(** The printer store with one more attribute, which [Decode] does not
    look up. *)
Definition store_printer_more : gmap string goipp.Values :=
  <["printer-state" := [(35, goipp.Integer 3)]]> Inputs.store_printer.

(** A response message that repeats the name attribute, and a codec that
    decodes every response to it. *)
Definition msg_printer : goipp.Message :=
  {| goipp.Operation := [];
     goipp.Printer :=
       [ goipp.MakeAttr "printer-dns-sd-name" [(66, goipp.String "Acme X1 (USB)")];
         goipp.MakeAttr "printer-dns-sd-name" [(66, goipp.String "Other")];
         goipp.MakeAttr "printer-info" [(65, goipp.String "Acme")];
         goipp.MakeAttr "printer-make-and-model" [(65, goipp.String "Acme X1")];
         goipp.MakeAttr "printer-device-id" [(65, goipp.String "MFG:Acme;MDL:X1")];
         goipp.MakeAttr "mopria-certified" [(65, goipp.String "1.3")];
         goipp.MakeAttr "printer-uuid" [(69, goipp.String "urn:uuid:0123")];
         goipp.MakeAttr "printer-location" [(65, goipp.String "")] ] |}.
Definition decode_ok (msg : goipp.Message) (data : list Byte.byte)
  : goipp.Message * option error :=
  (msg_printer, None).

(** The descriptor of the printer store. *)
Definition info_printer : ipp.DnsSdInfo :=
  {| ipp.Type_ := "_ipp._tcp";
     ipp.Txt :=
       [ {| ipp.Key := "air"; ipp.Value := "none" |};
         {| ipp.Key := "mopria-certified"; ipp.Value := "1.3" |};
         {| ipp.Key := "rp"; ipp.Value := "ipp/print" |};
         {| ipp.Key := "priority"; ipp.Value := "50" |};
         {| ipp.Key := "PaperMax"; ipp.Value := "<legal-A4" |};
         {| ipp.Key := "URF"; ipp.Value := "W8,DM1" |};
         {| ipp.Key := "UUID"; ipp.Value := "01234567-89ab-cdef-0123-456789abcdef" |};
         {| ipp.Key := "Color"; ipp.Value := "T" |};
         {| ipp.Key := "Duplex"; ipp.Value := "T" |};
         {| ipp.Key := "note"; ipp.Value := "" |};
         {| ipp.Key := "qtotal"; ipp.Value := "1" |};
         {| ipp.Key := "usb_MDL"; ipp.Value := "X1" |};
         {| ipp.Key := "usb_MFG"; ipp.Value := "Acme" |};
         {| ipp.Key := "usb_CMD"; ipp.Value := "PCL,URF" |};
         {| ipp.Key := "ty"; ipp.Value := "Acme X1" |};
         {| ipp.Key := "product"; ipp.Value := "(Acme X1)" |};
         {| ipp.Key := "pdl"; ipp.Value := "application/pdf,image/urf" |};
         {| ipp.Key := "txtvers"; ipp.Value := "1" |} ] |}.

(** The descriptor of the response message above. *)
Definition info_msg_printer : ipp.DnsSdInfo :=
  {| ipp.Type_ := "_ipp._tcp";
     ipp.Txt :=
       [ {| ipp.Key := "air"; ipp.Value := "none" |};
         {| ipp.Key := "mopria-certified"; ipp.Value := "1.3" |};
         {| ipp.Key := "rp"; ipp.Value := "ipp/print" |};
         {| ipp.Key := "priority"; ipp.Value := "50" |};
         {| ipp.Key := "UUID"; ipp.Value := "0123" |};
         {| ipp.Key := "note"; ipp.Value := "" |};
         {| ipp.Key := "qtotal"; ipp.Value := "1" |};
         {| ipp.Key := "usb_MDL"; ipp.Value := "X1" |};
         {| ipp.Key := "usb_MFG"; ipp.Value := "Acme" |};
         {| ipp.Key := "ty"; ipp.Value := "Acme X1" |};
         {| ipp.Key := "product"; ipp.Value := "(Acme X1)" |};
         {| ipp.Key := "txtvers"; ipp.Value := "1" |} ] |}.

(** A client whose post fails, and one whose response cannot be read. *)
Definition client_post_fails : http.Client :=
  {| http.Post := fun _ _ _ => (None, Some "connection refused") |}.
Definition client_read_fails : http.Client :=
  {| http.Post := fun _ _ _ =>
       (Some {| http.Body := ([], Some "unexpected EOF") |}, None) |}.

(** An environment in which the print query records an index outside the
    advertisement set. *)
Definition env_bad_index : device.Env :=
  {| device.NewUsbTransport := fun _ => (Some DeviceInputs.transport0, None);
     device.LoadDevState := fun _ _ => DeviceInputs.state0;
     device.HTTPListen := fun s => (Some DeviceInputs.listener0, None, s);
     device.IppService := fun services _ _ _ =>
       (Some {| device.IppPrinterInfo.DNSSdName := "Acme X1";
                device.IppPrinterInfo.IppSvcIndex := 1 |},
        None, services ++ [DeviceInputs.ipp_svc]);
     device.EsclService := fun services _ _ _ _ => (Some "eSCL: no response", services);
     device.Publish := fun _ => None;
     device.TransportShutdown := fun _ _ => None;
     device.Conf_DNSSdEnable := true |}.

(** An environment in which the transport reports an error when it is
    asked to shut down. *)
Definition env_shutdown_fails : device.Env :=
  {| device.NewUsbTransport := fun _ => (Some DeviceInputs.transport0, None);
     device.LoadDevState := fun _ _ => DeviceInputs.state0;
     device.HTTPListen := fun s => (Some DeviceInputs.listener0, None, s);
     device.IppService := fun services _ _ _ => DeviceInputs.ipp_ok "Acme X1" services;
     device.EsclService := fun services _ _ _ _ =>
       (None, services ++ [DeviceInputs.escl_svc]);
     device.Publish := fun _ => None;
     device.TransportShutdown := fun _ _ => Some "context deadline exceeded";
     device.Conf_DNSSdEnable := true |}.

(** The advertisement set and the Device that a construction builds when
    both queries succeed under the stored name and DNS-SD is enabled. *)
Definition services_built : device.DNSSdServices :=
  [ DeviceSpec.with_txt DeviceInputs.ipp_svc "Scan" "T"; DeviceInputs.escl_svc;
    DeviceSpec.web_svc DeviceInputs.state0 ].
Definition publisher_built : device.DNSSdPublisher :=
  {| device.pub_log := Some 1%nat; device.pub_state := Some DeviceInputs.state0;
     device.pub_services := services_built |}.
Definition dev_built : device.Device.t :=
  {| device.Device.UsbAddr := (1, 4);
     device.Device.State := Some DeviceInputs.state0;
     device.Device.HTTPClient :=
       Some {| device.Transport := Some DeviceInputs.transport0 |};
     device.Device.HTTPProxy := Some DeviceInputs.proxy0;
     device.Device.UsbTransport := Some DeviceInputs.transport0;
     device.Device.DNSSdPublisher := Some publisher_built;
     device.Device.Log := Some 1%nat |}.

(** The publisher and the Device that a construction builds when the print
    query succeeds under the stored name and the scan query fails: the
    print descriptor has the flag Scan = "F". *)
Definition publisher_scan_failed : device.DNSSdPublisher :=
  {| device.pub_log := Some 1%nat; device.pub_state := Some DeviceInputs.state0;
     device.pub_services :=
       [ {| device.Type_ := "_ipp._tcp"; device.Port := 60000;
            device.Txt := [ {| device.Key := "air"; device.Value := "none" |};
                            {| device.Key := "rp"; device.Value := "ipp/print" |};
                            {| device.Key := "Scan"; device.Value := "F" |} ] |};
         {| device.Type_ := "_http._tcp"; device.Port := 60000; device.Txt := [] |} ] |}.
Definition dev_scan_failed : device.Device.t :=
  {| device.Device.UsbAddr := (1, 4);
     device.Device.State := Some DeviceInputs.state0;
     device.Device.HTTPClient :=
       Some {| device.Transport := Some DeviceInputs.transport0 |};
     device.Device.HTTPProxy := Some DeviceInputs.proxy0;
     device.Device.UsbTransport := Some DeviceInputs.transport0;
     device.Device.DNSSdPublisher := Some publisher_scan_failed;
     device.Device.Log := Some 1%nat |}.

End MoreInputs.

(* ===================================================================== *)
(** ** Theorems                                                           *)
(* ===================================================================== *)

(** *** The monad of panics *)

Lemma bind_Ret {A B} (a : A) (f : A -> Res B) : (Ret a ≫= f) = f a.
Proof. reflexivity. Qed.

Lemma bind_Ret_inv {A B} (m : Res A) (f : A -> Res B) (b : B) :
  m ≫= f = Ret b -> exists a, m = Ret a /\ f a = Ret b.
Proof. destruct m as [a|p]; [eauto|discriminate]. Qed.

(** *** The attribute store: first occurrence wins *)

Lemma fold_left_snoc {A B} (f : B -> A -> B) (l : list A) (x : A) (b : B) :
  fold_left f (l ++ [x]) b = f (fold_left f l b) x.
Proof. rewrite fold_left_app. reflexivity. Qed.

Lemma newIppDecoder_cons (a : goipp.Attribute) (ops raw : list goipp.Attribute) :
  ipp.newIppDecoder {| goipp.Operation := ops; goipp.Printer := a :: raw |} =
  <[goipp.Name a := goipp.Values_of a]>
    (ipp.newIppDecoder {| goipp.Operation := ops; goipp.Printer := raw |}).
Proof. unfold ipp.newIppDecoder. simpl. rewrite fold_left_snoc. reflexivity. Qed.

(** C4. For every raw attribute sequence and every name, the store built
    by [newIppDecoder] maps the name to the values of its first occurrence
    in the sequence (and holds no other name); from the raw sequence
    [(A,"1"), (A,"2")] the lookup of A yields "1". *)
Theorem newIppDecoder_first_occurrence_wins :
  (forall (msg : goipp.Message) (name : string),
     ipp.newIppDecoder msg !! name =
     goipp.Values_of <$> Spec.first_occurrence name (goipp.Printer msg)) /\
  ipp.newIppDecoder Inputs.raw_duplicate !! "A" = Some [(68, goipp.String "1")].
Proof.
  split; [|reflexivity].
  intros [ops raw] name. simpl.
  induction raw as [|a raw IH].
  - unfold ipp.newIppDecoder. simpl. apply lookup_empty.
  - rewrite newIppDecoder_cons. unfold Spec.first_occurrence. simpl.
    destruct (String.eqb_spec (goipp.Name a) name) as [->|Hne].
    + rewrite lookup_insert_eq. reflexivity.
    + rewrite lookup_insert_ne by exact Hne. exact IH.
Qed.

(** *** The device identifier *)

Lemma genSplit_0 (sep : ascii) (s : string) : strings.genSplit sep 0 s = (s, []).
Proof. destruct s; reflexivity. Qed.

Lemma Join_cons_string (c : ascii) (h : string) (t : list string) (sep : string) :
  strings.Join (String c h :: t) sep = String c (strings.Join (h :: t) sep).
Proof. destruct t; reflexivity. Qed.

(** With as many cuts allowed as the string is long, the pieces are free of
    the separator and joining them gives the string back. *)
Lemma genSplit_all (sep : ascii) (s : string) :
  forall n : nat, (String.length s <= n)%nat ->
    let '(h, t) := strings.genSplit sep n s in
    strings.Join (h :: t) (String sep "") = s /\
    Forall (fun seg => Spec.contains sep seg = false) (h :: t).
Proof.
  induction s as [|c s IH]; intros n Hn.
  - simpl. split; [reflexivity|]. repeat constructor.
  - destruct n as [|n]; [simpl in Hn; lia|].
    simpl in Hn. simpl strings.genSplit.
    destruct (Ascii.eqb_spec c sep) as [->|Hne].
    + specialize (IH n ltac:(lia)).
      destruct (strings.genSplit sep n s) as [h t].
      destruct IH as [IHj IHf]. split.
      * change (strings.Join ("" :: h :: t) (String sep ""))
          with ("" +:+ String sep "" +:+ strings.Join (h :: t) (String sep "")).
        rewrite IHj. reflexivity.
      * constructor; [reflexivity|exact IHf].
    + specialize (IH (S n) ltac:(lia)).
      destruct (strings.genSplit sep (S n) s) as [h t].
      destruct IH as [IHj IHf]. split.
      * rewrite Join_cons_string, IHj. reflexivity.
      * inversion IHf as [|? ? Hh Ht]; subst.
        constructor; [|exact Ht].
        simpl. rewrite Hh.
        destruct (Ascii.eqb_spec c sep); [contradiction|reflexivity].
Qed.

(** One cut: either the separator does not occur and the string is left
    whole, or the string is cut in two at its first occurrence. *)
Lemma genSplit_1 (sep : ascii) (s : string) :
  (strings.genSplit sep 1 s = (s, []) /\ Spec.contains sep s = false) \/
  (exists k v, strings.genSplit sep 1 s = (k, [v]) /\
               s = k +:+ String sep v /\ Spec.contains sep k = false).
Proof.
  induction s as [|c s IH].
  - left. split; reflexivity.
  - simpl strings.genSplit.
    destruct (Ascii.eqb_spec c sep) as [->|Hne].
    + right. exists "", s. rewrite genSplit_0. repeat split.
    + destruct IH as [[E Hc]|(k & v & E & Hs & Hc)]; rewrite E.
      * left. split; [reflexivity|]. simpl. rewrite Hc.
        destruct (Ascii.eqb_spec c sep); [contradiction|reflexivity].
      * right. exists (String c k), v. split; [reflexivity|].
        split; [rewrite Hs; reflexivity|].
        simpl. rewrite Hc.
        destruct (Ascii.eqb_spec c sep); [contradiction|reflexivity].
Qed.

Lemma contains_app (c : ascii) (a b : string) :
  Spec.contains c (a +:+ b) = Spec.contains c a || Spec.contains c b.
Proof.
  induction a as [|x a IH]; simpl; [reflexivity|].
  rewrite IH, orb_assoc. reflexivity.
Qed.

(** A string is cut at its first separator in one way only. *)
Lemma first_cut_unique (sep : ascii) (k1 v1 k2 v2 : string) :
  Spec.contains sep k1 = false -> Spec.contains sep k2 = false ->
  k1 +:+ String sep v1 = k2 +:+ String sep v2 -> k1 = k2 /\ v1 = v2.
Proof.
  revert k2. induction k1 as [|a k1 IH]; intros [|b k2] H1 H2 E; simpl in *.
  - injection E as E. auto.
  - injection E as E1 E2. subst b.
    rewrite Ascii.eqb_refl in H2. discriminate.
  - injection E as E1 E2. subst a.
    rewrite Ascii.eqb_refl in H1. discriminate.
  - injection E as E1 E2. subst b.
    apply orb_false_iff in H1 as [_ H1]. apply orb_false_iff in H2 as [_ H2].
    destruct (IH k2 H1 H2 E2) as [-> ->]. auto.
Qed.

(** What [strings.SplitN(id, ":", 2)] returns. *)
Lemma SplitN_colon_2 (id : string) :
  (strings.SplitN id ":" 2 = [id] /\ Spec.contains ":" id = false) \/
  (exists k v, strings.SplitN id ":" 2 = [k; v] /\
               id = Spec.key_value k v /\ Spec.contains ":" k = false).
Proof.
  unfold strings.SplitN.
  change (2 =? 0) with false. change (2 <? 0) with false.
  change (Z.to_nat (2 - 1)) with 1%nat. cbv iota.
  destruct (genSplit_1 ":" id) as [[E Hc]|(k & v & E & Hs & Hc)];
    rewrite E; [left|right]; eauto.
Qed.

Lemma devid_loop_last_wins (segs : list string) (k v : string) :
  ipp.Decode_devid_loop segs ∅ !! k = Some v <->
  exists l1 l2, segs = l1 ++ Spec.key_value k v :: l2 /\
                Spec.contains ":" k = false /\
                Forall (fun seg => forall v', seg <> Spec.key_value k v') l2.
Proof.
  revert v. induction segs as [|x segs IH] using rev_ind; intros v.
  - unfold ipp.Decode_devid_loop. simpl. rewrite lookup_empty. split; [discriminate|].
    intros (l1 & l2 & E & _). destruct l1; discriminate.
  - unfold ipp.Decode_devid_loop in *. rewrite fold_left_snoc. cbv zeta.
    destruct (SplitN_colon_2 x) as [[E Hc]|(k0 & v0 & E & Hx & Hc)]; rewrite E.
    + (* x holds no colon: it is discarded *)
      assert (Hno : forall k' v', Spec.contains ":" k' = false -> x <> Spec.key_value k' v').
      { intros k' v' Hk' ->. unfold Spec.key_value in Hc.
        rewrite contains_app in Hc. simpl in Hc.
        rewrite orb_true_r in Hc. discriminate. }
      rewrite IH. split.
      * intros (l1 & l2 & -> & Hk & Hl2). exists l1, (l2 ++ [x]).
        rewrite <- app_assoc. split; [reflexivity|]. split; [exact Hk|].
        apply Forall_app. split; [exact Hl2|]. constructor; [|constructor].
        intros v'. apply Hno. exact Hk.
      * intros (l1 & l2 & Eq & Hk & Hl2).
        destruct l2 as [|y l2 _] using rev_ind.
        -- apply app_inj_tail in Eq as [_ Eq]. exfalso. exact (Hno k v Hk Eq).
        -- rewrite app_comm_cons, app_assoc in Eq.
           apply app_inj_tail in Eq as [-> ->].
           exists l1, l2. split; [reflexivity|]. split; [exact Hk|].
           apply Forall_app in Hl2 as [Hl2 _]. exact Hl2.
    + (* x is the segment k0:v0 *)
      destruct (decide (k0 = k)) as [->|Hne].
      * rewrite lookup_insert_eq. split.
        -- intros [= <-]. exists segs, []. subst x. auto.
        -- intros (l1 & l2 & Eq & Hk & Hl2).
           destruct l2 as [|y l2 _] using rev_ind.
           ++ apply app_inj_tail in Eq as [_ Eq]. subst x.
              unfold Spec.key_value in Eq.
              apply first_cut_unique in Eq as [_ ->]; auto.
           ++ rewrite app_comm_cons, app_assoc in Eq.
              apply app_inj_tail in Eq as [_ ->].
              apply Forall_app in Hl2 as [_ Hl2].
              inversion Hl2 as [|? ? Hy _]; subst. exfalso. exact (Hy v0 eq_refl).
      * rewrite lookup_insert_ne by exact Hne. rewrite IH. split.
        -- intros (l1 & l2 & -> & Hk & Hl2). exists l1, (l2 ++ [x]).
           rewrite <- app_assoc. split; [reflexivity|]. split; [exact Hk|].
           apply Forall_app. split; [exact Hl2|]. constructor; [|constructor].
           intros v' Ev. subst x. unfold Spec.key_value in Ev.
           apply first_cut_unique in Ev as [Ek _]; auto.
        -- intros (l1 & l2 & Eq & Hk & Hl2).
           destruct l2 as [|y l2 _] using rev_ind.
           ++ apply app_inj_tail in Eq as [_ Eq]. subst x.
              unfold Spec.key_value in Eq.
              apply first_cut_unique in Eq as [Ek _]; auto. contradiction.
           ++ rewrite app_comm_cons, app_assoc in Eq.
              apply app_inj_tail in Eq as [-> ->].
              exists l1, l2. split; [reflexivity|]. split; [exact Hk|].
              apply Forall_app in Hl2 as [Hl2 _]. exact Hl2.
Qed.

(** C5. For every device-identifier string: its segments are the pieces
    between the semicolons (they hold no semicolon and joined by
    semicolons give the string back); the parsed map sends a key k to v
    exactly when some segment is k:v, cut at its first colon, and no later
    segment has the key k (so a segment without a colon adds nothing and
    of two segments with one key the last wins); the two identifiers of
    the specification parse to {MFG:Acme, MDL:Foo, CMD:PCL} and to
    {MFG:B}. *)
Theorem Decode_devid_segments_last_wins :
  (forall id : string,
     strings.Join (strings.Split id ";") ";" = id /\
     Forall (fun seg => Spec.contains ";" seg = false) (strings.Split id ";") /\
     forall k v : string,
       ipp.Decode_devid id !! k = Some v <->
       exists l1 l2,
         strings.Split id ";" = l1 ++ Spec.key_value k v :: l2 /\
         Spec.contains ":" k = false /\
         Forall (fun seg => forall v', seg <> Spec.key_value k v') l2) /\
  ipp.Decode_devid "MFG:Acme;MDL:Foo;GARBAGE;CMD:PCL" =
    {[ "MFG" := "Acme"; "MDL" := "Foo"; "CMD" := "PCL" ]} /\
  ipp.Decode_devid "MFG:A;MFG:B" = {[ "MFG" := "B" ]}.
Proof.
  split; [|split; vm_compute; reflexivity].
  intros id.
  pose proof (genSplit_all ";" id (String.length id) (le_n _)) as H.
  unfold strings.Split.
  destruct (strings.genSplit ";" (String.length id) id) as [h t] eqn:E.
  destruct H as [Hj Hf]. split; [exact Hj|]. split; [exact Hf|].
  intros k v. unfold ipp.Decode_devid, strings.Split. rewrite E.
  apply (devid_loop_last_wins (h :: t) k v).
Qed.

(** *** The typed lookup *)

Lemma getAttr_collect (v : goipp.Values) (x : goipp.Tag * goipp.Value)
  (s : slice goipp.Value) :
  fold_left (fun vals vi => Go.append vals vi.2) (x :: v) s =
  Some (Go.elems s ++ map snd (x :: v)).
Proof.
  revert x s. induction v as [|y v IH]; intros x s.
  - reflexivity.
  - change (fold_left _ (x :: y :: v) s)
      with (fold_left (fun vals vi => Go.append vals vi.2) (y :: v) (Go.append s x.2)).
    rewrite IH. simpl. rewrite <- app_assoc. reflexivity.
Qed.

(** One step of [getAttr], by cases on what the map holds under the name. *)
Lemma getAttr_cons (attrs : gmap string goipp.Values) (t : goipp.Type_)
  (name : string) (names : list string) :
  ipp.getAttr attrs t (name :: names) =
  match attrs !! name with
  | None => ipp.getAttr attrs t names
  | Some [] => Panic IndexOutOfRange
  | Some ((tag, v0) :: rest) =>
      if decide (goipp.TypeOf v0 = t)
      then Ret (Some (v0 :: map snd rest))
      else ipp.getAttr attrs t names
  end.
Proof.
  simpl. destruct (attrs !! name) as [[|[tag v0] rest]|]; try reflexivity.
  cbn. destruct (decide (goipp.TypeOf v0 = t)); [|reflexivity].
  f_equal. apply (getAttr_collect rest (tag, v0) None).
Qed.

(** *** Paper size *)

Lemma getPaperMax_dims_cons (a : goipp.Attribute) (entry : list goipp.Attribute) :
  ipp.getPaperMax_dims (a :: entry) =
  let '(x_dim_attr, y_dim_attr) := ipp.getPaperMax_dims entry in
  if String.eqb (goipp.Name a) "x-dimension" then (a, y_dim_attr)
  else if String.eqb (goipp.Name a) "y-dimension" then (x_dim_attr, a)
  else (x_dim_attr, y_dim_attr).
Proof.
  unfold ipp.getPaperMax_dims. simpl rev. rewrite fold_left_snoc.
  destruct (fold_left _ (rev entry) _) as [x_dim_attr y_dim_attr]. reflexivity.
Qed.

(** The reverse scan of an entry leaves, for each of the two names, the
    first member that has it. *)
Lemma getPaperMax_dims_first (entry : list goipp.Attribute) :
  ipp.getPaperMax_dims entry =
  (default goipp.zeroAttribute (Spec.first_occurrence "x-dimension" entry),
   default goipp.zeroAttribute (Spec.first_occurrence "y-dimension" entry)).
Proof.
  induction entry as [|a entry IH]; [reflexivity|].
  rewrite getPaperMax_dims_cons, IH. unfold Spec.first_occurrence. simpl find.
  destruct (String.eqb_spec (goipp.Name a) "x-dimension") as [Ex|Nx].
  - rewrite Ex. reflexivity.
  - destruct (String.eqb (goipp.Name a) "y-dimension"); reflexivity.
Qed.

(** Arithmetic with [Z.max], case by case. *)
Ltac max_cases :=
  repeat match goal with
         | |- context [Z.max ?a ?b] =>
             let H := fresh in
             destruct (Z.max_spec a b) as [[? H]|[? H]]; rewrite H; clear H
         end;
  try lia.

Lemma getPaperMax_update_dimension (name : string) (entry : list goipp.Attribute)
  (m : Z) :
  ipp.getPaperMax_update
    (default goipp.zeroAttribute (Spec.first_occurrence name entry)) m =
  match Spec.dimension name entry with
  | Some d => Z.max m d
  | None => m
  end.
Proof.
  unfold Spec.dimension, ipp.getPaperMax_update.
  destruct (Spec.first_occurrence name entry) as [a|]; simpl; [|reflexivity].
  destruct (goipp.Values_of a) as [|[tag v] vs]; [reflexivity|].
  destruct v; try reflexivity.
  - destruct (Z.gtb_spec n m); max_cases.
  - destruct (Z.gtb_spec Upper m); max_cases.
Qed.

Lemma max_dimension_nonneg (name : string) (entries : list (list goipp.Attribute)) :
  0 <= Spec.max_dimension name entries.
Proof.
  unfold Spec.max_dimension.
  induction (omap (Spec.dimension name) entries) as [|d l IH]; cbn [foldr].
  - reflexivity.
  - etransitivity; [exact IH|apply Z.le_max_r].
Qed.

Lemma max_dimension_cons (name : string) (entry : list goipp.Attribute)
  (entries : list (list goipp.Attribute)) (m : Z) :
  Z.max (match Spec.dimension name entry with
         | Some d => Z.max m d
         | None => m
         end) (Spec.max_dimension name entries) =
  Z.max m (Spec.max_dimension name (entry :: entries)).
Proof.
  unfold Spec.max_dimension. simpl omap.
  destruct (Spec.dimension name entry) as [d|]; cbn [foldr]; [|reflexivity].
  rewrite <- Z.max_assoc. reflexivity.
Qed.

Lemma foldM_cons {A S} (body : S -> A -> Res S) (s : S) (x : A) (l : list A) :
  foldM body s (x :: l) = Go.bind (body s x) (fun s' => foldM body s' l).
Proof. reflexivity. Qed.

Lemma getPaperMax_entry_collection (x y : Z) (c : list goipp.Attribute) :
  ipp.getPaperMax_entry (x, y) (goipp.Collection c) =
  Ret (match Spec.dimension "x-dimension" c with Some d => Z.max x d | None => x end,
       match Spec.dimension "y-dimension" c with Some d => Z.max y d | None => y end).
Proof.
  unfold ipp.getPaperMax_entry. cbn [goipp.as_Collection mbind Res_bind Go.bind].
  rewrite getPaperMax_dims_first, !getPaperMax_update_dimension. reflexivity.
Qed.

(** The loop over the values: it panics at the first value that is not a
    collection, and else it returns the running maxima. *)
Lemma getPaperMax_loop (vals : list goipp.Value) :
  forall x0 y0 : Z, 0 <= x0 -> 0 <= y0 ->
    foldM ipp.getPaperMax_entry (x0, y0) vals =
    if forallb (fun v => bool_decide (is_Some (Spec.collection_of v))) vals
    then Ret (Z.max x0 (Spec.max_dimension "x-dimension" (omap Spec.collection_of vals)),
              Z.max y0 (Spec.max_dimension "y-dimension" (omap Spec.collection_of vals)))
    else Panic TypeAssertion.
Proof.
  induction vals as [|v vals IH]; intros x0 y0 Hx Hy.
  - unfold Spec.max_dimension. cbn -[Z.max].
    rewrite !Z.max_l by lia. reflexivity.
  - destruct v as [| | | | | | | | |c]; try reflexivity.
    rewrite foldM_cons, getPaperMax_entry_collection. cbn [Go.bind].
    rewrite IH.
    + cbn [forallb]. 
      replace (bool_decide (is_Some (Spec.collection_of (goipp.Collection c))))
        with true by (symmetry; apply bool_decide_eq_true; simpl; eauto).
      cbn [andb].
      destruct (forallb _ vals); [|reflexivity].
      change (omap Spec.collection_of (goipp.Collection c :: vals))
        with (c :: omap Spec.collection_of vals).
      rewrite !max_dimension_cons. reflexivity.
    + destruct (Spec.dimension "x-dimension" c); [|exact Hx].
      etransitivity; [exact Hx|apply Z.le_max_l].
    + destruct (Spec.dimension "y-dimension" c); [|exact Hy].
      etransitivity; [exact Hy|apply Z.le_max_l].
Qed.

Lemma getPaperMax_classify_row (x y : Z) :
  ipp.getPaperMax_classify x y = Spec.PaperMax_row x y.
Proof.
  unfold ipp.getPaperMax_classify, Spec.PaperMax_row, Spec.PaperMax_rows.
  unfold ipp.isoC_a2_x, ipp.isoC_a2_y, ipp.tabloid_a3_x, ipp.tabloid_a3_y,
    ipp.legal_a4_x, ipp.legal_a4_y.
  simpl find. rewrite !Z.gtb_ltb, !Z.geb_leb.
  repeat match goal with
         | |- context [if ?b then _ else _] => destruct b; try reflexivity
         end.
Qed.

(** The values of a homogeneous attribute that starts with a collection
    are all collections. *)
Lemma homogeneous_collections (tag : goipp.Tag) (c : list goipp.Attribute)
  (rest : goipp.Values) :
  Spec.homogeneous ((tag, goipp.Collection c) :: rest) = true ->
  forallb (fun v => bool_decide (is_Some (Spec.collection_of v))) (map snd rest) = true.
Proof.
  simpl. intros H. apply forallb_forall. intros v Hv.
  apply in_map_iff in Hv as ([tag' v'] & <- & Hin).
  rewrite forallb_forall in H. specialize (H _ Hin).
  apply bool_decide_eq_true in H. simpl in H.
  destruct v'; try discriminate. apply bool_decide_eq_true. simpl. eauto.
Qed.

Lemma omap_collection_of_snd (rest : goipp.Values) :
  omap Spec.collection_of (map snd rest) =
  omap (fun tv : goipp.Tag * goipp.Value => Spec.collection_of tv.2) rest.
Proof.
  induction rest as [|[t v] rest IH]; [reflexivity|].
  change (omap Spec.collection_of (map snd ((t, v) :: rest)))
    with (match Spec.collection_of v with
          | Some c => c :: omap Spec.collection_of (map snd rest)
          | None => omap Spec.collection_of (map snd rest)
          end).
  rewrite IH. reflexivity.
Qed.

(** [getPaperMax], by cases on the attribute. *)
Lemma getPaperMax_cases (attrs : gmap string goipp.Values) :
  ipp.getPaperMax attrs =
  match attrs !! "media-size-supported" with
  | None => Ret ""
  | Some [] => Panic IndexOutOfRange
  | Some ((_, goipp.Collection c) :: rest) =>
      if forallb (fun v => bool_decide (is_Some (Spec.collection_of v))) (map snd rest)
      then Ret (Spec.PaperMax attrs)
      else Panic TypeAssertion
  | Some _ => Ret ""
  end.
Proof.
  unfold ipp.getPaperMax. rewrite getAttr_cons. unfold Spec.PaperMax, Spec.media_sizes.
  destruct (attrs !! "media-size-supported") as [[|[tag v0] rest]|]; try reflexivity.
  destruct v0 as [| | | | | | | | |c]; try reflexivity.
  destruct (decide _) as [_|Hn]; [|exfalso; apply Hn; reflexivity].
  rewrite bind_Ret, getPaperMax_loop by reflexivity.
  cbn [forallb].
  replace (bool_decide (is_Some (Spec.collection_of (goipp.Collection c))))
    with true by (symmetry; apply bool_decide_eq_true; simpl; eauto).
  cbn [andb].
  destruct (forallb _ (map snd rest)); [|reflexivity].
  rewrite bind_Ret.
  change (omap Spec.collection_of (goipp.Collection c :: map snd rest))
    with (c :: omap Spec.collection_of (map snd rest)).
  rewrite omap_collection_of_snd.
  rewrite !Z.max_r by apply max_dimension_nonneg.
  rewrite getPaperMax_classify_row.
  destruct ((_ =? 0) || (_ =? 0)); reflexivity.
Qed.

Lemma getPaperMax_typed (attrs : gmap string goipp.Values) :
  Spec.store_homogeneous attrs -> ipp.getPaperMax attrs = Ret (Spec.PaperMax attrs).
Proof.
  intros Hh. rewrite getPaperMax_cases. unfold Spec.PaperMax, Spec.media_sizes.
  destruct (attrs !! "media-size-supported") as [[|[tag v0] rest]|] eqn:E;
    try reflexivity.
  - specialize (Hh _ _ E). discriminate.
  - destruct v0 as [| | | | | | | | |c]; try reflexivity.
    rewrite (homogeneous_collections tag c rest (Hh _ _ E)). reflexivity.
Qed.

(** The paper classifications that the specification lists. *)
Lemma getPaperMax_examples :
  ipp.getPaperMax (Inputs.store_media 21600 35400) = Ret "legal-A4" /\
  ipp.getPaperMax (Inputs.store_media 21599 35400) = Ret "<legal-A4" /\
  ipp.getPaperMax (Inputs.store_media 43201 55901) = Ret ">isoC-A2" /\
  ipp.getPaperMax (Inputs.store_media 0 0) = Ret "" /\
  ipp.getPaperMax ∅ = Ret "".
Proof. repeat split; vm_compute; reflexivity. Qed.


(** *** The typed lookup on a store with homogeneously typed values *)

(** Proves [Spec.store_homogeneous] of a store written out as a literal. *)
Ltac store_typed :=
  unfold Spec.store_homogeneous; cbn [list_to_map foldr];
  repeat first
    [ apply map_Forall_empty
    | apply map_Forall_singleton; reflexivity
    | apply map_Forall_insert_2; [reflexivity|] ].

Lemma typed_values_Some (attrs : gmap string goipp.Values) (t : goipp.Type_)
  (names : list string) (vs : goipp.Values) :
  Spec.typed_values attrs t names = Some vs ->
  exists n tag v0 rest,
    In n names /\ attrs !! n = Some vs /\ vs = (tag, v0) :: rest /\ goipp.TypeOf v0 = t.
Proof.
  unfold Spec.typed_values, Spec.first_typed.
  destruct (find _ names) as [n|] eqn:F; [|discriminate].
  apply find_some in F as [Hin Hp]. cbv beta in Hp. simpl. intros E. rewrite E in Hp.
  destruct vs as [|[tag v0] rest]; [discriminate|].
  apply bool_decide_eq_true in Hp. exists n, tag, v0, rest. auto.
Qed.

(** [getAttr] admits an attribute only when its first value has the
    requested type, whatever the store. *)
Lemma getAttr_admits (attrs : gmap string goipp.Values) (t : goipp.Type_)
  (names : list string) (vals : list goipp.Value) :
  ipp.getAttr attrs t names = Ret (Some vals) ->
  exists v0 rest, vals = v0 :: rest /\ goipp.TypeOf v0 = t.
Proof.
  induction names as [|name names IH]; [discriminate|].
  rewrite getAttr_cons.
  destruct (attrs !! name) as [[|[tag v0] rest]|]; [discriminate| |exact IH].
  destruct (decide (goipp.TypeOf v0 = t)) as [Ht|_]; [|exact IH].
  intros [= <-]. eauto.
Qed.

Lemma getAttr_typed (attrs : gmap string goipp.Values) (t : goipp.Type_)
  (names : list string) :
  Spec.store_homogeneous attrs ->
  ipp.getAttr attrs t names = Ret (map snd <$> Spec.typed_values attrs t names).
Proof.
  intros Hh. induction names as [|name names IH]; [reflexivity|].
  rewrite getAttr_cons, IH. unfold Spec.typed_values, Spec.first_typed.
  cbn [find].
  destruct (attrs !! name) as [[|[tag v0] rest]|] eqn:E.
  - specialize (Hh _ _ E). discriminate.
  - destruct (decide (goipp.TypeOf v0 = t)) as [Ht|Hn].
    + rewrite (bool_decide_eq_true_2 _ Ht). simpl. rewrite E. reflexivity.
    + rewrite (bool_decide_eq_false_2 _ Hn). reflexivity.
  - reflexivity.
Qed.

(** The values of a homogeneous attribute that starts with a string are
    all strings. *)
Lemma homogeneous_strings (vs : goipp.Values) (tag : goipp.Tag) (v0 : goipp.Value)
  (rest : goipp.Values) :
  Spec.homogeneous vs = true -> vs = (tag, v0) :: rest ->
  goipp.TypeOf v0 = goipp.TypeString ->
  map snd vs = map goipp.String (Spec.strings_of vs) /\
  exists s ss, Spec.strings_of vs = s :: ss.
Proof.
  intros Hh -> Ht. destruct v0 as [| | |s| | | | | |]; try discriminate.
  simpl in Hh. split.
  - unfold Spec.strings_of. cbn [map omap list_omap snd]. f_equal.
    induction rest as [|[tag' v'] rest IH]; [reflexivity|].
    cbn [forallb] in Hh. apply andb_true_iff in Hh as [Hv Hrest].
    apply bool_decide_eq_true in Hv. simpl in Hv.
    destruct v'; try discriminate.
    cbn [map omap list_omap snd]. f_equal. apply IH. exact Hrest.
  - unfold Spec.strings_of. cbn [omap list_omap snd]. eauto.
Qed.

Lemma store_step (done rest : list string) (s : string) :
  Go.store (done ++ "" :: rest) (length done) s = Ret (done ++ s :: rest).
Proof.
  unfold Go.store. rewrite length_app. cbn [length].
  destruct (decide _) as [_|Hn]; [|lia].
  f_equal. rewrite insert_app_r_alt by lia.
  rewrite Nat.sub_diag. reflexivity.
Qed.

(** The loop of [getStrings] fills the made slice with the strings. *)
Lemma getStrings_fill_loop (ss : list string) :
  forall done : list string,
    foldM ipp.getStrings_fill (Some (done ++ repeat "" (length ss)))
          (imap (fun i v => ((length done + i)%nat, v)) (map goipp.String ss)) =
    Ret (Some (done ++ ss)).
Proof.
  induction ss as [|s ss IH]; intros done.
  - simpl. rewrite app_nil_r. reflexivity.
  - cbn [map imap length repeat]. rewrite foldM_cons.
    unfold ipp.getStrings_fill at 1.
    cbn [goipp.as_String Go.elems]. rewrite bind_Ret.
    rewrite Nat.add_0_r, store_step, bind_Ret. cbn [Go.bind].
    specialize (IH (done ++ [s])). rewrite <- !app_assoc in IH. cbn [app] in IH.
    rewrite <- IH. f_equal. apply imap_ext. intros i v _.
    unfold compose. rewrite length_app. cbn [length]. f_equal. lia.
Qed.

Lemma getStrings_typed (attrs : gmap string goipp.Values) (names : list string) :
  Spec.store_homogeneous attrs ->
  ipp.getStrings attrs names =
  Ret (Some (match Spec.typed_values attrs goipp.TypeString names with
             | Some vs => Spec.strings_of vs
             | None => []
             end)).
Proof.
  intros Hh. unfold ipp.getStrings. rewrite getAttr_typed by exact Hh.
  rewrite bind_Ret.
  destruct (Spec.typed_values attrs goipp.TypeString names) as [vs|] eqn:E;
    [|reflexivity].
  apply typed_values_Some in E as (n & tag & v0 & rest & _ & En & Evs & Ht).
  destruct (homogeneous_strings vs tag v0 rest (Hh _ _ En) Evs Ht) as [Hm _].
  cbn [fmap option_fmap option_map Go.elems Go.len]. rewrite Hm.
  unfold Go.make, Go.len. cbn [Go.elems]. rewrite length_map.
  apply (getStrings_fill_loop (Spec.strings_of vs) []).
Qed.

(** [strSingle] on a homogeneously typed store: the string, or the panic
    of [strs[0]] on the empty slice that [getStrings] made. *)
Lemma strSingle_typed (attrs : gmap string goipp.Values) (names : list string) :
  Spec.store_homogeneous attrs ->
  ipp.strSingle attrs names =
  match Spec.single_string attrs names with
  | Some s => Ret s
  | None => Panic IndexOutOfRange
  end.
Proof.
  intros Hh. unfold ipp.strSingle. rewrite getStrings_typed by exact Hh.
  rewrite bind_Ret. unfold Spec.single_string.
  destruct (Spec.typed_values attrs goipp.TypeString names) as [vs|] eqn:E;
    [|reflexivity].
  apply typed_values_Some in E as (n & tag & v0 & rest & _ & En & Evs & Ht).
  destruct (homogeneous_strings vs tag v0 rest (Hh _ _ En) Evs Ht)
    as [_ (s & ss & Es)].
  cbn [mbind option_bind]. rewrite Es. reflexivity.
Qed.

Lemma strJoined_typed (attrs : gmap string goipp.Values) (names : list string) :
  Spec.store_homogeneous attrs ->
  exists s, ipp.strJoined attrs names = Ret s.
Proof.
  intros Hh. unfold ipp.strJoined. rewrite getStrings_typed by exact Hh.
  rewrite bind_Ret. eauto.
Qed.

Lemma strBrackets_typed (attrs : gmap string goipp.Values) (names : list string) :
  Spec.store_homogeneous attrs ->
  ipp.strBrackets attrs names =
  match Spec.single_string attrs names with
  | Some s => Ret (if String.eqb s "" then s else "(" +:+ s +:+ ")")
  | None => Panic IndexOutOfRange
  end.
Proof.
  intros Hh. unfold ipp.strBrackets. rewrite strSingle_typed by exact Hh.
  destruct (Spec.single_string attrs names); reflexivity.
Qed.

Lemma getBool_typed (attrs : gmap string goipp.Values) (names : list string) :
  Spec.store_homogeneous attrs ->
  exists s, ipp.getBool attrs names = Ret s.
Proof.
  intros Hh. unfold ipp.getBool. rewrite getAttr_typed by exact Hh.
  rewrite bind_Ret.
  destruct (Spec.typed_values attrs goipp.TypeBoolean names) as [vs|] eqn:E;
    [|simpl; eauto].
  apply typed_values_Some in E as (n & tag & v0 & rest & _ & En & -> & Ht).
  destruct v0; try discriminate. simpl. eauto.
Qed.

Lemma getDuplex_loop (ss : list string) :
  forall flags : bool * bool,
    exists flags', foldM ipp.getDuplex_value flags (map goipp.String ss) = Ret flags'.
Proof.
  induction ss as [|s ss IH]; intros [one two]; [simpl; eauto|].
  cbn [map]. rewrite foldM_cons. unfold ipp.getDuplex_value at 1.
  cbn [goipp.as_String]. rewrite bind_Ret.
  destruct (strings.HasPrefix s "one"); [apply IH|].
  destruct (strings.HasPrefix s "two"); apply IH.
Qed.

Lemma getDuplex_typed (attrs : gmap string goipp.Values) :
  Spec.store_homogeneous attrs ->
  exists s, ipp.getDuplex attrs = Ret s.
Proof.
  intros Hh. unfold ipp.getDuplex. rewrite getAttr_typed by exact Hh.
  rewrite bind_Ret.
  destruct (Spec.typed_values attrs goipp.TypeString ["sides-supported"])
    as [vs|] eqn:E.
  - apply typed_values_Some in E as (n & tag & v0 & rest & _ & En & Evs & Ht).
    destruct (homogeneous_strings vs tag v0 rest (Hh _ _ En) Evs Ht) as [Hm _].
    cbn [fmap option_fmap option_map Go.elems]. rewrite Hm.
    destruct (getDuplex_loop (Spec.strings_of vs) (false, false)) as [[one two] ->].
    rewrite bind_Ret. eauto.
  - simpl. eauto.
Qed.

(** *** The typed lookup on any store *)

(** Whenever [getAttr] returns, it returns the values of the first name
    that is present with a first value of the requested type, or nil when
    there is none. *)
Lemma getAttr_Ret (attrs : gmap string goipp.Values) (t : goipp.Type_)
  (names : list string) (r : slice goipp.Value) :
  ipp.getAttr attrs t names = Ret r ->
  r = map snd <$> Spec.typed_values attrs t names.
Proof.
  induction names as [|name names IH]; [intros [= <-]; reflexivity|].
  rewrite getAttr_cons. unfold Spec.typed_values, Spec.first_typed in *.
  cbn [find].
  destruct (attrs !! name) as [[|[tag v0] rest]|] eqn:E;
    [discriminate| |exact IH].
  destruct (decide (goipp.TypeOf v0 = t)) as [Ht|Hn].
  - rewrite (bool_decide_eq_true_2 _ Ht). intros [= <-]. simpl. rewrite E. reflexivity.
  - rewrite (bool_decide_eq_false_2 _ Hn). exact IH.
Qed.

(** Whenever the loop of [getStrings] returns, every value was a string
    and the made slice holds the strings. *)
Lemma getStrings_fill_loop_Ret (vals : list goipp.Value) :
  forall (done : list string) (r : slice string),
    foldM ipp.getStrings_fill (Some (done ++ repeat "" (length vals)))
          (imap (fun i v => ((length done + i)%nat, v)) vals) = Ret r ->
    exists ss, vals = map goipp.String ss /\ r = Some (done ++ ss).
Proof.
  induction vals as [|v vals IH]; intros done r.
  - simpl. rewrite app_nil_r. intros [= <-]. exists []. rewrite app_nil_r. auto.
  - cbn [imap length repeat]. rewrite foldM_cons.
    unfold ipp.getStrings_fill at 1.
    destruct v as [| | |s| | | | | |]; try discriminate.
    cbn [goipp.as_String Go.elems]. rewrite bind_Ret.
    rewrite Nat.add_0_r, store_step, bind_Ret. cbn [Go.bind].
    intros H.
    destruct (IH (done ++ [s]) r) as (ss & -> & ->).
    + rewrite <- app_assoc. cbn [app]. rewrite <- H. f_equal.
      apply imap_ext. intros i v _.
      unfold compose. rewrite length_app. cbn [length]. f_equal. lia.
    + exists (s :: ss). rewrite <- app_assoc. auto.
Qed.

Lemma getStrings_Ret (attrs : gmap string goipp.Values) (names : list string)
  (strs : slice string) :
  ipp.getStrings attrs names = Ret strs ->
  exists ss, strs = Some ss /\
             map snd (default [] (Spec.typed_values attrs goipp.TypeString names)) =
             map goipp.String ss.
Proof.
  unfold ipp.getStrings. intros H.
  apply bind_Ret_inv in H as (vals & Hv & H). apply getAttr_Ret in Hv. subst vals.
  unfold Go.make, Go.len in H.
  assert (Hel : Go.elems (map snd <$> Spec.typed_values attrs goipp.TypeString names) =
                map snd (default [] (Spec.typed_values attrs goipp.TypeString names)))
    by (destruct (Spec.typed_values attrs goipp.TypeString names); reflexivity).
  rewrite Hel in H.
  destruct (getStrings_fill_loop_Ret _ [] strs H) as (ss & Hss & ->).
  exists ss. auto.
Qed.

(** Whenever [strSingle] returns, it returns the first value, a string,
    of the first name that is present with a string-typed first value. *)
Lemma strSingle_Ret (attrs : gmap string goipp.Values) (names : list string)
  (s : string) :
  ipp.strSingle attrs names = Ret s ->
  exists n tag rest,
    Spec.first_typed attrs goipp.TypeString names = Some n /\
    attrs !! n = Some ((tag, goipp.String s) :: rest).
Proof.
  unfold ipp.strSingle. intros H.
  apply bind_Ret_inv in H as (strs & Hs & H).
  apply getStrings_Ret in Hs as (ss & -> & Hm).
  destruct ss as [|s' ss]; [discriminate|]. injection H as ->.
  unfold Spec.typed_values in Hm.
  destruct (Spec.first_typed attrs goipp.TypeString names) as [n|]; [|discriminate].
  cbn [mbind option_bind] in Hm.
  destruct (attrs !! n) as [[|[tag v] rest]|] eqn:E; try discriminate.
  injection Hm as -> _. eauto.
Qed.

(** *** The record that Decode builds *)

Lemma Txt_AddNotEmpty_field (txt : list ipp.DnsSdTxtItem) (key value : string) :
  ipp.Txt_AddNotEmpty txt key value =
  (txt ++ Spec.field key value, negb (String.eqb value "")).
Proof.
  unfold ipp.Txt_AddNotEmpty, Spec.field, ipp.Txt_Add.
  destruct (String.eqb value ""); [rewrite app_nil_r|]; reflexivity.
Qed.

(** A returning [Decode], taken apart: every call it makes returned, and
    the descriptor has the type "_ipp._tcp" and the record of the
    derivation table. *)
Lemma Decode_Ret (attrs : gmap string goipp.Values) (name : string)
  (info : ipp.DnsSdInfo) :
  ipp.Decode attrs = Ret (name, info) ->
  exists id mopria kind paper urf uuid color duplex location model product pdl,
    ipp.strSingle attrs Spec.name_attributes = Ret name /\
    ipp.strSingle attrs ["printer-device-id"] = Ret id /\
    ipp.strSingle attrs ["mopria-certified"] = Ret mopria /\
    ipp.strJoined attrs ["printer-kind"] = Ret kind /\
    ipp.getPaperMax attrs = Ret paper /\
    ipp.strJoined attrs ["urf-supported"] = Ret urf /\
    ipp.strSingle attrs ["printer-uuid"] = Ret uuid /\
    ipp.getBool attrs ["color-supported"] = Ret color /\
    ipp.getDuplex attrs = Ret duplex /\
    ipp.strSingle attrs ["printer-location"] = Ret location /\
    ipp.strSingle attrs ["printer-make-and-model"] = Ret model /\
    ipp.strBrackets attrs ["printer-make-and-model"] = Ret product /\
    ipp.strJoined attrs ["document-format-supported"] = Ret pdl /\
    info = {| ipp.Type_ := "_ipp._tcp";
              ipp.Txt := Spec.TxtRecord (ipp.Decode_devid id) mopria kind paper urf
                           uuid color duplex location model product pdl |}.
Proof.
  unfold ipp.Decode. intros H.
  apply bind_Ret_inv in H as (name' & Hname & H). cbv beta zeta in H.
  apply bind_Ret_inv in H as (id & Hid & H). cbv beta zeta in H.
  apply bind_Ret_inv in H as (mopria & Hmopria & H). cbv beta zeta in H.
  apply bind_Ret_inv in H as (kind & Hkind & H). cbv beta zeta in H.
  apply bind_Ret_inv in H as (paper & Hpaper & H). cbv beta zeta in H.
  apply bind_Ret_inv in H as (urf & Hurf & H). cbv beta zeta in H.
  rewrite !Txt_AddNotEmpty_field in H. cbn [fst snd] in H.
  apply bind_Ret_inv in H as (uuid & Huuid & H). cbv beta zeta in H.
  apply bind_Ret_inv in H as (color & Hcolor & H). cbv beta zeta in H.
  apply bind_Ret_inv in H as (duplex & Hduplex & H). cbv beta zeta in H.
  apply bind_Ret_inv in H as (location & Hlocation & H). cbv beta zeta in H.
  apply bind_Ret_inv in H as (model & Hmodel & H). cbv beta zeta in H.
  apply bind_Ret_inv in H as (product & Hproduct & H). cbv beta zeta in H.
  apply bind_Ret_inv in H as (pdl & Hpdl & H). cbv beta zeta in H.
  rewrite !Txt_AddNotEmpty_field in H. cbn [fst snd] in H.
  injection H as <- <-.
  exists id, mopria, kind, paper, urf, uuid, color, duplex, location, model, product, pdl.
  repeat (split; [assumption|]).
  f_equal. unfold Spec.TxtRecord, ipp.Txt_Add.
  assert (Hurf' : (if negb (String.eqb urf "") then Spec.field "URF" urf
                   else Spec.field "URF" urf ++
                        Spec.field "URF" (ipp.devid_get (ipp.Decode_devid id) "URF")) =
                  Spec.field "URF" (if String.eqb urf ""
                                    then ipp.devid_get (ipp.Decode_devid id) "URF"
                                    else urf)).
  { destruct (String.eqb urf "") eqn:Eu; cbn [negb]; [|reflexivity].
    unfold Spec.field at 1. rewrite Eu. reflexivity. }
  rewrite <- Hurf'.
  destruct (negb (String.eqb urf ""));
    repeat (rewrite <- app_assoc || rewrite <- app_comm_cons); reflexivity.
Qed.

Lemma txt_values_app (key : string) (a b : list ipp.DnsSdTxtItem) :
  Spec.txt_values key (a ++ b) = Spec.txt_values key a ++ Spec.txt_values key b.
Proof. apply omap_app. Qed.

Lemma txt_values_field_ne (key k v : string) :
  String.eqb k key = false -> Spec.txt_values key (Spec.field k v) = [].
Proof.
  intros Hk. unfold Spec.field, Spec.txt_values.
  destruct (String.eqb v ""); [reflexivity|]. simpl. rewrite Hk. reflexivity.
Qed.

(** The record holds the key "PaperMax" once, with the value of the paper
    size, or not at all when that value is empty. *)
Lemma TxtRecord_PaperMax (devid : gmap string string)
  (mopria kind paper urf uuid color duplex location model product pdl : string) :
  Spec.txt_values "PaperMax"
    (Spec.TxtRecord devid mopria kind paper urf uuid color duplex location model
                    product pdl) =
  if String.eqb paper "" then [] else [paper].
Proof.
  unfold Spec.TxtRecord. rewrite !txt_values_app.
  repeat match goal with
         | |- context [Spec.txt_values ?key (Spec.field ?k ?v)] =>
             rewrite (txt_values_field_ne key k v) by reflexivity
         end.
  unfold Spec.field. destruct (String.eqb paper ""); reflexivity.
Qed.

(** C3. For every attribute store: whenever [getPaperMax] returns, it
    returns the PaperMax value of the specification; on a store with
    homogeneously typed values it does return; and every descriptor that
    [Decode] returns holds that value under the key "PaperMax", once, or
    does not hold the key when the value is empty.  The value is empty
    (the field is omitted) when "media-size-supported" is absent or not
    collection-typed or when the maximum of the x-dimensions or of the
    y-dimensions over all entries is zero (each dimension read as an
    integer or as the upper bound of a range), and else it is the first
    matching row of the table, the last row being "<legal-A4". *)
Theorem getPaperMax_is_PaperMax (attrs : gmap string goipp.Values) :
  (forall r, ipp.getPaperMax attrs = Ret r -> r = Spec.PaperMax attrs) /\
  (Spec.store_homogeneous attrs -> ipp.getPaperMax attrs = Ret (Spec.PaperMax attrs)) /\
  (forall name info,
     ipp.Decode attrs = Ret (name, info) ->
     Spec.txt_values "PaperMax" (ipp.Txt info) =
     if String.eqb (Spec.PaperMax attrs) "" then [] else [Spec.PaperMax attrs]).
Proof.
  assert (Hret : forall r, ipp.getPaperMax attrs = Ret r -> r = Spec.PaperMax attrs).
  { rewrite getPaperMax_cases.
    intros r. unfold Spec.PaperMax, Spec.media_sizes.
    destruct (attrs !! "media-size-supported") as [[|[tag v0] rest]|];
      try discriminate; try (intros [= <-]; reflexivity).
    destruct v0; try (intros [= <-]; reflexivity).
    destruct (forallb _ (map snd rest)); [|discriminate].
    intros [= <-]. reflexivity. }
  split; [exact Hret|]. split; [apply getPaperMax_typed|].
  intros name info H.
  apply Decode_Ret in H
    as (id & mopria & kind & paper & urf & uuid & color & duplex & location & model
        & product & pdl & _ & _ & _ & _ & Hpaper & _ & _ & _ & _ & _ & _ & _ & _ & ->).
  apply Hret in Hpaper. subst paper. cbn [ipp.Txt]. apply TxtRecord_PaperMax.
Qed.

Lemma getPaperMax_is_PaperMax_witness :
  Spec.store_homogeneous (Inputs.store_media 21600 35400) /\
  ipp.getPaperMax (Inputs.store_media 21600 35400) = Ret "legal-A4" /\
  Spec.store_homogeneous Inputs.store_printer /\
  ipp.getPaperMax Inputs.store_printer = Ret "<legal-A4".
Proof.
  assert (H : Spec.store_homogeneous (Inputs.store_media 21600 35400))
    by (unfold Inputs.store_media; store_typed).
  assert (H' : Spec.store_homogeneous Inputs.store_printer)
    by (unfold Inputs.store_printer; store_typed).
  split; [exact H|]. split; [|split; [exact H'|]].
  - exact (proj1 (proj2 (getPaperMax_is_PaperMax (Inputs.store_media 21600 35400))) H).
  - exact (proj1 (proj2 (getPaperMax_is_PaperMax Inputs.store_printer)) H').
Defined.

(** *** Name resolution *)

(** The name [Decode] returns is the one [strSingle] resolved. *)
Lemma Decode_name (attrs : gmap string goipp.Values) (name : string)
  (info : ipp.DnsSdInfo) :
  ipp.Decode attrs = Ret (name, info) ->
  ipp.strSingle attrs Spec.name_attributes = Ret name.
Proof. intros H. apply Decode_Ret in H as (? & ? & ? & ? & ? & ? & ? & ? & ? & ? & ? & ? & H & _). exact H. Qed.

(** C6, as the specification states it, fails: in the store that holds
    "printer-dns-sd-name" with an integer value and "printer-info" = "X",
    the first name attribute present is "printer-dns-sd-name", but the
    resolved name is "X", the value of "printer-info". *)
Lemma name_resolution_skips_other_types :
  ~ Spec.name_resolution_as_stated Inputs.store_integer_name.
Proof.
  intros (name & Hs & Hn). vm_compute in Hs. injection Hs as <-.
  vm_compute in Hn. destruct Hn as (tag & rest & E). discriminate.
Qed.

(** C6, amended. For every attribute store, the resolved advertised name
    is the first value of the first attribute, among "printer-dns-sd-name",
    "printer-info" and "printer-make-and-model" in this order, that is
    present with a string-typed first value, whatever that string is: when
    there is such an attribute, a name that [strSingle] returns is its
    first value; on a store with homogeneously typed values [strSingle]
    does return it; and the name of every result of [Decode] is the one
    [strSingle] returned. *)
Theorem name_resolution_first_string_attribute (attrs : gmap string goipp.Values) :
  (forall n name : string,
     Spec.first_typed attrs goipp.TypeString Spec.name_attributes = Some n ->
     ipp.strSingle attrs Spec.name_attributes = Ret name ->
     exists tag rest, attrs !! n = Some ((tag, goipp.String name) :: rest)) /\
  (forall (n : string) (tag : goipp.Tag) (s : string) (rest : goipp.Values),
     Spec.store_homogeneous attrs ->
     Spec.first_typed attrs goipp.TypeString Spec.name_attributes = Some n ->
     attrs !! n = Some ((tag, goipp.String s) :: rest) ->
     ipp.strSingle attrs Spec.name_attributes = Ret s) /\
  (forall (name : string) (info : ipp.DnsSdInfo),
     ipp.Decode attrs = Ret (name, info) ->
     ipp.strSingle attrs Spec.name_attributes = Ret name).
Proof.
  split.
  { intros n name Hn Hs.
    apply strSingle_Ret in Hs as (n' & tag & rest & Hn' & Hs).
    rewrite Hn in Hn'. injection Hn' as <-. eauto. }
  split; [|apply Decode_name].
  intros n tag s rest Hh Hn Hs.
  rewrite strSingle_typed by exact Hh.
  unfold Spec.single_string, Spec.typed_values. rewrite Hn.
  cbn [mbind option_bind]. rewrite Hs. reflexivity.
Qed.

Lemma name_resolution_first_string_attribute_witness :
  Spec.store_homogeneous Inputs.store_only_model /\
  ipp.strSingle Inputs.store_only_model Spec.name_attributes = Ret "Acme X1" /\
  exists tag rest,
    Inputs.store_integer_name !! "printer-info" = Some ((tag, goipp.String "X") :: rest).
Proof.
  assert (H : Spec.store_homogeneous Inputs.store_only_model)
    by (unfold Inputs.store_only_model; store_typed).
  split; [exact H|]. split.
  - exact (proj1 (proj2 (name_resolution_first_string_attribute
                           Inputs.store_only_model))
             "printer-make-and-model" 65 "Acme X1" [] H eq_refl eq_refl).
  - exact (proj1 (name_resolution_first_string_attribute Inputs.store_integer_name)
             "printer-info" "X" eq_refl eq_refl).
Defined.

(** *** Panics of Decode *)

(** Without homogeneous typing a cast does fail: only the first value of
    "sides-supported" is checked, and the second one is asserted to be a
    string. *)
Lemma store_mixed_sides_not_homogeneous :
  Spec.store_homogeneous Inputs.store_mixed_sides -> False.
Proof.
  intros H. specialize (H "sides-supported" _ eq_refl). discriminate.
Qed.

Lemma getDuplex_mixed_values :
  ipp.getDuplex Inputs.store_mixed_sides = Panic TypeAssertion.
Proof. vm_compute. reflexivity. Qed.

(** [Decode] on a store with homogeneously typed values: no type
    assertion fails.  It returns when every attribute read with
    [strSingle] gives a string, and else it panics in [strSingle], at
    [strs[0]] on the empty slice that [getStrings] made. *)
Lemma Decode_homogeneous (attrs : gmap string goipp.Values) :
  Spec.store_homogeneous attrs ->
  if forallb (Spec.present attrs) Spec.single_attributes
  then exists r, ipp.Decode attrs = Ret r
  else ipp.Decode attrs = Panic IndexOutOfRange.
Proof.
  intros Hh. unfold ipp.Decode.
  rewrite !strSingle_typed, strBrackets_typed by exact Hh.
  rewrite getPaperMax_typed by exact Hh.
  destruct (strJoined_typed attrs ["printer-kind"] Hh) as [kind ->].
  destruct (strJoined_typed attrs ["urf-supported"] Hh) as [urf ->].
  destruct (strJoined_typed attrs ["document-format-supported"] Hh) as [pdl ->].
  destruct (getBool_typed attrs ["color-supported"] Hh) as [color ->].
  destruct (getDuplex_typed attrs Hh) as [duplex ->].
  unfold Spec.single_attributes, Spec.present. cbn [forallb].
  fold Spec.name_attributes.
  destruct (Spec.single_string attrs Spec.name_attributes) as [name|];
    [|reflexivity].
  destruct (Spec.single_string attrs ["printer-device-id"]) as [id|];
    [|reflexivity].
  destruct (Spec.single_string attrs ["mopria-certified"]) as [mopria|];
    [|reflexivity].
  rewrite !bind_Ret.
  destruct (ipp.Txt_AddNotEmpty _ "URF" urf) as [txt added].
  destruct (Spec.single_string attrs ["printer-uuid"]) as [uuid|];
    [|reflexivity].
  destruct (Spec.single_string attrs ["printer-location"]) as [location|];
    [|reflexivity].
  destruct (Spec.single_string attrs ["printer-make-and-model"]) as [model|];
    [|reflexivity].
  cbn [andb]. eexists. reflexivity.
Qed.

(** C10. Decode does panic on stores with homogeneously typed values.
    The store that holds only "printer-make-and-model" = "Acme X1" is one,
    and its name resolves to "Acme X1"; but "printer-device-id" is absent,
    [getStrings] returns for it a slice made with [make], which is empty
    but not nil, so the nil test of [strSingle] does not stop at it and
    [strs[0]] is out of range.  A printer store that lacks only
    "mopria-certified" panics in the same way. *)
Theorem Decode_panics_on_absent_attribute :
  Spec.store_homogeneous Inputs.store_only_model /\
  ipp.strSingle Inputs.store_only_model Spec.name_attributes = Ret "Acme X1" /\
  ipp.getStrings Inputs.store_only_model ["printer-device-id"] = Ret (Some []) /\
  ipp.strSingle Inputs.store_only_model ["printer-device-id"] = Panic IndexOutOfRange /\
  ipp.Decode Inputs.store_only_model = Panic IndexOutOfRange /\
  Spec.store_homogeneous Inputs.store_printer_not_certified /\
  ipp.Decode Inputs.store_printer_not_certified = Panic IndexOutOfRange.
Proof.
  split; [unfold Inputs.store_only_model; store_typed|].
  do 4 (split; [vm_compute; reflexivity|]).
  split; [|vm_compute; reflexivity].
  unfold Inputs.store_printer_not_certified.
  apply map_Forall_delete. unfold Inputs.store_printer. store_typed.
Qed.

(** *** The capability query *)

(** An exchange that fails is reported to the caller. *)
Lemma IppService_transport_failure
  (EncodeBytes : goipp.Message -> list Byte.byte)
  (DecodeBytes : goipp.Message -> list Byte.byte -> goipp.Message * option error)
  (c : http.Client) (resp : option http.Response) (e : error) :
  http.Post c ipp.IppService_uri ipp.ContentType (EncodeBytes ipp.IppService_msg)
    = (resp, Some e) ->
  ipp.IppService EncodeBytes DecodeBytes c = Ret ("", ipp.zeroDnsSdInfo, Some e).
Proof. intros H. unfold ipp.IppService. rewrite H. reflexivity. Qed.

(** C9. For every response whose exchange succeeds (the post and the read
    of the body return no error) but whose decoding fails, [IppService]
    returns, with a nil error, the empty name and the zero descriptor,
    which has no record: the decode error is not passed on. *)
Theorem IppService_absorbs_decode_failure
  (EncodeBytes : goipp.Message -> list Byte.byte)
  (DecodeBytes : goipp.Message -> list Byte.byte -> goipp.Message * option error)
  (c : http.Client) (resp : http.Response) (respData : list Byte.byte)
  (msg : goipp.Message) (e : error) :
  http.Post c ipp.IppService_uri ipp.ContentType (EncodeBytes ipp.IppService_msg)
    = (Some resp, None) ->
  http.Body resp = (respData, None) ->
  DecodeBytes ipp.IppService_msg respData = (msg, Some e) ->
  ipp.IppService EncodeBytes DecodeBytes c =
    Ret ("", {| ipp.Type_ := ""; ipp.Txt := [] |}, None).
Proof.
  intros HPost HBody HDecode. unfold ipp.IppService.
  rewrite HPost, HBody, HDecode. reflexivity.
Qed.

Lemma IppService_absorbs_decode_failure_witness :
  ipp.IppService DeviceInputs.encode DeviceInputs.decode_fails DeviceInputs.client_ok =
    Ret ("", {| ipp.Type_ := ""; ipp.Txt := [] |}, None).
Proof.
  exact (IppService_absorbs_decode_failure
           DeviceInputs.encode DeviceInputs.decode_fails DeviceInputs.client_ok
           {| http.Body := ([], None) |} [] ipp.IppService_msg "Message truncated"
           eq_refl eq_refl eq_refl).
Defined.

(** *** Runs of device.go *)

Section Runs.
Import device.

Lemma prepend_nil {A} (r : Run A) : prepend [] r = r.
Proof. destruct r. reflexivity. Qed.

Lemma prepend_MkRun {A} (tr tr' : list Event) (res : Res A) :
  prepend tr (MkRun res tr') = MkRun res (tr ++ tr').
Proof. reflexivity. Qed.

Lemma prepend_prepend {A} (tr tr' : list Event) (r : Run A) :
  prepend tr (prepend tr' r) = prepend (tr ++ tr') r.
Proof. unfold prepend. simpl. rewrite app_assoc. reflexivity. Qed.

Lemma run_bind_Ret {A B} (a : A) (tr : list Event) (f : A -> Run B) :
  (MkRun (Ret a) tr ≫= f) = prepend tr (f a).
Proof. reflexivity. Qed.

Lemma run_bind_mret {A B} (a : A) (f : A -> Run B) : (mret a ≫= f) = f a.
Proof. apply (prepend_nil (f a)). Qed.

Lemma run_bind_prepend {A B} (tr : list Event) (r : Run A) (f : A -> Run B) :
  (prepend tr r ≫= f) = prepend tr (r ≫= f).
Proof.
  destruct r as [[a|p] tr'].
  - change (prepend tr (MkRun (Ret a) tr') ≫= f) with (prepend (tr ++ tr') (f a)).
    change (MkRun (Ret a) tr' ≫= f) with (prepend tr' (f a)).
    rewrite prepend_prepend. reflexivity.
  - reflexivity.
Qed.

Lemma acquired_events (r : option Resource) :
  acquired r = MkRun (Ret tt) (DeviceSpec.acquire_events r).
Proof. destruct r; reflexivity. Qed.

(** *** The blocks of NewDevice *)

(** The label ERROR closes what is live, the proxy first, then the
    transport, then the listener, and returns the error. *)
Lemma NewDevice_ERROR_run (dev : Device.t) (l : option Listener) (err : option error) :
  NewDevice_ERROR dev l err =
  MkRun (Ret (None, err))
        (DeviceSpec.release_events (RProxy <$> Device.HTTPProxy dev) ++
         DeviceSpec.release_events (RTransport <$> Device.UsbTransport dev) ++
         DeviceSpec.release_events (RListener <$> l)).
Proof.
  unfold NewDevice_ERROR.
  destruct (Device.HTTPProxy dev), (Device.UsbTransport dev), l; reflexivity.
Qed.

(** The update for scanner presence, when the recorded index is in the
    set and when it is not. *)
Lemma NewDevice_scan_in_range (ippinfo : IppPrinterInfo.t) (err : option error)
  (services : DNSSdServices) (svc : DNSSdSvcInfo) :
  0 <= IppPrinterInfo.IppSvcIndex ippinfo ->
  services !! Z.to_nat (IppPrinterInfo.IppSvcIndex ippinfo) = Some svc ->
  NewDevice_scan (Some ippinfo) err services =
  MkRun (Ret (<[Z.to_nat (IppPrinterInfo.IppSvcIndex ippinfo) :=
                  DeviceSpec.with_txt svc "Scan" (DeviceSpec.scan_flag err)]> services))
        [].
Proof.
  intros H0 Hs. unfold NewDevice_scan.
  pose proof (lookup_lt_Some _ _ _ Hs) as Hlt.
  replace ((0 <=? _) && (_ <? _)) with true
    by (symmetry; apply andb_true_iff; split;
        [apply Z.leb_le; lia|apply Z.ltb_lt; lia]).
  unfold mret, Run_ret. f_equal. f_equal.
  apply list_eq. intros j.
  destruct (decide (j = Z.to_nat (IppPrinterInfo.IppSvcIndex ippinfo))) as [->|Hne].
  - rewrite list_lookup_alter_eq, list_lookup_insert_eq by exact Hlt.
    rewrite Hs. destruct err; reflexivity.
  - rewrite list_lookup_alter_ne, list_lookup_insert_ne by auto. reflexivity.
Qed.

Lemma NewDevice_scan_out_of_range (ippinfo : IppPrinterInfo.t) (err : option error)
  (services : DNSSdServices) :
  services !! Z.to_nat (IppPrinterInfo.IppSvcIndex ippinfo) = None \/
  IppPrinterInfo.IppSvcIndex ippinfo < 0 ->
  NewDevice_scan (Some ippinfo) err services = MkRun (Panic IndexOutOfRange) [].
Proof.
  intros H. unfold NewDevice_scan.
  replace ((0 <=? _) && (_ <? _)) with false; [reflexivity|].
  symmetry. apply andb_false_iff.
  destruct (Z_lt_dec (IppPrinterInfo.IppSvcIndex ippinfo) 0) as [Hneg|Hpos].
  - left. apply Z.leb_gt. exact Hneg.
  - destruct H as [H|H]; [|contradiction].
    right. apply Z.ltb_ge. apply lookup_ge_None in H. lia.
Qed.

(** The update emits nothing, whatever it does. *)
Lemma NewDevice_scan_trace (ippinfo : option IppPrinterInfo.t) (err : option error)
  (services : DNSSdServices) :
  trace (NewDevice_scan ippinfo err services) = [].
Proof.
  unfold NewDevice_scan. destruct ippinfo as [ippinfo|]; [|reflexivity].
  destruct ((0 <=? _) && (_ <? _)); reflexivity.
Qed.

(** The end of NewDevice on a Device with a state. *)
Lemma NewDevice_publish_run (E : Env) (dev : Device.t) (l : option Listener)
  (services : DNSSdServices) (s : DevState.t) :
  Device.State dev = Some s ->
  NewDevice_publish E dev l services =
  let pub := DeviceSpec.publisher dev (services ++ [DeviceSpec.web_svc s]) in
  if Conf_DNSSdEnable E
  then match Publish E pub with
       | Some e =>
           MkRun (Ret (None, Some e))
                 (DeviceSpec.release_events (RProxy <$> Device.HTTPProxy dev) ++
                  DeviceSpec.release_events (RTransport <$> Device.UsbTransport dev) ++
                  DeviceSpec.release_events (RListener <$> l))
       | None =>
           MkRun (Ret (Some (Device.set_DNSSdPublisher (Some pub) dev), None))
                 [Acquire (RPublisher pub)]
       end
  else MkRun (Ret (Some dev, None)) [].
Proof.
  intros Hs. unfold NewDevice_publish. rewrite Hs. cbn [deref].
  rewrite run_bind_mret. cbv zeta.
  destruct (Conf_DNSSdEnable E); [|reflexivity].
  unfold DNSSdPublisher_Publish. cbn [Device.DNSSdPublisher Device.set_DNSSdPublisher deref].
  rewrite run_bind_mret. cbv zeta.
  unfold DeviceSpec.publisher, DeviceSpec.web_svc, DNSSdServices_Add. rewrite Hs.
  destruct (Publish E _) as [e|] eqn:EP; cbn [notNil].
  - rewrite run_bind_mret. cbv beta. rewrite run_bind_mret. cbn [notNil].
    rewrite NewDevice_ERROR_run. reflexivity.
  - reflexivity.
Qed.

Lemma run_bind_emit {B} (e : Event) (f : unit -> Run B) :
  (emit e ≫= f) = prepend [e] (f tt).
Proof. reflexivity. Qed.

Lemma DevState_Save_Some (s : DevState.t) : DevState_Save (Some s) = emit (Save s).
Proof. exact (run_bind_mret s (fun s => emit (Save s))). Qed.

End Runs.

(** Reduces the field accesses and the nil tests of a run. *)
Ltac run_fields :=
  cbn [device.Device.UsbAddr device.Device.State device.Device.HTTPClient
       device.Device.HTTPProxy device.Device.UsbTransport
       device.Device.DNSSdPublisher device.Device.Log
       device.Device.set_State device.Device.set_HTTPClient
       device.Device.set_HTTPProxy device.Device.set_UsbTransport
       device.Device.set_DNSSdPublisher device.Device.set_Log
       device.DevState.HTTPPort device.DevState.DNSSdName
       device.DevState.DNSSdOverride device.DevState.set_DNSSdName
       device.DevState.set_DNSSdOverride
       device.deref device.notNil fmap option_fmap option_map negb].

(** Runs the straight-line code at the head of a run. *)
Ltac run_steps :=
  repeat first
    [ rewrite run_bind_mret
    | rewrite run_bind_emit
    | rewrite run_bind_Ret
    | rewrite acquired_events
    | rewrite DevState_Save_Some
    | rewrite run_bind_prepend
    | progress cbv beta iota zeta
    | progress run_fields ].

Section NewDevice.
Import device.

Variable E : Env.
Variable desc : UsbDeviceDesc.

(** The transport cannot be acquired: nothing but what the call may have
    returned is closed. *)
Lemma NewDevice_transport_failure (t : option UsbTransport) (e : error) :
  NewUsbTransport E desc = (t, Some e) ->
  NewDevice E desc =
  MkRun (Ret (None, Some e))
        (DeviceSpec.acquire_events (RTransport <$> t) ++
         DeviceSpec.release_events (RTransport <$> t)).
Proof.
  intros H1. unfold NewDevice. rewrite H1. run_steps.
  rewrite NewDevice_ERROR_run. run_fields. rewrite prepend_MkRun.
  destruct t; reflexivity.
Qed.

(** A nil transport without an error: the call through it panics. *)
Lemma NewDevice_nil_transport :
  NewUsbTransport E desc = (None, None) ->
  NewDevice E desc = MkRun (Panic NilDereference) [].
Proof. intros H1. unfold NewDevice. rewrite H1. reflexivity. Qed.

Section Transport.

Variable t : UsbTransport.
Hypothesis H1 : NewUsbTransport E desc = (Some t, None).

Variable l : option Listener.
Variable st : DevState.t.

(** The listener cannot be acquired: the transport is closed, once, and
    then what the call may have returned. *)
Lemma NewDevice_listener_failure (e : error) :
  HTTPListen E (LoadDevState E (UsbDeviceInfo.Ident (ut_info t))
                               (UsbDeviceInfo.Comment (ut_info t))) = (l, Some e, st) ->
  NewDevice E desc =
  MkRun (Ret (None, Some e))
        ([Acquire (RTransport t)] ++ DeviceSpec.acquire_events (RListener <$> l) ++
         [Release (RTransport t)] ++ DeviceSpec.release_events (RListener <$> l)).
Proof.
  intros H2. unfold NewDevice. rewrite H1. run_steps. rewrite H2. run_steps.
  rewrite NewDevice_ERROR_run. run_fields. rewrite !prepend_MkRun.
  destruct l; reflexivity.
Qed.

Hypothesis H2 :
  HTTPListen E (LoadDevState E (UsbDeviceInfo.Ident (ut_info t))
                               (UsbDeviceInfo.Comment (ut_info t))) = (l, None, st).

Variable ippinfo : option IppPrinterInfo.t.
Variable e1 : option error.
Variable s1 : DNSSdServices.
Hypothesis H3 :
  IppService E [] (DevState.HTTPPort st) (ut_info t)
             (Some {| Transport := Some t |}) = (ippinfo, e1, s1).

Variable e2 : option error.
Variable s2 : DNSSdServices.
Hypothesis H4 :
  EsclService E s1 (DevState.HTTPPort st) (ut_info t) ippinfo
              (Some {| Transport := Some t |}) = (e2, s2).

(** With the transport and the listener acquired, NewDevice comes to the
    update for scanner presence with the Device assembled and the state
    written back if the name changed. *)
Lemma NewDevice_path :
  NewDevice E desc =
  prepend (DeviceSpec.prefix_events t l ippinfo st)
    (NewDevice_scan ippinfo e2 s2 ≫=
     NewDevice_publish E
       (DeviceSpec.assembled desc t l (DeviceSpec.state_after ippinfo (ut_info t) st)) l).
Proof.
  unfold NewDevice, DeviceSpec.prefix_events, DeviceSpec.state_after.
  rewrite H1. run_steps. rewrite H2. run_steps. rewrite H3. run_steps.
  fold (DeviceSpec.resolved_name ippinfo (ut_info t)).
  destruct (String.eqb _ (DevState.DNSSdName st)); run_steps.
  - rewrite H4. run_steps. rewrite !prepend_prepend, <- ?app_assoc. reflexivity.
  - rewrite H4. run_steps. rewrite !prepend_prepend, <- ?app_assoc. reflexivity.
Qed.

End Transport.
End NewDevice.

Section Construction.
Import device.

Lemma acquired_app (tr tr' : list Event) :
  DeviceSpec.acquired (tr ++ tr') = DeviceSpec.acquired tr ++ DeviceSpec.acquired tr'.
Proof. apply omap_app. Qed.

Lemma released_app (tr tr' : list Event) :
  DeviceSpec.released (tr ++ tr') = DeviceSpec.released tr ++ DeviceSpec.released tr'.
Proof. apply omap_app. Qed.

Lemma saved_app (tr tr' : list Event) :
  DeviceSpec.saved (tr ++ tr') = DeviceSpec.saved tr ++ DeviceSpec.saved tr'.
Proof. apply omap_app. Qed.

(** What the prefix acquires, releases and saves. *)
Lemma prefix_events_acquired (t : UsbTransport) (l : option Listener)
  (ippinfo : option IppPrinterInfo.t) (s : DevState.t) :
  DeviceSpec.acquired (DeviceSpec.prefix_events t l ippinfo s) =
  [RTransport t] ++ option_list (RListener <$> l) ++
  [RProxy {| proxy_log := Some (ut_log t); proxy_listener := l;
             proxy_transport := Some t |}] /\
  DeviceSpec.released (DeviceSpec.prefix_events t l ippinfo s) = [] /\
  DeviceSpec.saved (DeviceSpec.prefix_events t l ippinfo s) =
  if String.eqb (DeviceSpec.resolved_name ippinfo (ut_info t)) (DevState.DNSSdName s)
  then []
  else [DeviceSpec.renamed (DeviceSpec.resolved_name ippinfo (ut_info t)) s].
Proof.
  unfold DeviceSpec.prefix_events.
  destruct l, (String.eqb _ (DevState.DNSSdName s)); repeat split; reflexivity.
Qed.

(** The outcomes of the end of NewDevice, from the update for scanner
    presence on, for an assembled Device. *)
Lemma NewDevice_tail (E : Env) (desc : UsbDeviceDesc) (t : UsbTransport)
  (l : option Listener) (s : DevState.t) (ippinfo : option IppPrinterInfo.t)
  (err : option error) (services : DNSSdServices) :
  let dev := DeviceSpec.assembled desc t l s in
  let run := NewDevice_scan ippinfo err services ≫= NewDevice_publish E dev l in
  let proxy := {| proxy_log := Some (ut_log t); proxy_listener := l;
                  proxy_transport := Some t |} in
  (result (NewDevice_scan ippinfo err services) = Panic IndexOutOfRange /\
   run = MkRun (Panic IndexOutOfRange) []) \/
  (exists services',
     NewDevice_scan ippinfo err services = MkRun (Ret services') [] /\
     let pub := DeviceSpec.publisher dev (services' ++ [DeviceSpec.web_svc s]) in
     (Conf_DNSSdEnable E = false /\ run = MkRun (Ret (Some dev, None)) []) \/
     (Conf_DNSSdEnable E = true /\ Publish E pub = None /\
      run = MkRun (Ret (Some (Device.set_DNSSdPublisher (Some pub) dev), None))
                  [Acquire (RPublisher pub)]) \/
     (exists e, Conf_DNSSdEnable E = true /\ Publish E pub = Some e /\
                run = MkRun (Ret (None, Some e))
                            ([Release (RProxy proxy); Release (RTransport t)] ++
                             DeviceSpec.release_events (RListener <$> l)))).
Proof.
  intros dev run proxy. subst run.
  pose proof (NewDevice_scan_trace ippinfo err services) as Htr.
  destruct (NewDevice_scan ippinfo err services) as [[services'|p] tr] eqn:Hscan;
    simpl in Htr; subst tr.
  - right. exists services'. split; [reflexivity|].
    rewrite run_bind_Ret, prepend_nil.
    rewrite (NewDevice_publish_run E dev l services' s eq_refl). cbv zeta.
    destruct (Conf_DNSSdEnable E); [|left; auto].
    right. destruct (Publish E _) as [e|]; [right; exists e|left]; auto.
  - left. unfold NewDevice_scan in Hscan.
    destruct ippinfo as [ippinfo|]; [|discriminate].
    destruct ((0 <=? _) && (_ <? _)); [discriminate|].
    injection Hscan as <-. auto.
Qed.

End Construction.

(** *** Construction rollback *)

(** C1, as the specification states it, fails: when the print and the scan
    query succeed and publishing fails, NewDevice returns no Device and the
    error of the publisher, but it closes the proxy, then the transport,
    then the listener, while the transport was acquired before the
    listener: the order is not the reverse of the acquisitions. *)
Lemma NewDevice_unwind_is_not_reverse :
  let run := device.NewDevice
               (DeviceInputs.env None (Some "Acme X1") None (Some "publish failed"))
               DeviceInputs.desc0 in
  device.result run = Ret (None, Some "publish failed") /\
  DeviceSpec.acquired (device.trace run) =
    [device.RTransport DeviceInputs.transport0;
     device.RListener DeviceInputs.listener0;
     device.RProxy DeviceInputs.proxy0] /\
  DeviceSpec.released (device.trace run) =
    [device.RProxy DeviceInputs.proxy0;
     device.RTransport DeviceInputs.transport0;
     device.RListener DeviceInputs.listener0] /\
  ~ DeviceSpec.unwinds_in_reverse_order (device.trace run).
Proof.
  repeat split; try (vm_compute; reflexivity).
  unfold DeviceSpec.unwinds_in_reverse_order. vm_compute. discriminate.
Qed.

(** C1, amended. For every failing construction NewDevice returns no
    Device together with the failing step's error unchanged, and closes
    exactly what this attempt acquired, each once, in the fixed order
    proxy, transport, listener.  When the transport cannot be acquired,
    only a transport the failed call returned is closed; when the listener
    cannot be acquired, the transport is closed exactly once, and then a
    listener the failed call returned; when publishing fails, the proxy,
    the transport and the listener are closed in this order. *)
Theorem NewDevice_failure_unwinds (E : device.Env) (desc : device.UsbDeviceDesc) :
  (forall (t : option device.UsbTransport) (e : error),
     device.NewUsbTransport E desc = (t, Some e) ->
     device.NewDevice E desc =
     device.MkRun (Ret (None, Some e))
       (DeviceSpec.acquire_events (device.RTransport <$> t) ++
        DeviceSpec.release_events (device.RTransport <$> t))) /\
  (forall (t : device.UsbTransport) (l : option device.Listener)
          (st : device.DevState.t) (e : error),
     device.NewUsbTransport E desc = (Some t, None) ->
     device.HTTPListen E
       (device.LoadDevState E (device.UsbDeviceInfo.Ident (device.ut_info t))
                              (device.UsbDeviceInfo.Comment (device.ut_info t)))
       = (l, Some e, st) ->
     device.NewDevice E desc =
     device.MkRun (Ret (None, Some e))
       ([device.Acquire (device.RTransport t)] ++
        DeviceSpec.acquire_events (device.RListener <$> l) ++
        [device.Release (device.RTransport t)] ++
        DeviceSpec.release_events (device.RListener <$> l))) /\
  (forall (t : device.UsbTransport) (l : option device.Listener)
          (st : device.DevState.t) (ippinfo : option device.IppPrinterInfo.t)
          (e1 e2 : option error) (s1 s2 services : device.DNSSdServices) (e : error),
     device.NewUsbTransport E desc = (Some t, None) ->
     device.HTTPListen E
       (device.LoadDevState E (device.UsbDeviceInfo.Ident (device.ut_info t))
                              (device.UsbDeviceInfo.Comment (device.ut_info t)))
       = (l, None, st) ->
     device.IppService E [] (device.DevState.HTTPPort st) (device.ut_info t)
       (Some {| device.Transport := Some t |}) = (ippinfo, e1, s1) ->
     device.EsclService E s1 (device.DevState.HTTPPort st) (device.ut_info t) ippinfo
       (Some {| device.Transport := Some t |}) = (e2, s2) ->
     device.result (device.NewDevice_scan ippinfo e2 s2) = Ret services ->
     device.Conf_DNSSdEnable E = true ->
     let st' := DeviceSpec.state_after ippinfo (device.ut_info t) st in
     device.Publish E
       (DeviceSpec.publisher (DeviceSpec.assembled desc t l st')
                             (services ++ [DeviceSpec.web_svc st'])) = Some e ->
     device.NewDevice E desc =
     device.MkRun (Ret (None, Some e))
       (DeviceSpec.prefix_events t l ippinfo st ++
        [device.Release
           (device.RProxy {| device.proxy_log := Some (device.ut_log t);
                             device.proxy_listener := l;
                             device.proxy_transport := Some t |});
         device.Release (device.RTransport t)] ++
        DeviceSpec.release_events (device.RListener <$> l))) /\
  (forall (d : option device.Device.t) (e : error),
     device.result (device.NewDevice E desc) = Ret (d, Some e) ->
     d = None /\
     DeviceSpec.released (device.trace (device.NewDevice E desc)) =
     DeviceSpec.unwind_order (DeviceSpec.acquired (device.trace (device.NewDevice E desc)))).
Proof.
  split; [exact (NewDevice_transport_failure E desc)|].
  split; [intros t l st e H1 H2; exact (NewDevice_listener_failure E desc t H1 l st e H2)|].
  split.
  - intros t l st ippinfo e1 e2 s1 s2 services e H1 H2 H3 H4 Hscan Hconf st' Hpub.
    rewrite (NewDevice_path E desc t H1 l st H2 ippinfo e1 s1 H3 e2 s2 H4).
    fold st'.
    destruct (NewDevice_tail E desc t l st' ippinfo e2 s2)
      as [[Hp _]|(services' & Hs & [[Hc _]|[(_ & Hn & _)|(e' & _ & Hp & ->)]])].
    + rewrite Hp in Hscan. discriminate.
    + rewrite Hc in Hconf. discriminate.
    + rewrite Hs in Hscan. injection Hscan as ->. rewrite Hn in Hpub. discriminate.
    + rewrite Hs in Hscan. injection Hscan as ->. rewrite Hp in Hpub.
      injection Hpub as ->. reflexivity.
  - intros d e.
    destruct (device.NewUsbTransport E desc) as [t [e0|]] eqn:H1.
    + rewrite (NewDevice_transport_failure E desc t e0 H1).
      intros [= <- <-]. split; [reflexivity|]. destruct t; reflexivity.
    + destruct t as [t|];
        [|rewrite (NewDevice_nil_transport E desc H1); discriminate].
      destruct (device.HTTPListen E
                  (device.LoadDevState E
                     (device.UsbDeviceInfo.Ident (device.ut_info t))
                     (device.UsbDeviceInfo.Comment (device.ut_info t))))
        as [[l [e0|]] st] eqn:H2.
      * rewrite (NewDevice_listener_failure E desc t H1 l st e0 H2).
        intros [= <- <-]. split; [reflexivity|]. destruct l; reflexivity.
      * destruct (device.IppService E [] (device.DevState.HTTPPort st)
                    (device.ut_info t) (Some {| device.Transport := Some t |}))
          as [[ippinfo e1] s1] eqn:H3.
        destruct (device.EsclService E s1 (device.DevState.HTTPPort st)
                    (device.ut_info t) ippinfo (Some {| device.Transport := Some t |}))
          as [e2 s2] eqn:H4.
        rewrite (NewDevice_path E desc t H1 l st H2 ippinfo e1 s1 H3 e2 s2 H4).
        destruct (prefix_events_acquired t l ippinfo st) as (Ha & Hr & _).
        destruct (NewDevice_tail E desc t l
                    (DeviceSpec.state_after ippinfo (device.ut_info t) st) ippinfo e2 s2)
          as [[_ ->]|(services' & _ & [[_ ->]|[(_ & _ & ->)|(e' & _ & _ & ->)]])];
          try discriminate.
        intros [= <- <-]. split; [reflexivity|].
        cbn [device.prepend device.trace].
        rewrite released_app, acquired_app, Ha, Hr.
        destruct l; reflexivity.
Qed.

Lemma NewDevice_failure_unwinds_witness :
  device.NewDevice DeviceInputs.env_no_transport DeviceInputs.desc0 =
    device.MkRun (Ret (None, Some "USB: device busy")) [] /\
  device.NewDevice (DeviceInputs.env (Some "listen: address in use") None None None)
                   DeviceInputs.desc0 =
    device.MkRun (Ret (None, Some "listen: address in use"))
      [device.Acquire (device.RTransport DeviceInputs.transport0);
       device.Release (device.RTransport DeviceInputs.transport0)] /\
  device.NewDevice (DeviceInputs.env None (Some "Acme X1") None (Some "publish failed"))
                   DeviceInputs.desc0 =
    device.MkRun (Ret (None, Some "publish failed"))
      [device.Acquire (device.RTransport DeviceInputs.transport0);
       device.Acquire (device.RListener DeviceInputs.listener0);
       device.Acquire (device.RProxy DeviceInputs.proxy0);
       device.Release (device.RProxy DeviceInputs.proxy0);
       device.Release (device.RTransport DeviceInputs.transport0);
       device.Release (device.RListener DeviceInputs.listener0)] /\
  DeviceSpec.released
    (device.trace
       (device.NewDevice
          (DeviceInputs.env None (Some "Acme X1") None (Some "publish failed"))
          DeviceInputs.desc0)) =
    [device.RProxy DeviceInputs.proxy0;
     device.RTransport DeviceInputs.transport0;
     device.RListener DeviceInputs.listener0].
Proof.
  split; [|split; [|split]].
  - exact (proj1 (NewDevice_failure_unwinds DeviceInputs.env_no_transport
                    DeviceInputs.desc0) None "USB: device busy" eq_refl).
  - exact (proj1 (proj2 (NewDevice_failure_unwinds
                           (DeviceInputs.env (Some "listen: address in use") None None None)
                           DeviceInputs.desc0))
             DeviceInputs.transport0 None DeviceInputs.state0
             "listen: address in use" eq_refl eq_refl).
  - exact (proj1 (proj2 (proj2 (NewDevice_failure_unwinds
                           (DeviceInputs.env None (Some "Acme X1") None (Some "publish failed"))
                           DeviceInputs.desc0)))
             DeviceInputs.transport0 (Some DeviceInputs.listener0) DeviceInputs.state0
             (Some {| device.IppPrinterInfo.DNSSdName := "Acme X1";
                      device.IppPrinterInfo.IppSvcIndex := 0 |})
             None None [DeviceInputs.ipp_svc]
             [DeviceInputs.ipp_svc; DeviceInputs.escl_svc]
             [DeviceSpec.with_txt DeviceInputs.ipp_svc "Scan" "T"; DeviceInputs.escl_svc]
             "publish failed" eq_refl eq_refl eq_refl eq_refl eq_refl eq_refl eq_refl).
  - exact (proj2 (proj2 (proj2 (proj2 (NewDevice_failure_unwinds
                           (DeviceInputs.env None (Some "Acme X1") None (Some "publish failed"))
                           DeviceInputs.desc0))) None "publish failed" eq_refl)).
Defined.

(** *** The scan-presence flag *)

(** C7. Whenever a print descriptor was created (the transport and the
    listener were acquired and the print query gave a result, whose
    recorded index lies in the advertisement set as the scan query left
    it), [NewDevice] amends that set in place once the outcome of the scan
    query is known, at the recorded index and nowhere else: the record of
    that descriptor gets the pair Scan = "T" at its end when the scan query
    returned no error and Scan = "F" when it returned one, so that the flag
    is never left out.  The run of [NewDevice] is then fixed: it does not
    panic, and the set it goes on with, followed by the web descriptor, is
    the amended set: when DNS-SD is enabled that set is what the publisher
    is made of and asked to publish, and the Device that is returned holds
    that publisher; when the publisher refuses, its error is returned. *)
Theorem NewDevice_scan_flag_in_place
  (E : device.Env) (desc : device.UsbDeviceDesc) (t : device.UsbTransport)
  (l : option device.Listener) (st : device.DevState.t)
  (ippinfo : device.IppPrinterInfo.t) (e1 err : option error)
  (s1 services : device.DNSSdServices) (svc : device.DNSSdSvcInfo) :
  device.NewUsbTransport E desc = (Some t, None) ->
  device.HTTPListen E
    (device.LoadDevState E (device.UsbDeviceInfo.Ident (device.ut_info t))
                           (device.UsbDeviceInfo.Comment (device.ut_info t)))
    = (l, None, st) ->
  device.IppService E [] (device.DevState.HTTPPort st) (device.ut_info t)
    (Some {| device.Transport := Some t |}) = (Some ippinfo, e1, s1) ->
  device.EsclService E s1 (device.DevState.HTTPPort st) (device.ut_info t)
    (Some ippinfo) (Some {| device.Transport := Some t |}) = (err, services) ->
  0 <= device.IppPrinterInfo.IppSvcIndex ippinfo ->
  services !! Z.to_nat (device.IppPrinterInfo.IppSvcIndex ippinfo) = Some svc ->
  let i := Z.to_nat (device.IppPrinterInfo.IppSvcIndex ippinfo) in
  let flag := match err with None => "T" | Some _ => "F" end in
  let st' := DeviceSpec.state_after (Some ippinfo) (device.ut_info t) st in
  let dev := DeviceSpec.assembled desc t l st' in
  let proxy := {| device.proxy_log := Some (device.ut_log t);
                  device.proxy_listener := l;
                  device.proxy_transport := Some t |} in
  exists services' : device.DNSSdServices,
    (* the amended set *)
    device.NewDevice_scan (Some ippinfo) err services = device.MkRun (Ret services') [] /\
    services' !! i =
      Some {| device.Type_ := device.Type_ svc; device.Port := device.Port svc;
              device.Txt := device.Txt svc ++
                            [{| device.Key := "Scan"; device.Value := flag |}] |} /\
    length services' = length services /\
    (forall j : nat, j <> i -> services' !! j = services !! j) /\
    (* the run of NewDevice *)
    let pub := {| device.pub_log := Some (device.ut_log t);
                  device.pub_state := Some st';
                  device.pub_services :=
                    services' ++ [{| device.Type_ := "_http._tcp";
                                     device.Port := device.DevState.HTTPPort st';
                                     device.Txt := [] |}] |} in
    device.NewDevice E desc =
      device.prepend (DeviceSpec.prefix_events t l (Some ippinfo) st)
        (if device.Conf_DNSSdEnable E
         then match device.Publish E pub with
              | None =>
                  device.MkRun
                    (Ret (Some (device.Device.set_DNSSdPublisher (Some pub) dev), None))
                    [device.Acquire (device.RPublisher pub)]
              | Some e =>
                  device.MkRun (Ret (None, Some e))
                    ([device.Release (device.RProxy proxy);
                      device.Release (device.RTransport t)] ++
                     DeviceSpec.release_events (device.RListener <$> l))
              end
         else device.MkRun (Ret (Some dev, None)) []).
Proof.
  intros H1 H2 H3 H4 H0 Hs i flag st' dev proxy.
  pose proof (NewDevice_scan_in_range ippinfo err services svc H0 Hs) as Hscan.
  fold i in Hscan.
  exists (<[i := DeviceSpec.with_txt svc "Scan" (DeviceSpec.scan_flag err)]> services).
  pose proof (lookup_lt_Some _ _ _ Hs) as Hlt. fold i in Hlt.
  split; [exact Hscan|]. split.
  { rewrite list_lookup_insert_eq by exact Hlt. subst flag. destruct err; reflexivity. }
  split; [apply length_insert|].
  split; [intros j Hj; apply list_lookup_insert_ne; auto|].
  intros pub.
  rewrite (NewDevice_path E desc t H1 l st H2 (Some ippinfo) e1 s1 H3 err services H4).
  f_equal. rewrite Hscan, run_bind_Ret, prepend_nil.
  rewrite (NewDevice_publish_run E dev l _ st' eq_refl). cbv zeta.
  destruct (device.Conf_DNSSdEnable E); [|reflexivity].
  change (DeviceSpec.publisher dev _) with pub.
  destruct (device.Publish E pub); reflexivity.
Qed.

Lemma NewDevice_scan_flag_in_place_witness :
  device.NewDevice
    (DeviceInputs.env None (Some "Acme X1") (Some "eSCL: no response") None)
    DeviceInputs.desc0 =
  device.MkRun (Ret (Some MoreInputs.dev_scan_failed, None))
    [ device.Acquire (device.RTransport DeviceInputs.transport0);
      device.Acquire (device.RListener DeviceInputs.listener0);
      device.Acquire (device.RProxy DeviceInputs.proxy0);
      device.Acquire (device.RPublisher MoreInputs.publisher_scan_failed) ].
Proof.
  destruct (NewDevice_scan_flag_in_place
              (DeviceInputs.env None (Some "Acme X1") (Some "eSCL: no response") None)
              DeviceInputs.desc0 DeviceInputs.transport0 (Some DeviceInputs.listener0)
              DeviceInputs.state0
              {| device.IppPrinterInfo.DNSSdName := "Acme X1";
                 device.IppPrinterInfo.IppSvcIndex := 0 |}
              None (Some "eSCL: no response")
              [DeviceInputs.ipp_svc] [DeviceInputs.ipp_svc] DeviceInputs.ipp_svc
              eq_refl eq_refl eq_refl eq_refl ltac:(vm_compute; discriminate) eq_refl)
    as (services' & Hscan & _ & _ & _ & Hrun).
  vm_compute in Hscan. injection Hscan as <-.
  rewrite Hrun. reflexivity.
Defined.

(** *** The write-back of the state *)

(** C8. During a construction that has acquired the transport and the
    listener, the state is saved exactly when the resolved name differs
    from the stored one.  When the names are equal nothing is saved and a
    Device that is returned holds the state as the listener call left it;
    when they differ the state is saved once, with the resolved name as
    its name and as its override, and a Device that is returned holds that
    state. *)
Theorem NewDevice_saves_iff_name_changed
  (E : device.Env) (desc : device.UsbDeviceDesc) (t : device.UsbTransport)
  (l : option device.Listener) (st : device.DevState.t)
  (ippinfo : option device.IppPrinterInfo.t) (e1 : option error)
  (s1 : device.DNSSdServices) :
  device.NewUsbTransport E desc = (Some t, None) ->
  device.HTTPListen E
    (device.LoadDevState E (device.UsbDeviceInfo.Ident (device.ut_info t))
                           (device.UsbDeviceInfo.Comment (device.ut_info t)))
    = (l, None, st) ->
  device.IppService E [] (device.DevState.HTTPPort st) (device.ut_info t)
    (Some {| device.Transport := Some t |}) = (ippinfo, e1, s1) ->
  let name := DeviceSpec.resolved_name ippinfo (device.ut_info t) in
  let run := device.NewDevice E desc in
  (name = device.DevState.DNSSdName st ->
     DeviceSpec.saved (device.trace run) = [] /\
     forall dev e, device.result run = Ret (Some dev, e) ->
                   device.Device.State dev = Some st) /\
  (name <> device.DevState.DNSSdName st ->
     DeviceSpec.saved (device.trace run) =
       [ {| device.DevState.DNSSdName := name;
            device.DevState.DNSSdOverride := name;
            device.DevState.HTTPPort := device.DevState.HTTPPort st |} ] /\
     forall dev e, device.result run = Ret (Some dev, e) ->
                   device.Device.State dev =
                   Some {| device.DevState.DNSSdName := name;
                           device.DevState.DNSSdOverride := name;
                           device.DevState.HTTPPort := device.DevState.HTTPPort st |}).
Proof.
  intros H1 H2 H3 name run.
  destruct (device.EsclService E s1 (device.DevState.HTTPPort st) (device.ut_info t)
              ippinfo (Some {| device.Transport := Some t |})) as [e2 s2] eqn:H4.
  assert (Hrun : DeviceSpec.saved (device.trace run) =
                 (if String.eqb name (device.DevState.DNSSdName st) then []
                  else [DeviceSpec.renamed name st]) /\
                 forall dev e, device.result run = Ret (Some dev, e) ->
                   device.Device.State dev =
                   Some (DeviceSpec.state_after ippinfo (device.ut_info t) st)).
  { subst run.
    rewrite (NewDevice_path E desc t H1 l st H2 ippinfo e1 s1 H3 e2 s2 H4).
    destruct (prefix_events_acquired t l ippinfo st) as (_ & _ & Hsv).
    fold name in Hsv.
    destruct (NewDevice_tail E desc t l
                (DeviceSpec.state_after ippinfo (device.ut_info t) st) ippinfo e2 s2)
      as [[_ ->]|(services' & _ & [[_ ->]|[(_ & _ & ->)|(e' & _ & _ & ->)]])];
      cbn [device.prepend device.trace device.result];
      rewrite saved_app, Hsv.
    - split; [apply app_nil_r|discriminate].
    - split; [apply app_nil_r|]. intros dev e [= <- _]. reflexivity.
    - split; [apply app_nil_r|]. intros dev e [= <- _]. reflexivity.
    - split; [|discriminate]. destruct l; apply app_nil_r. }
  destruct Hrun as [Hsaved Hstate]. unfold DeviceSpec.state_after in Hstate.
  fold name in Hstate. split; intros Hname.
  - apply String.eqb_eq in Hname. rewrite Hname in Hsaved, Hstate. auto.
  - apply String.eqb_neq in Hname. rewrite Hname in Hsaved, Hstate. auto.
Qed.

Lemma NewDevice_saves_iff_name_changed_witness :
  DeviceSpec.saved
    (device.trace
       (device.NewDevice (DeviceInputs.env None (Some "Acme X1") None None)
                         DeviceInputs.desc0)) = [] /\
  DeviceSpec.saved
    (device.trace
       (device.NewDevice (DeviceInputs.env None (Some "Acme X2") None None)
                         DeviceInputs.desc0)) =
    [ {| device.DevState.DNSSdName := "Acme X2";
         device.DevState.DNSSdOverride := "Acme X2";
         device.DevState.HTTPPort := 60000 |} ].
Proof.
  split.
  - exact (proj1 (proj1 (NewDevice_saves_iff_name_changed
                           (DeviceInputs.env None (Some "Acme X1") None None)
                           DeviceInputs.desc0 DeviceInputs.transport0
                           (Some DeviceInputs.listener0) DeviceInputs.state0
                           (Some {| device.IppPrinterInfo.DNSSdName := "Acme X1";
                                    device.IppPrinterInfo.IppSvcIndex := 0 |})
                           None [DeviceInputs.ipp_svc] eq_refl eq_refl eq_refl)
                    eq_refl)).
  - exact (proj1 (proj2 (NewDevice_saves_iff_name_changed
                           (DeviceInputs.env None (Some "Acme X2") None None)
                           DeviceInputs.desc0 DeviceInputs.transport0
                           (Some DeviceInputs.listener0) DeviceInputs.state0
                           (Some {| device.IppPrinterInfo.DNSSdName := "Acme X2";
                                    device.IppPrinterInfo.IppSvcIndex := 0 |})
                           None [DeviceInputs.ipp_svc] eq_refl eq_refl eq_refl)
                    ltac:(discriminate))).
Defined.

(** *** Shutdown and Close *)

Section Teardown.
Import device.

(** [Close] closes what is live, the publisher first, then the proxy,
    then the transport, and leaves the three references nil. *)
Lemma Close_run (dev : Device.t) :
  Close dev =
  MkRun (Ret (DeviceSpec.closed dev))
        (DeviceSpec.release_events (RPublisher <$> Device.DNSSdPublisher dev) ++
         DeviceSpec.release_events (RProxy <$> Device.HTTPProxy dev) ++
         DeviceSpec.release_events (RTransport <$> Device.UsbTransport dev)).
Proof.
  destruct dev as [addr state client [proxy|] [transport|] [publisher|] log];
    reflexivity.
Qed.

(** [Shutdown] unpublishes and closes the proxy, if they are live, and
    leaves their references nil; it asks a live transport to shut down
    and leaves its reference as it was. *)
Lemma Shutdown_run (E : Env) (dev : Device.t) (ctx : Context) :
  Shutdown E dev ctx =
  MkRun (Ret (DeviceSpec.shut_down dev,
              t ← Device.UsbTransport dev; TransportShutdown E t ctx))
        (DeviceSpec.release_events (RPublisher <$> Device.DNSSdPublisher dev) ++
         DeviceSpec.release_events (RProxy <$> Device.HTTPProxy dev) ++
         DeviceSpec.shutdown_events (Device.UsbTransport dev) ctx).
Proof.
  destruct dev as [addr state client [proxy|] [transport|] [publisher|] log];
    reflexivity.
Qed.

End Teardown.

(** C2, as the specification states it, fails: on a running Device,
    Shutdown asks the transport to shut down and leaves the reference to
    it live, so that a second Shutdown asks it again and a Close after it
    closes it. *)
Lemma Shutdown_keeps_transport_reference :
  let E := DeviceInputs.env None None None None in
  let run := device.Shutdown E DeviceInputs.dev_running 0%nat in
  device.trace run =
    [device.Release (device.RPublisher DeviceInputs.publisher0);
     device.Release (device.RProxy DeviceInputs.proxy0);
     device.ShutdownTransport DeviceInputs.transport0 0%nat] /\
  device.result run = Ret (DeviceSpec.shut_down DeviceInputs.dev_running, None) /\
  device.Device.UsbTransport (DeviceSpec.shut_down DeviceInputs.dev_running) =
    Some DeviceInputs.transport0 /\
  device.trace (device.Shutdown E (DeviceSpec.shut_down DeviceInputs.dev_running) 0%nat) =
    [device.ShutdownTransport DeviceInputs.transport0 0%nat] /\
  device.trace (device.Close (DeviceSpec.shut_down DeviceInputs.dev_running)) =
    [device.Release (device.RTransport DeviceInputs.transport0)] /\
  ~ DeviceSpec.idempotent_as_stated E.
Proof.
  repeat split; try reflexivity.
  intros H.
  destruct (H DeviceInputs.dev_running 0%nat) as [Hclears _].
  apply (Hclears (DeviceSpec.shut_down DeviceInputs.dev_running, None)
                 (device.RTransport DeviceInputs.transport0)
                 (device.ShutdownTransport DeviceInputs.transport0 0%nat)).
  - reflexivity.
  - simpl. auto.
  - reflexivity.
  - reflexivity.
Qed.

(** C2, amended. Neither Shutdown nor Close panics, on any Device.  Close
    is idempotent: each of its steps releases a resource only when its
    reference is live and clears the reference at once, so that a second
    Close releases nothing.  Shutdown does so for the publisher and the
    proxy; a live transport it asks to shut down and leaves its reference
    as it was.  Hence Shutdown followed by Close unpublishes once, closes
    the proxy once, shuts the transport down once and then closes it once,
    and a second Shutdown asks the transport to shut down again and
    releases nothing else. *)
Theorem Close_idempotent_Shutdown_keeps_transport
  (E : device.Env) (dev : device.Device.t) (ctx : device.Context) :
  let publisher := device.RPublisher <$> device.Device.DNSSdPublisher dev in
  let proxy := device.RProxy <$> device.Device.HTTPProxy dev in
  let transport := device.RTransport <$> device.Device.UsbTransport dev in
  (* one call *)
  device.Close dev =
    device.MkRun (Ret (DeviceSpec.closed dev))
      (DeviceSpec.release_events publisher ++ DeviceSpec.release_events proxy ++
       DeviceSpec.release_events transport) /\
  (exists err,
     device.Shutdown E dev ctx =
       device.MkRun (Ret (DeviceSpec.shut_down dev, err))
         (DeviceSpec.release_events publisher ++ DeviceSpec.release_events proxy ++
          DeviceSpec.shutdown_events (device.Device.UsbTransport dev) ctx)) /\
  (* the references afterwards *)
  (device.Device.DNSSdPublisher (DeviceSpec.closed dev) = None /\
   device.Device.HTTPProxy (DeviceSpec.closed dev) = None /\
   device.Device.UsbTransport (DeviceSpec.closed dev) = None) /\
  (device.Device.DNSSdPublisher (DeviceSpec.shut_down dev) = None /\
   device.Device.HTTPProxy (DeviceSpec.shut_down dev) = None /\
   device.Device.UsbTransport (DeviceSpec.shut_down dev) =
     device.Device.UsbTransport dev) /\
  DeviceSpec.clears_what_it_releases (device.Close dev) id /\
  (* a second call *)
  device.Close (DeviceSpec.closed dev) =
    device.MkRun (Ret (DeviceSpec.closed dev)) [] /\
  device.Shutdown E (DeviceSpec.closed dev) ctx =
    device.MkRun (Ret (DeviceSpec.closed dev, None)) [] /\
  device.Close (DeviceSpec.shut_down dev) =
    device.MkRun (Ret (DeviceSpec.closed dev)) (DeviceSpec.release_events transport) /\
  (exists err,
     device.Shutdown E (DeviceSpec.shut_down dev) ctx =
       device.MkRun (Ret (DeviceSpec.shut_down dev, err))
         (DeviceSpec.shutdown_events (device.Device.UsbTransport dev) ctx)).
Proof.
  intros publisher proxy transport.
  split; [apply Close_run|].
  split; [eexists; apply Shutdown_run|].
  split; [repeat split|]. split; [repeat split|].
  split.
  { intros a r e Hres Hin Hgb Hholds. rewrite Close_run in Hres.
    injection Hres as <-. destruct r; simpl in Hholds; discriminate || exact Hholds. }
  split; [apply (Close_run (DeviceSpec.closed dev))|].
  split; [apply (Shutdown_run E (DeviceSpec.closed dev) ctx)|].
  split.
  { rewrite Close_run. reflexivity. }
  eexists. rewrite Shutdown_run. reflexivity.
Qed.

(* ===================================================================== *)
(** ** Further properties of ipp.go                                       *)
(* ===================================================================== *)

(** *** The lookups on any store *)

(** [getAttr] stops at the first name that is in the store with no value
    or with a first value of the requested type. *)
Lemma getAttr_cases (attrs : gmap string goipp.Values) (t : goipp.Type_)
  (names : list string) :
  ipp.getAttr attrs t names =
  match find (Derived.stops attrs t) names with
  | None => Ret None
  | Some n =>
      match attrs !! n with
      | Some ((_, v0) :: rest) => Ret (Some (v0 :: map snd rest))
      | _ => Panic IndexOutOfRange
      end
  end.
Proof.
  induction names as [|name names IH]; [reflexivity|].
  rewrite getAttr_cons. cbn [find]. unfold Derived.stops at 1.
  destruct (attrs !! name) as [[|[tag v0] rest]|] eqn:E.
  - rewrite E. reflexivity.
  - destruct (decide (goipp.TypeOf v0 = t)) as [Ht|Hn].
    + rewrite (bool_decide_eq_true_2 _ Ht), E. reflexivity.
    + rewrite (bool_decide_eq_false_2 _ Hn). exact IH.
  - exact IH.
Qed.

Lemma getAttr_Panic (attrs : gmap string goipp.Values) (t : goipp.Type_)
  (names : list string) (p : Go.panic) :
  ipp.getAttr attrs t names = Panic p ->
  p = IndexOutOfRange /\ exists n, In n names /\ attrs !! n = Some [].
Proof.
  rewrite getAttr_cases.
  destruct (find (Derived.stops attrs t) names) as [n|] eqn:F; [|discriminate].
  apply find_some in F as [Hin Hs]. unfold Derived.stops in Hs.
  destruct (attrs !! n) as [[|[tag v0] rest]|] eqn:E; try discriminate.
  intros [= <-]. eauto.
Qed.

Lemma getAttr_nonempty (attrs : gmap string goipp.Values) (t : goipp.Type_)
  (names : list string) :
  Derived.nonempty_values attrs names ->
  ipp.getAttr attrs t names = Ret (map snd <$> Spec.typed_values attrs t names).
Proof.
  intros Hne. destruct (ipp.getAttr attrs t names) as [r|p] eqn:E.
  - f_equal. apply getAttr_Ret. exact E.
  - apply getAttr_Panic in E as (_ & n & Hin & Hn). destruct (Hne n Hin Hn).
Qed.

(** X1. On every store, for every type and every list of names, [getAttr]
    never fails a type assertion: it panics only with an index out of
    range, and only when one of the names is in the store with an empty
    list of values; whenever it returns, it returns nil or the values of
    the first name whose first value has the requested type, and a slice
    that is not nil is not empty and starts with a value of that type;
    and it does return when none of the names has an empty list of
    values. *)
Theorem getAttr_outcomes (attrs : gmap string goipp.Values) (t : goipp.Type_)
  (names : list string) :
  (forall p, ipp.getAttr attrs t names = Panic p ->
             p = IndexOutOfRange /\ exists n, In n names /\ attrs !! n = Some []) /\
  (forall r, ipp.getAttr attrs t names = Ret r ->
             r = map snd <$> Spec.typed_values attrs t names) /\
  (forall vals, ipp.getAttr attrs t names = Ret (Some vals) ->
                exists v0 rest, vals = v0 :: rest /\ goipp.TypeOf v0 = t) /\
  (Derived.nonempty_values attrs names ->
   ipp.getAttr attrs t names = Ret (map snd <$> Spec.typed_values attrs t names)).
Proof.
  split; [apply getAttr_Panic|]. split; [apply getAttr_Ret|].
  split; [apply getAttr_admits|apply getAttr_nonempty].
Qed.

Lemma getAttr_outcomes_witness :
  (IndexOutOfRange = IndexOutOfRange /\
   exists n, In n ["color-supported"] /\ MoreInputs.store_no_values !! n = Some []) /\
  ipp.getAttr Inputs.store_only_model goipp.TypeString
              ["printer-info"; "printer-make-and-model"] =
    Ret (Some [goipp.String "Acme X1"]).
Proof.
  split.
  - exact (proj1 (getAttr_outcomes MoreInputs.store_no_values goipp.TypeBoolean
                    ["color-supported"]) IndexOutOfRange eq_refl).
  - apply (proj2 (proj2 (proj2 (getAttr_outcomes Inputs.store_only_model
                                  goipp.TypeString
                                  ["printer-info"; "printer-make-and-model"])))).
    intros n [<-|[<-|[]]]; vm_compute; discriminate.
Defined.

(** The loop of [getStrings]: it fills the made slice with the strings,
    and panics at a value that is not a string. *)
Lemma getStrings_fill_loop_cases (vs : goipp.Values) :
  forall done : list string,
    foldM ipp.getStrings_fill (Some (done ++ repeat "" (length vs)))
          (imap (fun i v => ((length done + i)%nat, v)) (map snd vs)) =
    if forallb (fun tv => Derived.is_string tv.2) vs
    then Ret (Some (done ++ Spec.strings_of vs))
    else Panic TypeAssertion.
Proof.
  induction vs as [|[tag v] vs IH]; intros done.
  - simpl. rewrite app_nil_r. reflexivity.
  - cbn [map imap length repeat forallb snd]. rewrite foldM_cons.
    unfold ipp.getStrings_fill at 1.
    destruct v as [| | |s| | | | | |]; try reflexivity.
    cbn [goipp.as_String Go.elems Derived.is_string andb]. rewrite bind_Ret.
    rewrite Nat.add_0_r, store_step, bind_Ret. cbn [Go.bind].
    specialize (IH (done ++ [s])). rewrite <- !app_assoc in IH. cbn [app] in IH.
    unfold Spec.strings_of in *. cbn [omap list_omap snd].
    rewrite <- IH. f_equal. apply imap_ext. intros i v _.
    unfold compose. rewrite length_app. cbn [length]. f_equal. lia.
Qed.

Lemma getStrings_nonempty (attrs : gmap string goipp.Values) (names : list string) :
  Derived.nonempty_values attrs names ->
  ipp.getStrings attrs names =
  match Spec.typed_values attrs goipp.TypeString names with
  | None => Ret (Some [])
  | Some vs =>
      if forallb (fun tv => Derived.is_string tv.2) vs
      then Ret (Some (Spec.strings_of vs))
      else Panic TypeAssertion
  end.
Proof.
  intros Hne. unfold ipp.getStrings. rewrite getAttr_nonempty by exact Hne.
  rewrite bind_Ret.
  destruct (Spec.typed_values attrs goipp.TypeString names) as [vs|]; [|reflexivity].
  cbn [fmap option_fmap option_map Go.elems Go.len]. unfold Go.make, Go.len.
  cbn [Go.elems]. rewrite length_map.
  apply (getStrings_fill_loop_cases vs []).
Qed.

(** X2. [getStrings] never returns a nil slice, on any store: where no
    name is found it returns the empty slice that [make] allocated.  On a
    store in which none of the names has an empty list of values it
    returns the empty slice when no name is present with a string-typed
    first value, the strings of the first such name when all its values
    are strings, and it fails a type assertion when a later value of that
    name is not a string. *)
Theorem getStrings_outcomes (attrs : gmap string goipp.Values) (names : list string) :
  (forall strs, ipp.getStrings attrs names = Ret strs -> strs <> None) /\
  (Derived.nonempty_values attrs names ->
   ipp.getStrings attrs names =
   match Spec.typed_values attrs goipp.TypeString names with
   | None => Ret (Some [])
   | Some vs =>
       if forallb (fun tv => Derived.is_string tv.2) vs
       then Ret (Some (Spec.strings_of vs))
       else Panic TypeAssertion
   end).
Proof.
  split; [|apply getStrings_nonempty].
  intros strs H. apply getStrings_Ret in H as (ss & -> & _). discriminate.
Qed.

Lemma getStrings_outcomes_witness :
  ipp.getStrings MoreInputs.store_kind ["printer-kind"] =
    Ret (Some ["document"; "photo"]) /\
  ipp.getStrings MoreInputs.store_kind ["printer-info"] = Ret (Some []) /\
  ipp.getStrings Inputs.store_mixed_sides ["sides-supported"] = Panic TypeAssertion.
Proof.
  split; [|split].
  - apply (proj2 (getStrings_outcomes MoreInputs.store_kind ["printer-kind"])).
    intros n [<-|[]]; vm_compute; discriminate.
  - apply (proj2 (getStrings_outcomes MoreInputs.store_kind ["printer-info"])).
    intros n [<-|[]]; vm_compute; discriminate.
  - apply (proj2 (getStrings_outcomes Inputs.store_mixed_sides ["sides-supported"])).
    intros n [<-|[]]; vm_compute; discriminate.
Defined.

(** X3. On a store in which none of the names has an empty list of
    values, [strSingle] returns the first value of the first name that is
    present with a string-typed first value, provided that all the values
    of that name are strings; it fails a type assertion when a later value
    of that name is not a string, although it uses the first value only;
    and when no name is present with a string-typed first value it panics
    with an index out of range and does not return the empty string. *)
Theorem strSingle_outcomes (attrs : gmap string goipp.Values) (names : list string) :
  Derived.nonempty_values attrs names ->
  ipp.strSingle attrs names =
  match Spec.typed_values attrs goipp.TypeString names with
  | None => Panic IndexOutOfRange
  | Some vs =>
      if forallb (fun tv => Derived.is_string tv.2) vs
      then match vs with
           | (_, goipp.String s) :: _ => Ret s
           | _ => Panic IndexOutOfRange
           end
      else Panic TypeAssertion
  end /\
  forall s, ipp.strSingle attrs names = Ret s ->
            exists n tag rest, In n names /\
                               attrs !! n = Some ((tag, goipp.String s) :: rest).
Proof.
  intros Hne. split.
  - unfold ipp.strSingle. rewrite getStrings_nonempty by exact Hne.
    destruct (Spec.typed_values attrs goipp.TypeString names) as [vs|];
      [|reflexivity].
    destruct (forallb _ vs) eqn:Hall; [|reflexivity].
    rewrite bind_Ret. destruct vs as [|[tag v] vs]; [reflexivity|].
    destruct v; try discriminate. reflexivity.
  - intros s H. apply strSingle_Ret in H as (n & tag & rest & Hn & E).
    exists n, tag, rest. split; [|exact E].
    unfold Spec.first_typed in Hn. apply find_some in Hn as [Hin _]. exact Hin.
Qed.

Lemma strSingle_outcomes_witness :
  ipp.strSingle MoreInputs.store_kind ["printer-kind"] = Ret "document" /\
  ipp.strSingle Inputs.store_mixed_sides ["sides-supported"] = Panic TypeAssertion /\
  ipp.strSingle MoreInputs.store_kind ["printer-info"] = Panic IndexOutOfRange.
Proof.
  split; [|split].
  - apply (proj1 (strSingle_outcomes MoreInputs.store_kind ["printer-kind"]
                    ltac:(intros n [<-|[]]; vm_compute; discriminate))).
  - apply (proj1 (strSingle_outcomes Inputs.store_mixed_sides ["sides-supported"]
                    ltac:(intros n [<-|[]]; vm_compute; discriminate))).
  - apply (proj1 (strSingle_outcomes MoreInputs.store_kind ["printer-info"]
                    ltac:(intros n [<-|[]]; vm_compute; discriminate))).
Defined.

(** X4. On a store in which none of the names has an empty list of
    values, [strJoined] returns the strings of the first name that is
    present with a string-typed first value, joined by commas, when all
    its values are strings; it returns the empty string, and does not
    panic, when no such name is present; and it fails a type assertion
    when a later value of that name is not a string. *)
Theorem strJoined_outcomes (attrs : gmap string goipp.Values) (names : list string) :
  Derived.nonempty_values attrs names ->
  ipp.strJoined attrs names =
  match Spec.typed_values attrs goipp.TypeString names with
  | None => Ret ""
  | Some vs =>
      if forallb (fun tv => Derived.is_string tv.2) vs
      then Ret (strings.Join (Spec.strings_of vs) ",")
      else Panic TypeAssertion
  end.
Proof.
  intros Hne. unfold ipp.strJoined. rewrite getStrings_nonempty by exact Hne.
  destruct (Spec.typed_values attrs goipp.TypeString names) as [vs|]; [|reflexivity].
  destruct (forallb _ vs); reflexivity.
Qed.

Lemma strJoined_outcomes_witness :
  ipp.strJoined MoreInputs.store_kind ["printer-kind"] = Ret "document,photo" /\
  ipp.strJoined MoreInputs.store_kind ["urf-supported"] = Ret "".
Proof.
  split.
  - apply (strJoined_outcomes MoreInputs.store_kind ["printer-kind"]).
    intros n [<-|[]]; vm_compute; discriminate.
  - apply (strJoined_outcomes MoreInputs.store_kind ["urf-supported"]).
    intros n [<-|[]]; vm_compute; discriminate.
Defined.

(** X5. [getBool] never fails a type assertion, on any store: it looks at
    the first value only, and [getAttr] has checked its type.  It panics
    only with an index out of range, when one of the names has an empty
    list of values; else it returns "T" or "F" for the first value of the
    first name that is present with a boolean first value, whatever the
    later values are, and the empty string when there is no such name. *)
Theorem getBool_outcomes (attrs : gmap string goipp.Values) (names : list string) :
  (forall p, ipp.getBool attrs names = Panic p ->
             p = IndexOutOfRange /\ exists n, In n names /\ attrs !! n = Some []) /\
  (forall s, ipp.getBool attrs names = Ret s -> s = Derived.bool_text attrs names) /\
  (Derived.nonempty_values attrs names ->
   ipp.getBool attrs names = Ret (Derived.bool_text attrs names)).
Proof.
  assert (Hret : forall r, ipp.getAttr attrs goipp.TypeBoolean names = Ret r ->
                           ipp.getBool attrs names = Ret (Derived.bool_text attrs names)).
  { intros r Hr. unfold ipp.getBool, Derived.bool_text. rewrite Hr, bind_Ret.
    pose proof (getAttr_Ret _ _ _ _ Hr) as ->.
    destruct (Spec.typed_values attrs goipp.TypeBoolean names) as [vs|] eqn:E;
      [|reflexivity].
    apply typed_values_Some in E as (n & tag & v0 & rest & _ & _ & -> & Ht).
    destruct v0 as [| |[|]| | | | | | |]; try discriminate; reflexivity. }
  split; [|split].
  - intros p H. apply getAttr_Panic with (t := goipp.TypeBoolean).
    destruct (ipp.getAttr attrs goipp.TypeBoolean names) as [r|p'] eqn:E.
    + rewrite (Hret r eq_refl) in H. discriminate.
    + unfold ipp.getBool in H. rewrite E in H. injection H as <-. reflexivity.
  - intros s H.
    destruct (ipp.getAttr attrs goipp.TypeBoolean names) as [r|p'] eqn:E.
    + rewrite (Hret r eq_refl) in H. injection H as <-. reflexivity.
    + unfold ipp.getBool in H. rewrite E in H. discriminate.
  - intros Hne. apply (Hret _ (getAttr_nonempty attrs goipp.TypeBoolean names Hne)).
Qed.

Lemma getBool_outcomes_witness :
  (IndexOutOfRange = IndexOutOfRange /\
   exists n, In n ["color-supported"] /\ MoreInputs.store_no_values !! n = Some []) /\
  ipp.getBool MoreInputs.store_color ["color-supported"] = Ret "T".
Proof.
  split.
  - exact (proj1 (getBool_outcomes MoreInputs.store_no_values ["color-supported"])
             IndexOutOfRange eq_refl).
  - apply (proj2 (proj2 (getBool_outcomes MoreInputs.store_color ["color-supported"]))).
    intros n [<-|[]]; vm_compute; discriminate.
Defined.

(** *** The duplex flag *)

(** A string does not start with "one" and with "two". *)
Lemma HasPrefix_one_two (s : string) :
  strings.HasPrefix s "one" = true -> strings.HasPrefix s "two" = false.
Proof.
  destruct s as [|c s]; [discriminate|]. cbn [strings.HasPrefix].
  destruct (Ascii.eqb_spec c "o") as [->|_]; [reflexivity|discriminate].
Qed.

(** The loop of [getDuplex] over strings: each flag is raised by a string
    with its prefix, and never lowered. *)
Lemma getDuplex_loop_flags (ss : list string) :
  forall one two : bool,
    foldM ipp.getDuplex_value (one, two) (map goipp.String ss) =
    Ret (one || existsb (fun s => strings.HasPrefix s "one") ss,
         two || existsb (fun s => strings.HasPrefix s "two") ss).
Proof.
  induction ss as [|s ss IH]; intros one two.
  - cbn [map foldM existsb]. rewrite !orb_false_r. reflexivity.
  - cbn [map existsb]. rewrite foldM_cons. unfold ipp.getDuplex_value at 1.
    cbn [goipp.as_String]. rewrite bind_Ret.
    destruct (strings.HasPrefix s "one") eqn:H1.
    + rewrite (HasPrefix_one_two s H1). cbn [Go.bind]. rewrite IH.
      cbn [orb]. rewrite orb_true_r. reflexivity.
    + destruct (strings.HasPrefix s "two"); cbn [Go.bind]; rewrite IH; cbn [orb];
        rewrite ?orb_true_r; reflexivity.
Qed.

(** The loop of [getDuplex] panics when a value is not a string. *)
Lemma getDuplex_loop_cases (vs : goipp.Values) :
  forall flags : bool * bool,
    forallb (fun tv => Derived.is_string tv.2) vs = false ->
    foldM ipp.getDuplex_value flags (map snd vs) = Panic TypeAssertion.
Proof.
  induction vs as [|[tag v] vs IH]; intros [one two] H; [discriminate|].
  cbn [map snd forallb] in *. rewrite foldM_cons. unfold ipp.getDuplex_value at 1.
  destruct v as [| | |s| | | | | |]; try reflexivity.
  cbn [goipp.as_String Derived.is_string andb] in *. rewrite bind_Ret.
  destruct (strings.HasPrefix s "one"); [apply IH; exact H|].
  destruct (strings.HasPrefix s "two"); apply IH; exact H.
Qed.

Lemma all_strings (vs : goipp.Values) :
  forallb (fun tv => Derived.is_string tv.2) vs = true ->
  map snd vs = map goipp.String (Spec.strings_of vs).
Proof.
  induction vs as [|[tag v] vs IH]; [reflexivity|].
  cbn [forallb snd]. intros H. apply andb_true_iff in H as [Hv H].
  destruct v; try discriminate.
  unfold Spec.strings_of in *. cbn [map omap list_omap snd]. f_equal. exact (IH H).
Qed.

(** X6. [getDuplex], on any store: when "sides-supported" is absent or
    its first value is not a string, the flag is empty; when all its
    values are strings, the flag is "T" if one of them starts with "two",
    whatever else is listed and in whatever order, else "F" if one starts
    with "one", else empty; when its first value is a string and a later
    one is not, a type assertion fails; and with an empty list of values
    the index is out of range. *)
Theorem getDuplex_outcomes (attrs : gmap string goipp.Values) :
  ipp.getDuplex attrs =
  match attrs !! "sides-supported" with
  | None => Ret ""
  | Some [] => Panic IndexOutOfRange
  | Some (((_, goipp.String _) :: _) as vs) =>
      if forallb (fun tv => Derived.is_string tv.2) vs
      then Ret (Derived.Duplex (Spec.strings_of vs))
      else Panic TypeAssertion
  | Some _ => Ret ""
  end.
Proof.
  unfold ipp.getDuplex. rewrite getAttr_cons.
  destruct (attrs !! "sides-supported") as [[|[tag v0] rest]|]; try reflexivity.
  destruct v0 as [| | |s0| | | | | |]; try reflexivity.
  destruct (decide _) as [_|Hn]; [|exfalso; apply Hn; reflexivity].
  rewrite bind_Ret. cbn [Go.elems].
  change (goipp.String s0 :: map snd rest) with (map snd ((tag, goipp.String s0) :: rest)).
  destruct (forallb _ ((tag, goipp.String s0) :: rest)) eqn:Hall.
  - rewrite (all_strings _ Hall), getDuplex_loop_flags, bind_Ret.
    unfold Derived.Duplex. cbn [orb].
    destruct (existsb (fun s => strings.HasPrefix s "two") _); [reflexivity|].
    destruct (existsb (fun s => strings.HasPrefix s "one") _); reflexivity.
  - rewrite (getDuplex_loop_cases _ (false, false) Hall). reflexivity.
Qed.

(** *** The paper class grows with the sizes *)

(** The class of a larger pair of maxima is not smaller. *)
Lemma getPaperMax_classify_monotone (x y x' y' : Z) :
  x <= x' -> y <= y' ->
  (Derived.PaperMax_rank (ipp.getPaperMax_classify x y) <=
   Derived.PaperMax_rank (ipp.getPaperMax_classify x' y'))%nat.
Proof.
  intros Hx Hy. unfold ipp.getPaperMax_classify.
  unfold ipp.isoC_a2_x, ipp.isoC_a2_y, ipp.tabloid_a3_x, ipp.tabloid_a3_y,
    ipp.legal_a4_x, ipp.legal_a4_y.
  rewrite !Z.gtb_ltb, !Z.geb_leb.
  repeat match goal with
         | |- context [?a <? ?b] =>
             destruct (Z.ltb_spec a b); try (exfalso; lia)
         | |- context [?a <=? ?b] =>
             destruct (Z.leb_spec a b); try (exfalso; lia)
         end;
    cbn [andb]; vm_compute; lia.
Qed.

Lemma foldr_max_base (l : list Z) (b b' : Z) :
  b <= b' -> foldr Z.max b l <= foldr Z.max b' l.
Proof.
  intros Hb. induction l as [|d l IH]; cbn [foldr]; [exact Hb|].
  apply Z.max_le_compat_l. exact IH.
Qed.

Lemma foldr_max_nonneg (l : list Z) : 0 <= foldr Z.max 0 l.
Proof.
  induction l as [|d l IH]; cbn [foldr]; [reflexivity|].
  etransitivity; [exact IH|apply Z.le_max_r].
Qed.

(** One more entry does not lower the maximum of a dimension. *)
Lemma max_dimension_snoc (name : string) (entries : list (list goipp.Attribute))
  (entry : list goipp.Attribute) :
  Spec.max_dimension name entries <= Spec.max_dimension name (entries ++ [entry]).
Proof.
  unfold Spec.max_dimension. rewrite omap_app, foldr_app.
  apply foldr_max_base. apply foldr_max_nonneg.
Qed.

(** The paper class of a store after one more entry of
    "media-size-supported". *)
Lemma PaperMax_snoc (attrs : gmap string goipp.Values) (vs : goipp.Values)
  (tag : goipp.Tag) (entry : list goipp.Attribute) :
  attrs !! "media-size-supported" = Some vs ->
  (Derived.PaperMax_rank (Spec.PaperMax attrs) <=
   Derived.PaperMax_rank
     (Spec.PaperMax (<["media-size-supported" := vs ++ [(tag, goipp.Collection entry)]]>
                       attrs)))%nat.
Proof.
  intros E. unfold Spec.PaperMax, Spec.media_sizes.
  rewrite lookup_insert_eq, E.
  destruct vs as [|[tag0 v0] rest]; [vm_compute; lia|].
  destruct v0 as [| | | | | | | | |c]; try (vm_compute; lia).
  cbn [app]. rewrite omap_app. cbn [omap list_omap snd Spec.collection_of app].
  rewrite app_comm_cons.
  set (entries := c :: omap (fun tv : goipp.Tag * goipp.Value => Spec.collection_of tv.2) rest).
  pose proof (max_dimension_snoc "x-dimension" entries entry) as Hx.
  pose proof (max_dimension_snoc "y-dimension" entries entry) as Hy.
  pose proof (max_dimension_nonneg "x-dimension" entries) as Hx0.
  pose proof (max_dimension_nonneg "y-dimension" entries) as Hy0.
  destruct (Z.eqb_spec (Spec.max_dimension "x-dimension" entries) 0) as [Ex|Nx];
    [vm_compute; lia|].
  destruct (Z.eqb_spec (Spec.max_dimension "y-dimension" entries) 0) as [Ey|Ny];
    [vm_compute; lia|].
  cbn [orb].
  destruct (Z.eqb_spec (Spec.max_dimension "x-dimension" (entries ++ [entry])) 0);
    [lia|].
  destruct (Z.eqb_spec (Spec.max_dimension "y-dimension" (entries ++ [entry])) 0);
    [lia|].
  cbn [orb]. rewrite <- !getPaperMax_classify_row.
  apply getPaperMax_classify_monotone; assumption.
Qed.

(** X7. One more media size never lowers the paper class.  For a store in
    which "media-size-supported" has homogeneously typed values, and the
    same store with one more collection at the end of these values,
    [getPaperMax] returns on both, and the class it returns on the second
    is the same or a larger one, in the order: unknown (empty),
    "<legal-A4", "legal-A4", "tabloid-A3", "isoC-A2", ">isoC-A2". *)
Theorem getPaperMax_grows (attrs : gmap string goipp.Values) (vs : goipp.Values)
  (tag : goipp.Tag) (entry : list goipp.Attribute) :
  attrs !! "media-size-supported" = Some vs ->
  Spec.homogeneous vs = true ->
  exists p p',
    ipp.getPaperMax attrs = Ret p /\
    ipp.getPaperMax
      (<["media-size-supported" := vs ++ [(tag, goipp.Collection entry)]]> attrs) =
      Ret p' /\
    (Derived.PaperMax_rank p <= Derived.PaperMax_rank p')%nat.
Proof.
  intros E Hh.
  exists (Spec.PaperMax attrs),
    (Spec.PaperMax (<["media-size-supported" := vs ++ [(tag, goipp.Collection entry)]]>
                      attrs)).
  split; [|split; [|apply (PaperMax_snoc attrs vs tag entry E)]].
  - rewrite getPaperMax_cases. unfold Spec.PaperMax, Spec.media_sizes. rewrite E.
    destruct vs as [|[tag0 v0] rest]; [discriminate|].
    destruct v0 as [| | | | | | | | |c]; try reflexivity.
    rewrite (homogeneous_collections tag0 c rest Hh). reflexivity.
  - rewrite getPaperMax_cases. unfold Spec.PaperMax, Spec.media_sizes.
    rewrite lookup_insert_eq.
    destruct vs as [|[tag0 v0] rest]; [discriminate|].
    destruct v0 as [| | | | | | | | |c]; try reflexivity.
    cbn [app]. rewrite map_app, forallb_app.
    rewrite (homogeneous_collections tag0 c rest Hh). reflexivity.
Qed.

Lemma getPaperMax_grows_witness :
  exists p p',
    ipp.getPaperMax
      {[ "media-size-supported" := [(52, goipp.Collection MoreInputs.media_wide)] ]} =
      Ret p /\
    ipp.getPaperMax
      (<["media-size-supported" :=
           [(52, goipp.Collection MoreInputs.media_wide)] ++
           [(52, goipp.Collection MoreInputs.media_long)]]>
         {[ "media-size-supported" := [(52, goipp.Collection MoreInputs.media_wide)] ]}) =
      Ret p' /\
    (Derived.PaperMax_rank p <= Derived.PaperMax_rank p')%nat.
Proof.
  exact (getPaperMax_grows
           {[ "media-size-supported" := [(52, goipp.Collection MoreInputs.media_wide)] ]}
           [(52, goipp.Collection MoreInputs.media_wide)] 52 MoreInputs.media_long
           eq_refl eq_refl).
Defined.

(** *** The panics of getPaperMax *)

Lemma not_all_collections (rest : goipp.Values) :
  forallb (fun v => bool_decide (is_Some (Spec.collection_of v))) (map snd rest) = false <->
  exists tv, In tv rest /\ Spec.collection_of tv.2 = None.
Proof.
  induction rest as [|[tag v] rest IH]; cbn [map forallb snd].
  - split; [discriminate|intros (tv & [] & _)].
  - destruct (Spec.collection_of v) as [c|] eqn:Ev.
    + rewrite (bool_decide_eq_true_2 _ (mk_is_Some _ _ eq_refl)). cbn [andb].
      rewrite IH. split.
      * intros (tv & Hin & Hn). exists tv. split; [right; exact Hin|exact Hn].
      * intros (tv & [<-|Hin] & Hn); [cbn in Hn; congruence|eauto].
    + split; [|reflexivity]. intros _. exists (tag, v). split; [left; reflexivity|exact Ev].
Qed.

(** X8. [getPaperMax] panics in two cases only: with an index out of
    range when "media-size-supported" is in the store with an empty list of
    values, and with a failed type assertion when its first value is a
    collection and a later value is not.  So members of an entry with
    values of any type, entries without dimensions, and dimensions that are
    negative never make it panic. *)
Theorem getPaperMax_panics (attrs : gmap string goipp.Values) (p : Go.panic) :
  ipp.getPaperMax attrs = Panic p <->
  (p = IndexOutOfRange /\ attrs !! "media-size-supported" = Some []) \/
  (p = TypeAssertion /\
   exists tag c rest,
     attrs !! "media-size-supported" = Some ((tag, goipp.Collection c) :: rest) /\
     exists tv, In tv rest /\ Spec.collection_of tv.2 = None).
Proof.
  rewrite getPaperMax_cases.
  destruct (attrs !! "media-size-supported") as [[|[tag v0] rest]|].
  - split.
    + intros [= <-]. left. auto.
    + intros [[-> _]|(_ & tag & c & rest & [=] & _)]. reflexivity.
  - destruct v0 as [| | | | | | | | |c];
      try (split; [discriminate|];
           intros [[_ [=]]|(_ & tag' & c' & rest' & [=] & _)]).
    destruct (forallb _ (map snd rest)) eqn:Hall.
    + split; [discriminate|].
      intros [[_ [=]]|(_ & tag' & c' & rest' & [= <- <- <-] & Hex)].
      apply not_all_collections in Hex. rewrite Hex in Hall. discriminate.
    + split.
      * intros [= <-]. right. split; [reflexivity|].
        exists tag, c, rest. split; [reflexivity|].
        apply not_all_collections. exact Hall.
      * intros [[_ [=]]|(-> & _)]. reflexivity.
  - split; [discriminate|].
    intros [[_ [=]]|(_ & tag & c & rest & [=] & _)].
Qed.

Lemma getPaperMax_panics_witness :
  ipp.getPaperMax MoreInputs.store_no_media = Panic IndexOutOfRange.
Proof.
  apply (proj2 (getPaperMax_panics MoreInputs.store_no_media IndexOutOfRange)).
  left. split; reflexivity.
Defined.

(** *** The thresholds of the paper classes *)

(** X25. The class that the final switch of [getPaperMax] gives to a pair
    of maxima is "legal-A4" or a larger one exactly when both maxima reach
    21600 and 35400, "tabloid-A3" or larger exactly when they reach 27900
    and 43200, "isoC-A2" or larger exactly when they reach 43200 and 55900,
    and ">isoC-A2" exactly when both exceed these; the width and the length
    have to reach their bounds together.  So a printer whose largest size
    is A4 (210 by 297 mm) and one whose largest size is US Legal (215.9 by
    355.6 mm) are both given "<legal-A4". *)
Theorem getPaperMax_class_thresholds :
  (forall x y : Z,
     let rank := Derived.PaperMax_rank (ipp.getPaperMax_classify x y) in
     (1 <= rank <= 5)%nat /\
     ((2 <= rank)%nat <-> 21600 <= x /\ 35400 <= y) /\
     ((3 <= rank)%nat <-> 27900 <= x /\ 43200 <= y) /\
     ((4 <= rank)%nat <-> 43200 <= x /\ 55900 <= y) /\
     ((5 <= rank)%nat <-> 43200 < x /\ 55900 < y)) /\
  ipp.getPaperMax (Inputs.store_media 21000 29700) = Ret "<legal-A4" /\
  ipp.getPaperMax (Inputs.store_media 21590 35560) = Ret "<legal-A4".
Proof.
  split; [|split; vm_compute; reflexivity].
  intros x y rank. subst rank. unfold ipp.getPaperMax_classify.
  unfold ipp.isoC_a2_x, ipp.isoC_a2_y, ipp.tabloid_a3_x, ipp.tabloid_a3_y,
    ipp.legal_a4_x, ipp.legal_a4_y.
  rewrite !Z.gtb_ltb, !Z.geb_leb.
  repeat match goal with
         | |- context [?a <? ?b] =>
             destruct (Z.ltb_spec a b); try (exfalso; lia)
         | |- context [?a <=? ?b] =>
             destruct (Z.leb_spec a b); try (exfalso; lia)
         end;
    cbn [andb];
    repeat match goal with
           | |- context [Derived.PaperMax_rank ?s] =>
               let v := eval vm_compute in (Derived.PaperMax_rank s) in
               change (Derived.PaperMax_rank s) with v
           end;
    repeat split; intros; lia.
Qed.

(** *** The record of a descriptor that Decode returns *)

Lemma field_keys (key value : string) :
  Derived.keys (Spec.field key value) `sublist_of` [key].
Proof.
  unfold Spec.field. destruct (String.eqb value ""); [apply sublist_nil_l|reflexivity].
Qed.

Lemma keys_app (a b : list ipp.DnsSdTxtItem) :
  Derived.keys (a ++ b) = Derived.keys a ++ Derived.keys b.
Proof. apply map_app. Qed.

(** The keys of the record come in the order of [Derived.TxtKeys], some of
    them left out. *)
Lemma TxtRecord_keys (devid : gmap string string)
  (mopria kind paper urf uuid color duplex location model product pdl : string) :
  Derived.keys (Spec.TxtRecord devid mopria kind paper urf uuid color duplex location
                               model product pdl) `sublist_of` Derived.TxtKeys.
Proof.
  unfold Spec.TxtRecord. rewrite !keys_app.
  change Derived.TxtKeys
    with (["air"] ++ ["mopria-certified"] ++ ["rp"; "priority"] ++ ["kind"] ++
          ["PaperMax"] ++ ["URF"] ++ ["UUID"] ++ ["Color"] ++ ["Duplex"] ++
          ["note"; "qtotal"] ++ ["usb_MDL"] ++ ["usb_MFG"] ++ ["usb_CMD"] ++ ["ty"] ++
          ["product"] ++ ["pdl"] ++ ["txtvers"]).
  repeat (apply sublist_app; [first [apply field_keys|reflexivity]|]).
  reflexivity.
Qed.

Lemma TxtKeys_NoDup : NoDup Derived.TxtKeys.
Proof. apply (bool_decide_unpack _). vm_compute. reflexivity. Qed.

Lemma field_In (item : ipp.DnsSdTxtItem) (key value : string) :
  In item (Spec.field key value) ->
  ipp.Key item = key /\ ipp.Value item = value /\ value <> "".
Proof.
  unfold Spec.field. destruct (String.eqb_spec value "") as [->|Hne]; [intros []|].
  intros [<-|[]]. auto.
Qed.

(** The value of a key that is written once, with [Add]. *)
Ltac txt_key :=
  unfold Spec.TxtRecord; rewrite !txt_values_app;
  repeat match goal with
         | |- context [Spec.txt_values ?key (Spec.field ?k ?v)] =>
             rewrite (txt_values_field_ne key k v) by reflexivity
         end;
  reflexivity.

Lemma TxtRecord_constants (devid : gmap string string)
  (mopria kind paper urf uuid color duplex location model product pdl : string)
  (k v : string) :
  In (k, v) Derived.TxtConstants ->
  Spec.txt_values k (Spec.TxtRecord devid mopria kind paper urf uuid color duplex
                                    location model product pdl) = [v].
Proof.
  unfold Derived.TxtConstants. cbn [In].
  intros [[= <- <-]|[[= <- <-]|[[= <- <-]|[[= <- <-]|[[= <- <-]|[]]]]]]; txt_key.
Qed.

Lemma TxtRecord_note (devid : gmap string string)
  (mopria kind paper urf uuid color duplex location model product pdl : string) :
  Spec.txt_values "note" (Spec.TxtRecord devid mopria kind paper urf uuid color duplex
                                         location model product pdl) = [location].
Proof. txt_key. Qed.

Lemma TxtRecord_values (devid : gmap string string)
  (mopria kind paper urf uuid color duplex location model product pdl : string)
  (item : ipp.DnsSdTxtItem) :
  In item (Spec.TxtRecord devid mopria kind paper urf uuid color duplex location model
                          product pdl) ->
  ipp.Key item <> "note" -> ipp.Value item <> "".
Proof.
  unfold Spec.TxtRecord. intros H Hk.
  repeat (apply in_app_or in H; destruct H as [H|H]);
    try (apply field_In in H as (_ & -> & Hv); exact Hv);
    cbn [In] in H;
    repeat (destruct H as [<-|H]; [try discriminate|]);
    try contradiction.
Qed.

(** X9. Every descriptor that [Decode] returns has the type "_ipp._tcp",
    and the keys of its record come in one fixed order (the order of the
    calls of [Add] and [AddNotEmpty]), each key at most once; so "URF",
    which is written in two places, occurs once at most. *)
Theorem Decode_keys_in_order (attrs : gmap string goipp.Values) (name : string)
  (info : ipp.DnsSdInfo) :
  ipp.Decode attrs = Ret (name, info) ->
  ipp.Type_ info = "_ipp._tcp" /\
  Derived.keys (ipp.Txt info) `sublist_of` Derived.TxtKeys /\
  NoDup (Derived.keys (ipp.Txt info)).
Proof.
  intros H.
  apply Decode_Ret in H
    as (id & mopria & kind & paper & urf & uuid & color & duplex & location & model
        & product & pdl & _ & _ & _ & _ & _ & _ & _ & _ & _ & _ & _ & _ & _ & ->).
  cbn [ipp.Type_ ipp.Txt]. split; [reflexivity|].
  split; [apply TxtRecord_keys|].
  eapply sublist_NoDup; [apply TxtKeys_NoDup|apply TxtRecord_keys].
Qed.

Lemma Decode_keys_in_order_witness :
  ipp.Type_ MoreInputs.info_printer = "_ipp._tcp" /\
  Derived.keys (ipp.Txt MoreInputs.info_printer) `sublist_of` Derived.TxtKeys /\
  NoDup (Derived.keys (ipp.Txt MoreInputs.info_printer)).
Proof.
  apply (Decode_keys_in_order Inputs.store_printer "Acme X1 (USB)").
  vm_compute. reflexivity.
Defined.

(** X10. In every descriptor that [Decode] returns, the five hardcoded
    keys are present with their values (air = none, rp = ipp/print,
    priority = 50, qtotal = 1, txtvers = 1), the key "note" is present with
    the value of "printer-location", be it empty, and no other key has an
    empty value. *)
Theorem Decode_constants_and_values (attrs : gmap string goipp.Values) (name : string)
  (info : ipp.DnsSdInfo) :
  ipp.Decode attrs = Ret (name, info) ->
  (forall k v, In (k, v) Derived.TxtConstants ->
               Spec.txt_values k (ipp.Txt info) = [v]) /\
  (exists location,
     ipp.strSingle attrs ["printer-location"] = Ret location /\
     Spec.txt_values "note" (ipp.Txt info) = [location]) /\
  (forall item, In item (ipp.Txt info) -> ipp.Key item <> "note" ->
                ipp.Value item <> "").
Proof.
  intros H.
  apply Decode_Ret in H
    as (id & mopria & kind & paper & urf & uuid & color & duplex & location & model
        & product & pdl & _ & _ & _ & _ & _ & _ & _ & _ & _ & Hloc & _ & _ & _ & ->).
  cbn [ipp.Txt]. split; [intros k v; apply TxtRecord_constants|].
  split; [exists location; split; [exact Hloc|apply TxtRecord_note]|].
  apply TxtRecord_values.
Qed.

Lemma Decode_constants_and_values_witness :
  Spec.txt_values "priority" (ipp.Txt MoreInputs.info_printer) = ["50"] /\
  Spec.txt_values "note" (ipp.Txt MoreInputs.info_printer) = [""].
Proof.
  pose proof (Decode_constants_and_values Inputs.store_printer "Acme X1 (USB)"
                MoreInputs.info_printer ltac:(vm_compute; reflexivity))
    as (Hc & (location & Hl & Hn) & _).
  split.
  - apply Hc. right. right. left. reflexivity.
  - reflexivity.
Defined.

Lemma TxtRecord_URF (devid : gmap string string)
  (mopria kind paper urf uuid color duplex location model product pdl : string) :
  Spec.txt_values "URF"
    (Spec.TxtRecord devid mopria kind paper urf uuid color duplex location model
                    product pdl) =
  if String.eqb urf ""
  then if String.eqb (ipp.devid_get devid "URF") "" then []
       else [ipp.devid_get devid "URF"]
  else [urf].
Proof.
  unfold Spec.TxtRecord. rewrite !txt_values_app.
  repeat match goal with
         | |- context [Spec.txt_values ?key (Spec.field ?k ?v)] =>
             rewrite (txt_values_field_ne key k v) by reflexivity
         end.
  unfold Spec.field.
  destruct (String.eqb urf "") eqn:Eu.
  - destruct (String.eqb (ipp.devid_get devid "URF") ""); reflexivity.
  - rewrite Eu. reflexivity.
Qed.

(** X11. The key "URF" of a descriptor that [Decode] returns: it has the
    strings of "urf-supported", joined by commas, when these give a text
    that is not empty, whatever the device identifier says; else it has
    the value of the key URF of the device identifier, when that is not
    empty; else the key is left out. *)
Theorem Decode_URF_fallback (attrs : gmap string goipp.Values) (name : string)
  (info : ipp.DnsSdInfo) :
  ipp.Decode attrs = Ret (name, info) ->
  exists id urf,
    ipp.strSingle attrs ["printer-device-id"] = Ret id /\
    ipp.strJoined attrs ["urf-supported"] = Ret urf /\
    Spec.txt_values "URF" (ipp.Txt info) =
    if String.eqb urf ""
    then match ipp.Decode_devid id !! "URF" with
         | Some u => if String.eqb u "" then [] else [u]
         | None => []
         end
    else [urf].
Proof.
  intros H.
  apply Decode_Ret in H
    as (id & mopria & kind & paper & urf & uuid & color & duplex & location & model
        & product & pdl & _ & Hid & _ & _ & _ & Hurf & _ & _ & _ & _ & _ & _ & _ & ->).
  exists id, urf. split; [exact Hid|]. split; [exact Hurf|].
  cbn [ipp.Txt]. rewrite TxtRecord_URF. unfold ipp.devid_get.
  destruct (ipp.Decode_devid id !! "URF"); reflexivity.
Qed.

Lemma Decode_URF_fallback_witness :
  exists id urf,
    ipp.strSingle Inputs.store_printer ["printer-device-id"] = Ret id /\
    ipp.strJoined Inputs.store_printer ["urf-supported"] = Ret urf /\
    Spec.txt_values "URF" (ipp.Txt MoreInputs.info_printer) =
    if String.eqb urf ""
    then match ipp.Decode_devid id !! "URF" with
         | Some u => if String.eqb u "" then [] else [u]
         | None => []
         end
    else [urf].
Proof.
  apply (Decode_URF_fallback Inputs.store_printer "Acme X1 (USB)").
  vm_compute. reflexivity.
Defined.

Lemma TxtRecord_ty_product (devid : gmap string string)
  (mopria kind paper urf uuid color duplex location model product pdl : string) :
  Spec.txt_values "ty"
    (Spec.TxtRecord devid mopria kind paper urf uuid color duplex location model
                    product pdl) = (if String.eqb model "" then [] else [model]) /\
  Spec.txt_values "product"
    (Spec.TxtRecord devid mopria kind paper urf uuid color duplex location model
                    product pdl) = (if String.eqb product "" then [] else [product]).
Proof.
  unfold Spec.TxtRecord. rewrite !txt_values_app.
  repeat match goal with
         | |- context [Spec.txt_values ?key (Spec.field ?k ?v)] =>
             rewrite (txt_values_field_ne key k v) by reflexivity
         end.
  unfold Spec.field.
  destruct (String.eqb model ""), (String.eqb product ""); split; reflexivity.
Qed.

(** X12. In every descriptor that [Decode] returns, the keys "ty" and
    "product" go together: both are left out when the first value of
    "printer-make-and-model" is the empty string, and else "ty" is that
    value and "product" is the same value in round brackets. *)
Theorem Decode_product_is_bracketed_ty (attrs : gmap string goipp.Values)
  (name : string) (info : ipp.DnsSdInfo) :
  ipp.Decode attrs = Ret (name, info) ->
  exists model,
    ipp.strSingle attrs ["printer-make-and-model"] = Ret model /\
    if String.eqb model ""
    then Spec.txt_values "ty" (ipp.Txt info) = [] /\
         Spec.txt_values "product" (ipp.Txt info) = []
    else Spec.txt_values "ty" (ipp.Txt info) = [model] /\
         Spec.txt_values "product" (ipp.Txt info) = ["(" +:+ model +:+ ")"].
Proof.
  intros H.
  apply Decode_Ret in H
    as (id & mopria & kind & paper & urf & uuid & color & duplex & location & model
        & product & pdl & _ & _ & _ & _ & _ & _ & _ & _ & _ & _ & Hm & Hp & _ & ->).
  exists model. split; [exact Hm|].
  unfold ipp.strBrackets in Hp. rewrite Hm, bind_Ret in Hp. injection Hp as <-.
  cbn [ipp.Txt].
  destruct (TxtRecord_ty_product (ipp.Decode_devid id) mopria kind paper urf uuid color
              duplex location model
              (if String.eqb model "" then model else "(" +:+ model +:+ ")") pdl)
    as [-> ->].
  destruct (String.eqb model "") eqn:Em.
  - rewrite Em. auto.
  - auto.
Qed.

Lemma Decode_product_is_bracketed_ty_witness :
  exists model,
    ipp.strSingle Inputs.store_printer ["printer-make-and-model"] = Ret model /\
    if String.eqb model ""
    then Spec.txt_values "ty" (ipp.Txt MoreInputs.info_printer) = [] /\
         Spec.txt_values "product" (ipp.Txt MoreInputs.info_printer) = []
    else Spec.txt_values "ty" (ipp.Txt MoreInputs.info_printer) = [model] /\
         Spec.txt_values "product" (ipp.Txt MoreInputs.info_printer) =
           ["(" +:+ model +:+ ")"].
Proof.
  apply (Decode_product_is_bracketed_ty Inputs.store_printer "Acme X1 (USB)").
  vm_compute. reflexivity.
Defined.

Lemma TrimPrefix_app (prefix s : string) :
  strings.TrimPrefix (prefix +:+ s) prefix = s.
Proof.
  unfold strings.TrimPrefix.
  assert (H : strings.HasPrefix (prefix +:+ s) prefix = true /\
              strings.drop (String.length prefix) (prefix +:+ s) = s).
  { induction prefix as [|c prefix [IH1 IH2]]; [destruct s; split; reflexivity|].
    change (String c prefix +:+ s) with (String c (prefix +:+ s)).
    cbn [strings.HasPrefix strings.drop String.length].
    rewrite Ascii.eqb_refl. auto. }
  destruct H as [-> ->]. reflexivity.
Qed.

Lemma TxtRecord_UUID (devid : gmap string string)
  (mopria kind paper urf uuid color duplex location model product pdl : string) :
  Spec.txt_values "UUID"
    (Spec.TxtRecord devid mopria kind paper urf uuid color duplex location model
                    product pdl) =
  if String.eqb (strings.TrimPrefix uuid "urn:uuid:") "" then []
  else [strings.TrimPrefix uuid "urn:uuid:"].
Proof.
  unfold Spec.TxtRecord. rewrite !txt_values_app.
  repeat match goal with
         | |- context [Spec.txt_values ?key (Spec.field ?k ?v)] =>
             rewrite (txt_values_field_ne key k v) by reflexivity
         end.
  unfold Spec.field.
  destruct (String.eqb (strings.TrimPrefix uuid "urn:uuid:") ""); reflexivity.
Qed.

(** X13. The key "UUID" of a descriptor that [Decode] returns holds the
    first value of "printer-uuid" without the prefix "urn:uuid:": for a
    value that is this prefix followed by a text, the key has that text,
    and it is left out when the text is empty; a value without the prefix
    is written as it is. *)
Theorem Decode_UUID_without_prefix (attrs : gmap string goipp.Values) (name : string)
  (info : ipp.DnsSdInfo) :
  ipp.Decode attrs = Ret (name, info) ->
  exists uuid,
    ipp.strSingle attrs ["printer-uuid"] = Ret uuid /\
    (forall u, uuid = "urn:uuid:" +:+ u ->
               Spec.txt_values "UUID" (ipp.Txt info) =
               if String.eqb u "" then [] else [u]) /\
    (strings.HasPrefix uuid "urn:uuid:" = false ->
     Spec.txt_values "UUID" (ipp.Txt info) =
     if String.eqb uuid "" then [] else [uuid]).
Proof.
  intros H.
  apply Decode_Ret in H
    as (id & mopria & kind & paper & urf & uuid & color & duplex & location & model
        & product & pdl & _ & _ & _ & _ & _ & _ & Hu & _ & _ & _ & _ & _ & _ & ->).
  exists uuid. split; [exact Hu|]. cbn [ipp.Txt]. rewrite TxtRecord_UUID. split.
  - intros u ->. rewrite TrimPrefix_app. reflexivity.
  - intros Hp. unfold strings.TrimPrefix. rewrite Hp. reflexivity.
Qed.

Lemma Decode_UUID_without_prefix_witness :
  Spec.txt_values "UUID" (ipp.Txt MoreInputs.info_printer) =
    ["01234567-89ab-cdef-0123-456789abcdef"].
Proof.
  destruct (Decode_UUID_without_prefix Inputs.store_printer "Acme X1 (USB)"
              MoreInputs.info_printer ltac:(vm_compute; reflexivity))
    as (uuid & Hu & Hp & _).
  vm_compute in Hu. injection Hu as <-.
  exact (Hp "01234567-89ab-cdef-0123-456789abcdef" eq_refl).
Defined.

(** *** What Decode looks at *)

Lemma getAttr_ext (attrs attrs' : gmap string goipp.Values) (t : goipp.Type_)
  (names : list string) :
  (forall n, In n names -> attrs !! n = attrs' !! n) ->
  ipp.getAttr attrs t names = ipp.getAttr attrs' t names.
Proof.
  induction names as [|name names IH]; intros H; [reflexivity|].
  rewrite !getAttr_cons, <- (H name (or_introl eq_refl)).
  rewrite IH by (intros n Hn; apply H; right; exact Hn). reflexivity.
Qed.

(** Proves that the names of one lookup are among the ones of
    [Derived.read_attributes]. *)
Ltac read_names H :=
  let n := fresh "n" in
  let Hn := fresh "Hn" in
  intros n Hn; apply H; unfold Derived.read_attributes; cbn [In] in Hn |- *; tauto.

(** X14. [Decode] looks at thirteen attributes and at nothing else: on
    two stores that agree on these names it gives the same outcome, the
    same name and descriptor or the same panic, whatever else the stores
    hold. *)
Theorem Decode_reads_only (attrs attrs' : gmap string goipp.Values) :
  (forall n, In n Derived.read_attributes -> attrs !! n = attrs' !! n) ->
  ipp.Decode attrs = ipp.Decode attrs'.
Proof.
  intros H.
  unfold ipp.Decode, ipp.strBrackets, ipp.strSingle, ipp.strJoined, ipp.getBool,
    ipp.getDuplex, ipp.getPaperMax, ipp.getStrings.
  repeat match goal with
         | |- context [ipp.getAttr attrs ?t ?names] =>
             rewrite (getAttr_ext attrs attrs' t names) by read_names H
         end.
  reflexivity.
Qed.

Lemma Decode_reads_only_witness :
  ipp.Decode MoreInputs.store_printer_more = ipp.Decode Inputs.store_printer.
Proof.
  apply Decode_reads_only. unfold Derived.read_attributes. cbn [In].
  intros n Hn.
  repeat (destruct Hn as [<-|Hn]; [vm_compute; reflexivity|]).
  destruct Hn.
Defined.

(** X15. On a store with homogeneously typed values [Decode] returns
    exactly when each of the six lookups it makes with [strSingle] (the
    name attributes, "printer-device-id", "mopria-certified",
    "printer-uuid", "printer-location" and "printer-make-and-model") finds
    a string; when one of them does not, [Decode] panics with an index out
    of range.  No type assertion fails on such a store. *)
Theorem Decode_returns_iff_strings_present (attrs : gmap string goipp.Values) :
  Spec.store_homogeneous attrs ->
  ((exists name info, ipp.Decode attrs = Ret (name, info)) <->
   forall names, In names Spec.single_attributes ->
                 exists s, Spec.single_string attrs names = Some s) /\
  ((exists names, In names Spec.single_attributes /\
                  Spec.single_string attrs names = None) ->
   ipp.Decode attrs = Panic IndexOutOfRange).
Proof.
  intros Hh. pose proof (Decode_homogeneous attrs Hh) as H.
  destruct (forallb (Spec.present attrs) Spec.single_attributes) eqn:Hall.
  - rewrite forallb_forall in Hall. split.
    + split.
      * intros _ names Hin. specialize (Hall names Hin). unfold Spec.present in Hall.
        destruct (Spec.single_string attrs names) as [s|]; [eauto|discriminate].
      * intros _. destruct H as [[name info] H]. eauto.
    + intros (names & Hin & Hnone). specialize (Hall names Hin).
      unfold Spec.present in Hall. rewrite Hnone in Hall. discriminate.
  - split; [|intros _; exact H].
    split.
    + intros (name & info & Hr). rewrite Hr in H. discriminate.
    + intros Hp. exfalso.
      assert (Ht : forallb (Spec.present attrs) Spec.single_attributes = true).
      { apply forallb_forall. intros names Hin. unfold Spec.present.
        destruct (Hp names Hin) as [s ->]. reflexivity. }
      rewrite Ht in Hall. discriminate.
Qed.

Lemma Decode_returns_iff_strings_present_witness :
  (exists name info, ipp.Decode Inputs.store_printer = Ret (name, info)) /\
  ipp.Decode Inputs.store_only_model = Panic IndexOutOfRange.
Proof.
  split.
  - apply (proj1 (Decode_returns_iff_strings_present Inputs.store_printer
                    ltac:(unfold Inputs.store_printer; store_typed))).
    unfold Spec.single_attributes. cbn [In]. intros names Hin.
    repeat (destruct Hin as [<-|Hin]; [eexists; vm_compute; reflexivity|]).
    destruct Hin.
  - apply (proj2 (Decode_returns_iff_strings_present Inputs.store_only_model
                    ltac:(unfold Inputs.store_only_model; store_typed))).
    exists ["printer-device-id"]. split; [right; left; reflexivity|].
    vm_compute. reflexivity.
Defined.

(** *** Writing a device identifier and reading it back *)

(** Pieces that hold no separator are the pieces of what they join to. *)
Lemma genSplit_Join (sep : ascii) (t : list string) :
  forall (h : string) (n : nat),
    Forall (fun seg => Spec.contains sep seg = false) (h :: t) ->
    (String.length (strings.Join (h :: t) (String sep "")) <= n)%nat ->
    strings.genSplit sep n (strings.Join (h :: t) (String sep "")) = (h, t).
Proof.
  induction t as [|h' t IHt]; intros h; induction h as [|c h IHh]; intros n Hf Hn.
  - reflexivity.
  - rewrite Join_cons_string in *. cbn [String.length] in Hn.
    destruct n as [|n]; [lia|]. cbn [strings.genSplit].
    inversion Hf as [|? ? Hc _]; subst. cbn [Spec.contains] in Hc.
    apply orb_false_iff in Hc as [Hc Hh]. rewrite Hc.
    rewrite IHh; [reflexivity| |lia].
    constructor; [exact Hh|constructor].
  - change (strings.Join ("" :: h' :: t) (String sep ""))
      with (String sep (strings.Join (h' :: t) (String sep ""))) in *.
    cbn [String.length] in Hn. destruct n as [|n]; [lia|].
    cbn [strings.genSplit]. rewrite Ascii.eqb_refl.
    inversion Hf as [|? ? _ Ht]; subst.
    rewrite IHt; [reflexivity|exact Ht|lia].
  - rewrite Join_cons_string in *. cbn [String.length] in Hn.
    destruct n as [|n]; [lia|]. cbn [strings.genSplit].
    inversion Hf as [|? ? Hc Ht]; subst. cbn [Spec.contains] in Hc.
    apply orb_false_iff in Hc as [Hc Hh]. rewrite Hc.
    rewrite IHh; [reflexivity| |lia].
    constructor; [exact Hh|exact Ht].
Qed.

Lemma Split_Join (sep : ascii) (h : string) (t : list string) :
  Forall (fun seg => Spec.contains sep seg = false) (h :: t) ->
  strings.Split (strings.Join (h :: t) (String sep "")) sep = h :: t.
Proof.
  intros Hf. unfold strings.Split.
  rewrite (genSplit_Join sep t h _ Hf (le_n _)). reflexivity.
Qed.

(** A segment written from a key without a colon is cut back into the key
    and the value. *)
Lemma SplitN_key_value (k v : string) :
  Spec.contains ":" k = false ->
  strings.SplitN (Spec.key_value k v) ":" 2 = [k; v].
Proof.
  intros Hk.
  destruct (SplitN_colon_2 (Spec.key_value k v)) as [[_ Hc]|(k' & v' & E & Hx & Hc)].
  - unfold Spec.key_value in Hc. rewrite contains_app in Hc. cbn in Hc.
    rewrite orb_true_r in Hc. discriminate.
  - unfold Spec.key_value in Hx.
    apply first_cut_unique in Hx as [<- <-]; [exact E|exact Hk|exact Hc].
Qed.

Lemma Decode_devid_loop_pairs (pairs : list (string * string)) :
  Forall (fun kv => Spec.contains ":" kv.1 = false) pairs ->
  forall devid : gmap string string,
    ipp.Decode_devid_loop (map (fun kv => Spec.key_value kv.1 kv.2) pairs) devid =
    fold_left (fun devid kv => <[kv.1 := kv.2]> devid) pairs devid.
Proof.
  unfold ipp.Decode_devid_loop.
  induction 1 as [|[k v] pairs Hk _ IH]; intros devid; [reflexivity|].
  cbn [map fold_left fst snd]. rewrite (SplitN_key_value k v Hk). apply IH.
Qed.

Lemma fold_left_insert (pairs : list (string * string)) :
  fold_left (fun (devid : gmap string string) kv => <[kv.1 := kv.2]> devid) pairs ∅ =
  list_to_map (rev pairs).
Proof.
  induction pairs as [|[k v] pairs IH] using rev_ind; [reflexivity|].
  rewrite fold_left_snoc, IH, rev_app_distr. reflexivity.
Qed.

Lemma writable_segment (kv : string * string) :
  Derived.writable kv = true ->
  Spec.contains ":" kv.1 = false /\
  Spec.contains ";" (Spec.key_value kv.1 kv.2) = false.
Proof.
  unfold Derived.writable. intros H.
  apply andb_true_iff in H as [H Hv]. apply andb_true_iff in H as [Hc Hs].
  apply negb_true_iff in Hv, Hc, Hs. split; [exact Hc|].
  unfold Spec.key_value. rewrite !contains_app, Hs. cbn. exact Hv.
Qed.

(** X16. A device identifier that is written from a list of keys and
    values (each key followed by a colon and its value, the segments
    joined by semicolons) is read back by the device-ID loop of [Decode]
    as the map of these keys and values, the last value of a key that is
    listed more than once; this holds whenever no key holds a colon or a
    semicolon and no value holds a semicolon.  Values may hold colons. *)
Theorem Decode_devid_round_trip (pairs : list (string * string)) :
  forallb Derived.writable pairs = true ->
  ipp.Decode_devid (Derived.device_id pairs) = list_to_map (rev pairs).
Proof.
  intros Hw. rewrite forallb_forall in Hw.
  unfold ipp.Decode_devid, Derived.device_id.
  rewrite <- fold_left_insert.
  destruct pairs as [|kv pairs]; [reflexivity|].
  change (strings.Join (map _ (kv :: pairs)) ";")
    with (strings.Join (Spec.key_value kv.1 kv.2 ::
                        map (fun kv => Spec.key_value kv.1 kv.2) pairs)
                       (String ";" "")).
  rewrite Split_Join.
  - apply (Decode_devid_loop_pairs (kv :: pairs)).
    apply List.Forall_forall. intros x Hx.
    apply (writable_segment x (Hw x Hx)).
  - apply (proj2 (List.Forall_map (fun kv => Spec.key_value kv.1 kv.2) _ (kv :: pairs))).
    apply List.Forall_forall. intros x Hx.
    apply (writable_segment x (Hw x Hx)).
Qed.

Lemma Decode_devid_round_trip_witness :
  ipp.Decode_devid "MFG:Acme;MDL:X1;CMD:PCL,URF;MFG:Acme Inc." =
    list_to_map [("MFG", "Acme Inc."); ("CMD", "PCL,URF"); ("MDL", "X1"); ("MFG", "Acme")].
Proof. exact (Decode_devid_round_trip MoreInputs.pairs eq_refl). Defined.

(** *** The capability query, from the exchange to the name *)

(** The store maps a name to the values of its first occurrence. *)
Lemma newIppDecoder_lookup (msg : goipp.Message) (name : string) :
  ipp.newIppDecoder msg !! name =
  goipp.Values_of <$> Spec.first_occurrence name (goipp.Printer msg).
Proof.
  destruct msg as [ops raw]. cbn [goipp.Printer].
  induction raw as [|a raw IH].
  - unfold ipp.newIppDecoder. simpl. apply lookup_empty.
  - rewrite newIppDecoder_cons. unfold Spec.first_occurrence. simpl.
    destruct (String.eqb_spec (goipp.Name a) name) as [->|Hne].
    + rewrite lookup_insert_eq. reflexivity.
    + rewrite lookup_insert_ne by exact Hne. exact IH.
Qed.

Section Query.

Variable EncodeBytes : goipp.Message -> list Byte.byte.
Variable DecodeBytes : goipp.Message -> list Byte.byte -> goipp.Message * option error.
Variable c : http.Client.

(** X17. An error that [IppService] returns is the error of the post or
    the error of reading the body of the response, and it comes with the
    empty name and the zero descriptor; an error of decoding the response
    is never returned.  [IppService] panics only where [Decode] panics on
    the decoded attributes, or where the post returned neither a response
    nor an error. *)
Theorem IppService_error_origin :
  let post := http.Post c ipp.IppService_uri ipp.ContentType
                        (EncodeBytes ipp.IppService_msg) in
  (forall name info e,
     ipp.IppService EncodeBytes DecodeBytes c = Ret (name, info, Some e) ->
     name = "" /\ info = ipp.zeroDnsSdInfo /\
     (post.2 = Some e \/
      exists resp, post = (Some resp, None) /\ (http.Body resp).2 = Some e)) /\
  (forall p,
     ipp.IppService EncodeBytes DecodeBytes c = Panic p ->
     (post = (None, None) /\ p = NilDereference) \/
     exists resp data msg,
       post = (Some resp, None) /\ http.Body resp = (data, None) /\
       DecodeBytes ipp.IppService_msg data = (msg, None) /\
       ipp.Decode (ipp.newIppDecoder msg) = Panic p).
Proof.
  intros post. subst post. unfold ipp.IppService.
  destruct (http.Post c ipp.IppService_uri ipp.ContentType
                      (EncodeBytes ipp.IppService_msg)) as [resp [e0|]].
  { split; [|discriminate]. intros name info e [= <- <- <-]. auto. }
  destruct resp as [resp|].
  2:{ split; [discriminate|]. intros p [= <-]. auto. }
  destruct (http.Body resp) as [data [e0|]] eqn:HB.
  { split; [|discriminate]. intros name info e [= <- <- <-].
    split; [reflexivity|]. split; [reflexivity|]. right. exists resp.
    rewrite HB. auto. }
  destruct (DecodeBytes ipp.IppService_msg data) as [msg [e0|]] eqn:HD.
  { split; discriminate. }
  destruct (ipp.Decode (ipp.newIppDecoder msg)) as [[name' info']|p'] eqn:HR.
  - split; discriminate.
  - split; [discriminate|]. intros p [= <-]. right. exists resp, data, msg. auto.
Qed.

(** X18. When the exchange succeeds and the response decodes,
    [IppService] returns with no error what [Decode] gives on the decoded
    attributes; the name it returns is the first value, a string, of the
    first occurrence in the response of one of the name attributes, so
    that a second occurrence of that attribute has no effect; and the
    descriptor has the type "_ipp._tcp". *)
Theorem IppService_name_from_first_occurrence
  (resp : http.Response) (data : list Byte.byte) (msg : goipp.Message)
  (name : string) (info : ipp.DnsSdInfo) (err : option error) :
  http.Post c ipp.IppService_uri ipp.ContentType (EncodeBytes ipp.IppService_msg)
    = (Some resp, None) ->
  http.Body resp = (data, None) ->
  DecodeBytes ipp.IppService_msg data = (msg, None) ->
  ipp.IppService EncodeBytes DecodeBytes c = Ret (name, info, err) ->
  err = None /\
  ipp.Decode (ipp.newIppDecoder msg) = Ret (name, info) /\
  ipp.Type_ info = "_ipp._tcp" /\
  exists n a tag rest,
    In n Spec.name_attributes /\
    Spec.first_occurrence n (goipp.Printer msg) = Some a /\
    goipp.Values_of a = (tag, goipp.String name) :: rest.
Proof.
  intros HP HB HD. unfold ipp.IppService. rewrite HP, HB, HD.
  destruct (ipp.Decode (ipp.newIppDecoder msg)) as [[name' info']|p] eqn:HR;
    [|discriminate].
  intros [= <- <- <-]. split; [reflexivity|]. split; [reflexivity|].
  pose proof (Decode_Ret _ _ _ HR)
    as (id & mopria & kind & paper & urf & uuid & color & duplex & location & model
        & product & pdl & Hname & _ & _ & _ & _ & _ & _ & _ & _ & _ & _ & _ & _ & ->).
  split; [reflexivity|].
  apply strSingle_Ret in Hname as (n & tag & rest & Hn & E).
  rewrite newIppDecoder_lookup in E.
  destruct (Spec.first_occurrence n (goipp.Printer msg)) as [a|] eqn:F; [|discriminate].
  injection E as E. exists n, a, tag, rest.
  unfold Spec.first_typed in Hn. apply find_some in Hn as [Hin _].
  auto.
Qed.

End Query.

Lemma IppService_error_origin_witness :
  ("" = "" /\ ipp.zeroDnsSdInfo = ipp.zeroDnsSdInfo /\
   ((http.Post MoreInputs.client_read_fails ipp.IppService_uri ipp.ContentType
               (DeviceInputs.encode ipp.IppService_msg)).2 = Some "unexpected EOF" \/
    exists resp,
      http.Post MoreInputs.client_read_fails ipp.IppService_uri ipp.ContentType
                (DeviceInputs.encode ipp.IppService_msg) = (Some resp, None) /\
      (http.Body resp).2 = Some "unexpected EOF")).
Proof.
  exact (proj1 (IppService_error_origin DeviceInputs.encode MoreInputs.decode_ok
                  MoreInputs.client_read_fails)
           "" ipp.zeroDnsSdInfo "unexpected EOF" eq_refl).
Defined.

Lemma IppService_name_from_first_occurrence_witness :
  (None : option error) = None /\
  ipp.Decode (ipp.newIppDecoder MoreInputs.msg_printer) =
    Ret ("Acme X1 (USB)", MoreInputs.info_msg_printer) /\
  ipp.Type_ MoreInputs.info_msg_printer = "_ipp._tcp" /\
  exists n a tag rest,
    In n Spec.name_attributes /\
    Spec.first_occurrence n (goipp.Printer MoreInputs.msg_printer) = Some a /\
    goipp.Values_of a = (tag, goipp.String "Acme X1 (USB)") :: rest.
Proof.
  apply (IppService_name_from_first_occurrence DeviceInputs.encode MoreInputs.decode_ok
           DeviceInputs.client_ok {| http.Body := ([], None) |} []
           MoreInputs.msg_printer "Acme X1 (USB)" MoreInputs.info_msg_printer None
           eq_refl eq_refl eq_refl).
  vm_compute. reflexivity.
Defined.

(* ===================================================================== *)
(** ** Further properties of device.go                                    *)
(* ===================================================================== *)

Section Lifecycle.
Import device.

Variable E : Env.
Variable desc : UsbDeviceDesc.

(** A construction that returns a Device went through every step: the
    transport and the listener were acquired, both queries were made, the
    update for scanner presence did not panic and, when DNS-SD is enabled,
    the publisher accepted the set. *)
Lemma NewDevice_success_cases (dev : Device.t) (err : option error) :
  result (NewDevice E desc) = Ret (Some dev, err) ->
  exists t l st ippinfo e1 s1 e2 s2 services,
    NewUsbTransport E desc = (Some t, None) /\
    HTTPListen E (LoadDevState E (UsbDeviceInfo.Ident (ut_info t))
                                 (UsbDeviceInfo.Comment (ut_info t))) = (l, None, st) /\
    IppService E [] (DevState.HTTPPort st) (ut_info t)
               (Some {| Transport := Some t |}) = (ippinfo, e1, s1) /\
    EsclService E s1 (DevState.HTTPPort st) (ut_info t) ippinfo
                (Some {| Transport := Some t |}) = (e2, s2) /\
    NewDevice_scan ippinfo e2 s2 = MkRun (Ret services) [] /\
    err = None /\
    let st' := DeviceSpec.state_after ippinfo (ut_info t) st in
    let dev0 := DeviceSpec.assembled desc t l st' in
    let pub := DeviceSpec.publisher dev0 (services ++ [DeviceSpec.web_svc st']) in
    (Conf_DNSSdEnable E = false /\ dev = dev0 /\
     trace (NewDevice E desc) = DeviceSpec.prefix_events t l ippinfo st) \/
    (Conf_DNSSdEnable E = true /\ Publish E pub = None /\
     dev = Device.set_DNSSdPublisher (Some pub) dev0 /\
     trace (NewDevice E desc) =
       DeviceSpec.prefix_events t l ippinfo st ++ [Acquire (RPublisher pub)]).
Proof.
  intros H.
  destruct (NewUsbTransport E desc) as [t [e0|]] eqn:H1.
  { rewrite (NewDevice_transport_failure E desc t e0 H1) in H. discriminate. }
  destruct t as [t|]; [|rewrite (NewDevice_nil_transport E desc H1) in H; discriminate].
  destruct (HTTPListen E (LoadDevState E (UsbDeviceInfo.Ident (ut_info t))
                                         (UsbDeviceInfo.Comment (ut_info t))))
    as [[l [e0|]] st] eqn:H2.
  { rewrite (NewDevice_listener_failure E desc t H1 l st e0 H2) in H. discriminate. }
  destruct (IppService E [] (DevState.HTTPPort st) (ut_info t)
                       (Some {| Transport := Some t |})) as [[ippinfo e1] s1] eqn:H3.
  destruct (EsclService E s1 (DevState.HTTPPort st) (ut_info t) ippinfo
                        (Some {| Transport := Some t |})) as [e2 s2] eqn:H4.
  pose proof (NewDevice_path E desc t H1 l st H2 ippinfo e1 s1 H3 e2 s2 H4) as Hpath.
  rewrite Hpath in H. rewrite Hpath.
  destruct (NewDevice_tail E desc t l
              (DeviceSpec.state_after ippinfo (ut_info t) st) ippinfo e2 s2)
    as [[_ Hr]|(services & Hs & [[Hc Hr]|[(Hc & Hp & Hr)|(e' & _ & _ & Hr)]])];
    rewrite Hr in H |- *; cbn [prepend result trace] in H |- *; try discriminate.
  - injection H as <- <-.
    exists t, l, st, ippinfo, e1, s1, e2, s2, services.
    repeat (split; [reflexivity || assumption|]).
    left. rewrite app_nil_r. auto.
  - injection H as <- <-.
    exists t, l, st, ippinfo, e1, s1, e2, s2, services.
    repeat (split; [reflexivity || assumption|]).
    right. auto.
Qed.

(** X19. A construction that returns a Device returns no error and has
    released nothing, and the Device holds, through live references, what
    the run acquired apart from the listener, and nothing else: the
    transport that [NewUsbTransport] returned, the proxy made over that
    transport and the acquired listener, and the publisher, which is there
    exactly when DNS-SD is enabled.  The client for local queries runs over
    the same transport. *)
Theorem NewDevice_success_holds_what_it_acquired (dev : Device.t)
  (err : option error) :
  result (NewDevice E desc) = Ret (Some dev, err) ->
  let tr := trace (NewDevice E desc) in
  err = None /\
  DeviceSpec.released tr = [] /\
  (forall r, DeviceSpec.holds dev r <->
             In r (DeviceSpec.acquired tr) /\ Derived.owned r = true) /\
  (is_Some (Device.DNSSdPublisher dev) <-> Conf_DNSSdEnable E = true) /\
  exists t p,
    NewUsbTransport E desc = (Some t, None) /\
    Device.UsbTransport dev = Some t /\
    Device.HTTPClient dev = Some {| Transport := Some t |} /\
    Device.HTTPProxy dev = Some p /\
    proxy_transport p = Some t /\
    DeviceSpec.acquired tr =
      [RTransport t] ++ option_list (RListener <$> proxy_listener p) ++ [RProxy p] ++
      option_list (RPublisher <$> Device.DNSSdPublisher dev).
Proof.
  intros H tr. subst tr.
  apply NewDevice_success_cases in H
    as (t & l & st & ippinfo & e1 & s1 & e2 & s2 & services & H1 & _ & _ & _ & _ & ->
        & [(Hc & -> & ->)|(Hc & _ & -> & ->)]);
    destruct (prefix_events_acquired t l ippinfo st) as (Ha & Hr & _).
  - split; [reflexivity|]. split; [exact Hr|]. rewrite Ha.
    split; [|split].
    + intros r. destruct r as [t'|l'|p'|p']; cbn [DeviceSpec.holds DeviceSpec.assembled
        Device.UsbTransport Device.HTTPProxy Device.DNSSdPublisher].
      * split; [intros [= <-]; split; [left|]; reflexivity|].
        intros [Hin _]. destruct l; cbn in Hin;
          repeat (destruct Hin as [Hin|Hin]; try discriminate; try contradiction);
          injection Hin as <-; reflexivity.
      * split; [intros []|]. intros [_ Ho]. discriminate.
      * split.
        -- intros [= <-]. split; [|reflexivity]. destruct l; cbn; auto.
        -- intros [Hin _]. destruct l; cbn in Hin;
             repeat (destruct Hin as [Hin|Hin]; try discriminate; try contradiction);
             injection Hin as <-; reflexivity.
      * split; [discriminate|]. intros [Hin _]. destruct l; cbn in Hin;
          repeat (destruct Hin as [Hin|Hin]; try discriminate; try contradiction).
    + rewrite Hc. cbn. split; [intros [? [=]]|discriminate].
    + eexists t, _. repeat (split; [reflexivity || assumption|]).
      cbn. destruct l; reflexivity.
  - split; [reflexivity|]. rewrite released_app, acquired_app, Hr, Ha.
    split; [reflexivity|].
    split; [|split].
    + intros r. destruct r as [t'|l'|p'|p']; cbn [DeviceSpec.holds DeviceSpec.assembled
        Device.UsbTransport Device.HTTPProxy Device.DNSSdPublisher
        Device.set_DNSSdPublisher].
      * split; [intros [= <-]; split; [left|]; reflexivity|].
        intros [Hin _]. destruct l; cbn in Hin;
          repeat (destruct Hin as [Hin|Hin]; try discriminate; try contradiction);
          injection Hin as <-; reflexivity.
      * split; [intros []|]. intros [_ Ho]. discriminate.
      * split.
        -- intros [= <-]. split; [|reflexivity]. destruct l; cbn; auto.
        -- intros [Hin _]. destruct l; cbn in Hin;
             repeat (destruct Hin as [Hin|Hin]; try discriminate; try contradiction);
             injection Hin as <-; reflexivity.
      * split.
        -- intros [= <-]. split; [|reflexivity]. destruct l; cbn; auto 6.
        -- intros [Hin _]. destruct l; cbn in Hin;
             repeat (destruct Hin as [Hin|Hin]; try discriminate; try contradiction);
             injection Hin as <-; reflexivity.
    + rewrite Hc. cbn. split; [reflexivity|eauto].
    + eexists t, _. repeat (split; [reflexivity || assumption|]).
      cbn. destruct l; reflexivity.
Qed.

(** X20. A print query or a scan query that fails does not fail the
    construction.  When the transport and the listener are acquired, the
    print query gives no result, and DNS-SD is disabled or the publisher
    accepts what it is given, [NewDevice] returns a Device and no error,
    whatever errors the two queries returned; it releases nothing, the
    state of the Device has the fallback name of the USB device, and a
    publisher holds the set as the scan query left it, with no scan flag
    added, followed by the web descriptor. *)
Theorem NewDevice_survives_failed_queries (t : UsbTransport) (l : option Listener)
  (st : DevState.t) (e1 e2 : option error) (s1 s2 : DNSSdServices) :
  NewUsbTransport E desc = (Some t, None) ->
  HTTPListen E (LoadDevState E (UsbDeviceInfo.Ident (ut_info t))
                               (UsbDeviceInfo.Comment (ut_info t))) = (l, None, st) ->
  IppService E [] (DevState.HTTPPort st) (ut_info t)
             (Some {| Transport := Some t |}) = (None, e1, s1) ->
  EsclService E s1 (DevState.HTTPPort st) (ut_info t) None
              (Some {| Transport := Some t |}) = (e2, s2) ->
  (Conf_DNSSdEnable E = true -> forall pub, Publish E pub = None) ->
  exists dev st',
    result (NewDevice E desc) = Ret (Some dev, None) /\
    DeviceSpec.released (trace (NewDevice E desc)) = [] /\
    Device.State dev = Some st' /\
    DevState.DNSSdName st' = UsbDeviceInfo.DNSSdName (ut_info t) /\
    DevState.HTTPPort st' = DevState.HTTPPort st /\
    forall pub, Device.DNSSdPublisher dev = Some pub ->
                pub_services pub =
                s2 ++ [{| Type_ := "_http._tcp"; Port := DevState.HTTPPort st;
                          Txt := [] |}].
Proof.
  intros H1 H2 H3 H4 Hpub.
  rewrite (NewDevice_path E desc t H1 l st H2 None e1 s1 H3 e2 s2 H4).
  destruct (prefix_events_acquired t l None st) as (_ & Hr & _).
  set (st' := DeviceSpec.state_after None (ut_info t) st).
  assert (Hname : DevState.DNSSdName st' = UsbDeviceInfo.DNSSdName (ut_info t) /\
                  DevState.HTTPPort st' = DevState.HTTPPort st).
  { subst st'. unfold DeviceSpec.state_after. cbn [DeviceSpec.resolved_name].
    destruct (String.eqb_spec (UsbDeviceInfo.DNSSdName (ut_info t))
                              (DevState.DNSSdName st)) as [Heq|_]; auto. }
  destruct Hname as [Hname Hport].
  cbn [NewDevice_scan]. rewrite run_bind_mret.
  rewrite (NewDevice_publish_run E (DeviceSpec.assembled desc t l st') l s2 st' eq_refl).
  cbv zeta.
  destruct (Conf_DNSSdEnable E) eqn:Hc.
  - rewrite (Hpub eq_refl). cbn [prepend result trace].
    eexists _, st'. split; [reflexivity|].
    rewrite released_app, Hr. split; [reflexivity|].
    split; [reflexivity|]. split; [exact Hname|]. split; [exact Hport|].
    intros pub [= <-]. cbn [pub_services DeviceSpec.publisher].
    unfold DeviceSpec.web_svc. rewrite Hport. reflexivity.
  - cbn [prepend result trace].
    eexists _, st'. split; [reflexivity|].
    rewrite app_nil_r, Hr. split; [reflexivity|].
    split; [reflexivity|]. split; [exact Hname|]. split; [exact Hport|].
    intros pub [=].
Qed.

(** X21. When the index that the print query recorded lies outside the
    advertisement set as the scan query left it, [NewDevice] panics with
    an index out of range at the update for scanner presence: the label
    ERROR is not reached, so that the transport, the listener and the proxy
    that were acquired are not released, and nothing is published. *)
Theorem NewDevice_index_panic_releases_nothing (t : UsbTransport)
  (l : option Listener) (st : DevState.t) (ippinfo : IppPrinterInfo.t)
  (e1 e2 : option error) (s1 s2 : DNSSdServices) :
  NewUsbTransport E desc = (Some t, None) ->
  HTTPListen E (LoadDevState E (UsbDeviceInfo.Ident (ut_info t))
                               (UsbDeviceInfo.Comment (ut_info t))) = (l, None, st) ->
  IppService E [] (DevState.HTTPPort st) (ut_info t)
             (Some {| Transport := Some t |}) = (Some ippinfo, e1, s1) ->
  EsclService E s1 (DevState.HTTPPort st) (ut_info t) (Some ippinfo)
              (Some {| Transport := Some t |}) = (e2, s2) ->
  IppPrinterInfo.IppSvcIndex ippinfo < 0 \/
  Z.of_nat (length s2) <= IppPrinterInfo.IppSvcIndex ippinfo ->
  let run := NewDevice E desc in
  result run = Panic IndexOutOfRange /\
  DeviceSpec.released (trace run) = [] /\
  DeviceSpec.acquired (trace run) =
    [RTransport t] ++ option_list (RListener <$> l) ++
    [RProxy {| proxy_log := Some (ut_log t); proxy_listener := l;
               proxy_transport := Some t |}].
Proof.
  intros H1 H2 H3 H4 Hidx run. subst run.
  rewrite (NewDevice_path E desc t H1 l st H2 (Some ippinfo) e1 s1 H3 e2 s2 H4).
  rewrite NewDevice_scan_out_of_range.
  - cbn [prepend result trace]. rewrite app_nil_r.
    destruct (prefix_events_acquired t l (Some ippinfo) st) as (Ha & Hr & _).
    auto.
  - destruct Hidx as [Hneg|Hge]; [right; exact Hneg|left].
    apply lookup_ge_None. lia.
Qed.

(** X22. [Close] after a construction that returned a Device releases
    what the construction acquired, apart from the listener, each once and
    in the reverse order of the acquisitions: the publisher if there is
    one, the proxy, the transport.  The listener is not closed by [Close];
    it was handed to the proxy. *)
Theorem Close_releases_in_reverse_order (dev : Device.t) (err : option error) :
  result (NewDevice E desc) = Ret (Some dev, err) ->
  result (Close dev) = Ret (DeviceSpec.closed dev) /\
  DeviceSpec.released (trace (Close dev)) =
    rev (List.filter Derived.owned (DeviceSpec.acquired (trace (NewDevice E desc)))) /\
  DeviceSpec.acquired (trace (Close dev)) = [].
Proof.
  intros H. rewrite Close_run. cbn [result trace].
  apply NewDevice_success_cases in H
    as (t & l & st & ippinfo & e1 & s1 & e2 & s2 & services & _ & _ & _ & _ & _ & _
        & [(_ & -> & ->)|(_ & _ & -> & ->)]);
    destruct (prefix_events_acquired t l ippinfo st) as (Ha & _ & _).
  - rewrite Ha. split; [reflexivity|]. destruct l; split; reflexivity.
  - rewrite acquired_app, Ha. split; [reflexivity|]. destruct l; split; reflexivity.
Qed.

(** X23. The graceful end of a Device that a construction returned:
    [Shutdown] unpublishes and closes the proxy, then asks the transport
    that the construction acquired to shut down, and returns the answer of
    the transport as its error; whatever that answer is, the reference to
    the transport stays live, and [Close] on the Device as [Shutdown] left
    it closes the transport and nothing else.  Taken together the two calls
    release what [Close] alone releases, in the same order. *)
Theorem Shutdown_then_Close_after_NewDevice (dev : Device.t) (err : option error)
  (ctx : Context) :
  result (NewDevice E desc) = Ret (Some dev, err) ->
  exists t,
    NewUsbTransport E desc = (Some t, None) /\
    result (Shutdown E dev ctx) =
      Ret (DeviceSpec.shut_down dev, TransportShutdown E t ctx) /\
    Derived.shut (trace (Shutdown E dev ctx)) = [t] /\
    last (trace (Shutdown E dev ctx)) = Some (ShutdownTransport t ctx) /\
    trace (Close (DeviceSpec.shut_down dev)) = [Release (RTransport t)] /\
    DeviceSpec.released (trace (Shutdown E dev ctx) ++
                         trace (Close (DeviceSpec.shut_down dev))) =
      DeviceSpec.released (trace (Close dev)).
Proof.
  intros H. rewrite Shutdown_run, !Close_run. cbn [result trace].
  apply NewDevice_success_cases in H
    as (t & l & st & ippinfo & e1 & s1 & e2 & s2 & services & H1 & _ & _ & _ & _ & _
        & [(_ & -> & _)|(_ & _ & -> & _)]);
    exists t; repeat split; try exact H1; reflexivity.
Qed.

(** X24. The outcomes of [NewDevice]: when it returns, it returns either a
    Device and no error or no Device and an error, never both and never
    neither; and the code of [NewDevice] itself panics in two cases only,
    at the call through the transport when [NewUsbTransport] returned
    neither a transport nor an error, and with an index out of range at the
    update for scanner presence, after the transport was acquired. *)
Theorem NewDevice_outcomes :
  (forall d e, result (NewDevice E desc) = Ret (d, e) -> (is_Some d <-> e = None)) /\
  (forall p, result (NewDevice E desc) = Panic p ->
             NewUsbTransport E desc = (None, None) \/
             (p = IndexOutOfRange /\
              exists t, NewUsbTransport E desc = (Some t, None))).
Proof.
  destruct (NewUsbTransport E desc) as [t [e0|]] eqn:H1.
  { rewrite (NewDevice_transport_failure E desc t e0 H1). cbn [result].
    split; [|discriminate]. intros d e [= <- <-].
    split; [intros [? [=]]|discriminate]. }
  destruct t as [t|].
  2:{ rewrite (NewDevice_nil_transport E desc H1). cbn [result].
      split; [discriminate|]. intros p [= <-]. left. auto. }
  destruct (HTTPListen E (LoadDevState E (UsbDeviceInfo.Ident (ut_info t))
                                         (UsbDeviceInfo.Comment (ut_info t))))
    as [[l [e0|]] st] eqn:H2.
  { rewrite (NewDevice_listener_failure E desc t H1 l st e0 H2). cbn [result].
    split; [|discriminate]. intros d e [= <- <-].
    split; [intros [? [=]]|discriminate]. }
  destruct (IppService E [] (DevState.HTTPPort st) (ut_info t)
                       (Some {| Transport := Some t |})) as [[ippinfo e1] s1] eqn:H3.
  destruct (EsclService E s1 (DevState.HTTPPort st) (ut_info t) ippinfo
                        (Some {| Transport := Some t |})) as [e2 s2] eqn:H4.
  rewrite (NewDevice_path E desc t H1 l st H2 ippinfo e1 s1 H3 e2 s2 H4).
  destruct (NewDevice_tail E desc t l
              (DeviceSpec.state_after ippinfo (ut_info t) st) ippinfo e2 s2)
    as [[_ ->]|(services & _ & [[_ ->]|[(_ & _ & ->)|(e' & _ & _ & ->)]])];
    cbn [prepend result].
  - split; [discriminate|]. intros p [= <-]. right. eauto.
  - split; [|discriminate]. intros d e [= <- <-]. split; [reflexivity|eauto].
  - split; [|discriminate]. intros d e [= <- <-]. split; [reflexivity|eauto].
  - split; [|discriminate]. intros d e [= <- <-].
    split; [intros [? [=]]|discriminate].
Qed.

End Lifecycle.

Lemma NewDevice_success_holds_what_it_acquired_witness :
  let E := DeviceInputs.env None (Some "Acme X1") None None in
  DeviceSpec.released (device.trace (device.NewDevice E DeviceInputs.desc0)) = [] /\
  (forall r, DeviceSpec.holds MoreInputs.dev_built r <->
             In r (DeviceSpec.acquired
                     (device.trace (device.NewDevice E DeviceInputs.desc0))) /\
             Derived.owned r = true).
Proof.
  intros E.
  pose proof (NewDevice_success_holds_what_it_acquired E DeviceInputs.desc0
                MoreInputs.dev_built None ltac:(vm_compute; reflexivity))
    as (_ & Hr & Hh & _).
  split; [exact Hr|exact Hh].
Defined.

Lemma NewDevice_survives_failed_queries_witness :
  let E := DeviceInputs.env None None (Some "eSCL: no response") None in
  exists dev st',
    device.result (device.NewDevice E DeviceInputs.desc0) = Ret (Some dev, None) /\
    DeviceSpec.released (device.trace (device.NewDevice E DeviceInputs.desc0)) = [] /\
    device.Device.State dev = Some st' /\
    device.DevState.DNSSdName st' = "Acme X1" /\
    device.DevState.HTTPPort st' = 60000 /\
    forall pub, device.Device.DNSSdPublisher dev = Some pub ->
                device.pub_services pub =
                [] ++ [{| device.Type_ := "_http._tcp"; device.Port := 60000;
                          device.Txt := [] |}].
Proof.
  intros E.
  exact (NewDevice_survives_failed_queries E DeviceInputs.desc0 DeviceInputs.transport0
           (Some DeviceInputs.listener0) DeviceInputs.state0
           (Some "IPP: no response") (Some "eSCL: no response") [] []
           eq_refl eq_refl eq_refl eq_refl (fun _ _ => eq_refl)).
Defined.

Lemma NewDevice_index_panic_releases_nothing_witness :
  let run := device.NewDevice MoreInputs.env_bad_index DeviceInputs.desc0 in
  device.result run = Panic IndexOutOfRange /\
  DeviceSpec.released (device.trace run) = [] /\
  DeviceSpec.acquired (device.trace run) =
    [device.RTransport DeviceInputs.transport0] ++
    option_list (device.RListener <$> Some DeviceInputs.listener0) ++
    [device.RProxy DeviceInputs.proxy0].
Proof.
  apply (NewDevice_index_panic_releases_nothing MoreInputs.env_bad_index
           DeviceInputs.desc0 DeviceInputs.transport0 (Some DeviceInputs.listener0)
           DeviceInputs.state0
           {| device.IppPrinterInfo.DNSSdName := "Acme X1";
              device.IppPrinterInfo.IppSvcIndex := 1 |}
           None (Some "eSCL: no response")
           [DeviceInputs.ipp_svc] [DeviceInputs.ipp_svc]
           eq_refl eq_refl eq_refl eq_refl).
  right. cbn. lia.
Defined.

Lemma Close_releases_in_reverse_order_witness :
  device.result (device.Close MoreInputs.dev_built) =
    Ret (DeviceSpec.closed MoreInputs.dev_built) /\
  DeviceSpec.released (device.trace (device.Close MoreInputs.dev_built)) =
    rev (List.filter Derived.owned
           (DeviceSpec.acquired
              (device.trace
                 (device.NewDevice (DeviceInputs.env None (Some "Acme X1") None None)
                                   DeviceInputs.desc0)))) /\
  DeviceSpec.acquired (device.trace (device.Close MoreInputs.dev_built)) = [].
Proof.
  apply (Close_releases_in_reverse_order
           (DeviceInputs.env None (Some "Acme X1") None None) DeviceInputs.desc0
           MoreInputs.dev_built None).
  vm_compute. reflexivity.
Defined.

Lemma Shutdown_then_Close_after_NewDevice_witness :
  exists t,
    device.NewUsbTransport MoreInputs.env_shutdown_fails DeviceInputs.desc0 =
      (Some t, None) /\
    device.result (device.Shutdown MoreInputs.env_shutdown_fails MoreInputs.dev_built
                                   0%nat) =
      Ret (DeviceSpec.shut_down MoreInputs.dev_built,
           device.TransportShutdown MoreInputs.env_shutdown_fails t 0%nat) /\
    Derived.shut (device.trace (device.Shutdown MoreInputs.env_shutdown_fails
                                                MoreInputs.dev_built 0%nat)) = [t] /\
    last (device.trace (device.Shutdown MoreInputs.env_shutdown_fails
                                        MoreInputs.dev_built 0%nat)) =
      Some (device.ShutdownTransport t 0%nat) /\
    device.trace (device.Close (DeviceSpec.shut_down MoreInputs.dev_built)) =
      [device.Release (device.RTransport t)] /\
    DeviceSpec.released
      (device.trace (device.Shutdown MoreInputs.env_shutdown_fails MoreInputs.dev_built
                                     0%nat) ++
       device.trace (device.Close (DeviceSpec.shut_down MoreInputs.dev_built))) =
      DeviceSpec.released (device.trace (device.Close MoreInputs.dev_built)).
Proof.
  apply (Shutdown_then_Close_after_NewDevice MoreInputs.env_shutdown_fails
           DeviceInputs.desc0 MoreInputs.dev_built None 0%nat).
  vm_compute. reflexivity.
Defined.

Lemma NewDevice_outcomes_witness :
  is_Some (Some MoreInputs.dev_built) <-> (None : option error) = None.
Proof.
  apply (proj1 (NewDevice_outcomes (DeviceInputs.env None (Some "Acme X1") None None)
                  DeviceInputs.desc0)).
  vm_compute. reflexivity.
Defined.
